(** * fwup: the MBR codec (src/mbr.c) and the archive re-signer
      (src/fwup_sign.c), embedded shallowly and verified.

    Buffers are lists of bytes held as [Z]; every store into a [uint8_t]
    goes through [wrap8], every [uint32_t] computation through [wrap32].
    Functions that write through a pointer take the buffer and return
    the updated buffer. *)

From Stdlib Require Import Ascii String.
From stdpp Require Import base numbers option list strings gmap.
From coqutil Require Import Z.bitblast.

Local Open Scope Z_scope.

(** ** Machine integers *)

Definition wrap8 (v : Z) : Z := v mod 2 ^ 8.
Definition wrap16 (v : Z) : Z := v mod 2 ^ 16.
Definition wrap32 (v : Z) : Z := v mod 2 ^ 32.

(** Conversion of an integer to C's [int] (two's complement, 32 bits). *)
Definition to_int (v : Z) : Z := (v + 2 ^ 31) mod 2 ^ 32 - 2 ^ 31.

Definition is_byte (v : Z) : Prop := 0 <= v < 256.
Definition is_u32 (v : Z) : Prop := 0 <= v < 2 ^ 32.

(** ** Error results

    [ERR_RETURN(msg)] and [ERR_CLEANUP_MSG(msg)] record a message and make
    the function return a negative value; one constructor per message. *)

Inductive error : Type :=
  | InvalidPartitionType
  | ExpandNotLast
  | Overlap (i : nat) (ileft iright : Z) (j : nat) (jleft jright : Z)
  | BootstrapAndOsip
  | MbrSignatureMissing
  | PartitionNumber
  | DuplicatePartition (ix : Z)
  | PartitionTypeRange (ix : Z)
  | BlockOffsetRequired (ix : Z)
  | BlockOffsetRange (ix : Z) (text : string)
  | BlockOffsetParse (ix : Z)
  | BlockCountRange (ix : Z)
  | OsiiNumber
  | DuplicateOsii
  | NoOsii
  | BootstrapSize
  | OsipWithBootstrap
  | EmptyPartitionTable
  | BadHex
  | ArchiveConfig
  | NoInputFile
  | NoOutputFile
  | NoSigningKey
  | OutOfMemory
  | ArchiveOpen
  | ArchiveCreate (temp_filename : string)
  | MoreThanOneMetaConf
  | MetaConfRead
  | MetaConfSize (configtxt_len : Z)
  | MetaConfAdd
  | MetaConfNotFirst
  | WriteHeader (path : string)
  | ReadData (path : string)
  | WriteData (path : string)
  | NoMetaConf
  | RenameFailed (path : string).

Inductive res (A : Type) : Type :=
  | Ok (a : A)
  | Err (e : error).
Arguments Ok {A} a.
Arguments Err {A} e.

(** The [int] a C function returns for a result. *)
Definition rc {A} (r : res A) : Z :=
  match r with Ok _ => 0 | Err _ => -1 end.

Definition is_ok {A} (r : res A) : Prop := exists a, r = Ok a.
Definition is_err {A} (r : res A) : Prop := exists e, r = Err e.

Definition bind {A B} (r : res A) (k : A -> res B) : res B :=
  match r with Ok a => k a | Err e => Err e end.

Notation "x <- r ; k" := (bind r (fun x => k))
  (at level 100, r at next level, right associativity).

(** [for (i = ...; ...; i++) body], the indices given as a list, the loop
    variables threaded as [s]; an error leaves the loop. *)
Fixpoint for_each {St : Type} (body : nat -> St -> res St) (l : list nat)
    (s : St) : res St :=
  match l with
  | [] => Ok s
  | i :: l' => s' <- body i s; for_each body l' s'
  end.

(** ** Byte buffers *)

Definition store8 (output : list Z) (i : nat) (v : Z) : list Z :=
  <[i := wrap8 v]> output.

Fixpoint memset (output : list Z) (start : nat) (c : Z) (n : nat) : list Z :=
  match n with
  | O => output
  | S n' => memset (store8 output start c) (S start) c n'
  end.

Fixpoint memcpy (output : list Z) (start : nat) (src : list Z) (from n : nat)
  : list Z :=
  match n with
  | O => output
  | S n' => memcpy (store8 output start (src !!! from)) (S start) src (S from) n'
  end.

(** Modelled from the spec: [copy_le16] and [copy_le32] of util.h are not
    part of the sources at hand; the spec has every multi-byte integer of
    the record packed little-endian, least significant byte first. *)
Definition copy_le16 (output : list Z) (at_ : nat) (v : Z) : list Z :=
  store8 (store8 output at_ v) (at_ + 1) (Z.shiftr v 8).

Definition copy_le32 (output : list Z) (at_ : nat) (v : Z) : list Z :=
  store8 (store8 (store8 (store8 output at_ v)
    (at_ + 1) (Z.shiftr v 8)) (at_ + 2) (Z.shiftr v 16)) (at_ + 3) (Z.shiftr v 24).

(** The [n] bytes of [l] from [start] on. *)
Definition bytes_at (l : list Z) (start n : nat) : list Z :=
  take n (drop start l).

(** The four bytes of a 32-bit value, least significant first. *)
Definition le32 (v : Z) : list Z :=
  [v mod 256; v / 2 ^ 8 mod 256; v / 2 ^ 16 mod 256; v / 2 ^ 24 mod 256].

(** ** Data model (src/mbr.h) *)

Definition MBR_MAX_PRIMARY_PARTITIONS : nat := 4.

Record mbr_partition : Type := {
  boot_flag : bool;
  expand_flag : bool;
  partition_type : Z;   (* int *)
  block_offset : Z;     (* uint32_t *)
  block_count : Z       (* uint32_t *)
}.

Definition zero_partition : mbr_partition :=
  {| boot_flag := false; expand_flag := false; partition_type := 0;
     block_offset := 0; block_count := 0 |}.

#[export] Instance mbr_partition_inhabited : Inhabited mbr_partition :=
  populate zero_partition.

(** [struct mbr_table]: the array of four partitions. *)
Abbreviation mbr_table := (list mbr_partition).

Definition zero_table : mbr_table := replicate MBR_MAX_PRIMARY_PARTITIONS zero_partition.

Definition partition_ok (p : mbr_partition) : Prop :=
  - 2 ^ 31 <= partition_type p < 2 ^ 31 /\
  is_u32 (block_offset p) /\ is_u32 (block_count p).

Definition table_ok (t : mbr_table) : Prop :=
  length t = MBR_MAX_PRIMARY_PARTITIONS /\ Forall partition_ok t.

(** ** mbr_verify *)

Definition SECTORS_PER_HEAD : Z := 63.
Definition HEADS_PER_CYLINDER : Z := 255.

(** The body of the inner loop over [j]. *)
Definition verify_pair (table : mbr_table) (i : nat) (ileft iright : Z)
    (j : nat) (_ : unit) : res unit :=
  if decide (j = i) then Ok tt
  else
    let partition2 := table !!! j in
    let jleft := block_offset partition2 in
    let jright := wrap32 (jleft + block_count partition2) in
    if decide (partition_type partition2 = 0 \/ jleft = jright) then Ok tt
    else if decide ((ileft >= jleft /\ ileft < jright) \/
                    (iright > jleft /\ iright <= jright))
    then Err (Overlap i ileft iright j jleft jright)
    else Ok tt.

(** The body of the outer loop over [i]; the state is [expanding]. *)
Definition verify_slot (table : mbr_table) (i : nat) (expanding : bool)
  : res bool :=
  let partition := table !!! i in
  if decide (partition_type partition > 0xff \/ partition_type partition < 0)
  then Err InvalidPartitionType
  else
    let ileft := block_offset partition in
    let iright := wrap32 (ileft + block_count partition) in
    if decide (partition_type partition = 0) then Ok expanding
    else if decide (ileft = iright /\ expand_flag partition = false)
    then Ok expanding
    else if expanding then Err ExpandNotLast
    else
      let expanding := if expand_flag partition then true else expanding in
      _ <- for_each (verify_pair table i ileft iright)
             (seq 0 MBR_MAX_PRIMARY_PARTITIONS) tt;
      Ok expanding.

Definition mbr_verify (table : mbr_table) : res unit :=
  _ <- for_each (verify_slot table) (seq 0 MBR_MAX_PRIMARY_PARTITIONS) false;
  Ok tt.

(** ** Encoding: lba_to_chs, create_partition, write_osip, mbr_create *)

(** [lba_to_chs(lba, &output[at_])]: the three bytes are written only
    when the address has a CHS form; otherwise the buffer is not touched. *)
Definition lba_to_chs (lba : Z) (output : list Z) (at_ : nat) : list Z :=
  if decide (lba <= SECTORS_PER_HEAD * HEADS_PER_CYLINDER * 0x3ff) then
    let cylinder := wrap16 (lba / (SECTORS_PER_HEAD * HEADS_PER_CYLINDER)) in
    let head := wrap8 ((lba / SECTORS_PER_HEAD) mod HEADS_PER_CYLINDER) in
    let sector := wrap8 (wrap8 (lba mod SECTORS_PER_HEAD) + 1) in
    let output := store8 output at_ head in
    let output :=
      store8 output (at_ + 1)
        (Z.lor (Z.shiftr (Z.land cylinder 0x300) 2) sector) in
    store8 output (at_ + 2) (Z.land cylinder 0xff)
  else output.

(** The block count [create_partition] writes: the declared one, or the
    rest of the medium for an expanding partition when that is larger. *)
Definition effective_block_count (partition : mbr_partition) (num_blocks : Z)
  : Z :=
  if decide (expand_flag partition = true /\
             num_blocks > wrap32 (block_offset partition + block_count partition))
  then wrap32 (num_blocks - block_offset partition)
  else block_count partition.

(** [create_partition(partition, &output[at_], num_blocks)]. *)
Definition create_partition (partition : mbr_partition) (output : list Z)
    (at_ : nat) (num_blocks : Z) : res unit * list Z :=
  let block_count := effective_block_count partition num_blocks in
  let output :=
    if decide (partition_type partition > 0) then
      let output :=
        store8 output at_ (if boot_flag partition then 0x80 else 0x00) in
      let output := lba_to_chs (block_offset partition) output (at_ + 1) in
      let output := store8 output (at_ + 4) (partition_type partition) in
      lba_to_chs (wrap32 (block_offset partition + block_count - 1))
        output (at_ + 5)
    else memset output at_ 0 8 in
  let output := copy_le32 output (at_ + 8) (block_offset partition) in
  let output := copy_le32 output (at_ + 12) block_count in
  (Ok tt, output).

Record osii : Type := {
  os_minor : Z;             (* uint16_t *)
  os_major : Z;             (* uint16_t *)
  start_block_offset : Z;   (* uint32_t *)
  ddr_load_address : Z;     (* uint32_t *)
  entry_point : Z;          (* uint32_t *)
  image_size : Z;           (* uint32_t *)
  attribute : Z             (* uint8_t *)
}.

Definition zero_osii : osii :=
  {| os_minor := 0; os_major := 0; start_block_offset := 0;
     ddr_load_address := 0; entry_point := 0; image_size := 0;
     attribute := 0 |}.

#[export] Instance osii_inhabited : Inhabited osii := populate zero_osii.

Record osip_header : Type := {
  include_osip : bool;
  minor : Z;                (* uint8_t *)
  major : Z;                (* uint8_t *)
  num_pointers : Z;         (* uint8_t *)
  num_images : Z;           (* uint8_t *)
  descriptors : list osii   (* struct osii descriptors[16] *)
}.

Definition zero_osip : osip_header :=
  {| include_osip := false; minor := 0; major := 0; num_pointers := 0;
     num_images := 0; descriptors := replicate 16 zero_osii |}.

(** One turn of the descriptor loop of [write_osip]; the state is the
    buffer and the cursor [osii_out]. *)
Definition write_osii (osip : osip_header) (i : nat) (st : list Z * nat)
  : res (list Z * nat) :=
  let '(output, osii_out) := st in
  let descriptor := descriptors osip !!! i in
  let output := copy_le16 output (osii_out + 0) (os_minor descriptor) in
  let output := copy_le16 output (osii_out + 2) (os_major descriptor) in
  let output := copy_le32 output (osii_out + 4) (start_block_offset descriptor) in
  let output := copy_le32 output (osii_out + 8) (ddr_load_address descriptor) in
  let output := copy_le32 output (osii_out + 12) (entry_point descriptor) in
  let output := copy_le32 output (osii_out + 16) (image_size descriptor) in
  let output := store8 output (osii_out + 20) (attribute descriptor) in
  let output := memset output (osii_out + 21) 0 3 in
  Ok (output, (osii_out + 24)%nat).

(** The checksum loop: [sum = output[0]; for (i = 1; i < header_size; i++)
    sum = sum ^ output[i]]. *)
Definition osip_checksum (output : list Z) (header_size : Z) : Z :=
  fold_left (fun sum i => wrap8 (Z.lxor sum (output !!! i)))
    (seq 1 (Z.to_nat header_size - 1)) (output !!! 0%nat).

Definition write_osip (osip : osip_header) (output : list Z)
  : res unit * list Z :=
  let output := store8 output 0 36 in   (* '$' *)
  let output := store8 output 1 79 in   (* 'O' *)
  let output := store8 output 2 83 in   (* 'S' *)
  let output := store8 output 3 36 in   (* '$' *)
  let output := store8 output 4 0 in
  let output := store8 output 5 (minor osip) in
  let output := store8 output 6 (major osip) in
  let output := store8 output 7 0 in
  let output := store8 output 8 (num_pointers osip) in
  let output := store8 output 9 (num_images osip) in
  let header_size := wrap16 (32 + 24 * num_images osip) in
  let output := copy_le16 output 10 header_size in
  let output := memset output 12 0 20 in
  match for_each (write_osii osip) (seq 0 (Z.to_nat (num_images osip)))
          (output, 32%nat) with
  | Err e => (Err e, output)
  | Ok (output, _) =>
      let sum := osip_checksum output header_size in
      let output := store8 output 7 sum in
      (Ok tt, output)
  end.

(** The loop of [mbr_create] over the four entries. *)
Fixpoint create_partitions (table : mbr_table) (num_blocks : Z)
    (l : list nat) (output : list Z) : res unit * list Z :=
  match l with
  | [] => (Ok tt, output)
  | i :: l' =>
      match create_partition (table !!! i) output (446 + i * 16) num_blocks with
      | (Err e, output) => (Err e, output)
      | (Ok _, output) => create_partitions table num_blocks l' output
      end
  end.

(** [bootstrap] is [None] for a NULL pointer. *)
Definition mbr_create (table : mbr_table) (bootstrap : option (list Z))
    (osip : osip_header) (signature num_blocks : Z) (output : list Z)
  : res unit * list Z :=
  if decide (is_Some bootstrap /\ include_osip osip = true)
  then (Err BootstrapAndOsip, output)
  else
    match mbr_verify table with
    | Err e => (Err e, output)
    | Ok _ =>
        let output :=
          match bootstrap with
          | Some code => memcpy output 0 code 0 440
          | None => memset output 0 0 440
          end in
        match (if include_osip osip then write_osip osip output
               else (Ok tt, output)) with
        | (Err e, output) => (Err e, output)
        | (Ok _, output) =>
            let output := copy_le32 output 440 signature in
            let output := store8 output 444 0 in
            let output := store8 output 445 0 in
            match create_partitions table num_blocks
                    (seq 0 MBR_MAX_PRIMARY_PARTITIONS) output with
            | (Err e, output) => (Err e, output)
            | (Ok _, output) =>
                let output := store8 output 510 0x55 in
                let output := store8 output 511 0xaa in
                (Ok tt, output)
            end
        end
    end.

(** ** Decoding: read_partition, mbr_decode *)

(** [read_partition(&input[at_], partition)]. The shifts are done in
    [int] and the result is stored in a [uint32_t], hence [wrap32]. *)
Definition read_partition (input : list Z) (at_ : nat)
    (partition : mbr_partition) : res unit * mbr_partition :=
  (Ok tt,
   {| boot_flag :=
        if decide (Z.land (input !!! at_) 0x80 <> 0) then true else false;
      expand_flag := expand_flag partition;
      partition_type := input !!! (at_ + 4)%nat;
      block_offset :=
        wrap32 (Z.lor (Z.lor (Z.lor (input !!! (at_ + 8)%nat)
          (Z.shiftl (input !!! (at_ + 9)%nat) 8))
          (Z.shiftl (input !!! (at_ + 10)%nat) 16))
          (Z.shiftl (input !!! (at_ + 11)%nat) 24));
      block_count :=
        wrap32 (Z.lor (Z.lor (Z.lor (input !!! (at_ + 12)%nat)
          (Z.shiftl (input !!! (at_ + 13)%nat) 8))
          (Z.shiftl (input !!! (at_ + 14)%nat) 16))
          (Z.shiftl (input !!! (at_ + 15)%nat) 24)) |}).

Fixpoint read_partitions (input : list Z) (l : list nat) (table : mbr_table)
  : res unit * mbr_table :=
  match l with
  | [] => (Ok tt, table)
  | i :: l' =>
      match read_partition input (446 + i * 16) (table !!! i) with
      | (Err e, partition) => (Err e, <[i := partition]> table)
      | (Ok _, partition) => read_partitions input l' (<[i := partition]> table)
      end
  end.

(** [table] is the caller's structure as it is on entry. *)
Definition mbr_decode (input : list Z) (table : mbr_table)
  : res unit * mbr_table :=
  let table := zero_table in   (* memset(table, 0, sizeof(struct mbr_table)) *)
  if decide (input !!! 510%nat <> 0x55 \/ input !!! 511%nat <> 0xaa)
  then (Err MbrSignatureMissing, table)
  else read_partitions input (seq 0 MBR_MAX_PRIMARY_PARTITIONS) table.

(** ** The configuration tree (libconfuse) and libc's strtoul

    The configuration parser is outside the repository; a section of the
    tree is held as a record of the values its getters return:
    [cfg_title] and [cfg_getstr] strings, [cfg_getint] a [long],
    [cfg_getbool] a [bool]; [cfg_getnsec] walks the subsections in
    order. *)

Record cfg_partition : Type := {
  partition_title : string;
  cfg_type : Z;
  cfg_block_offset : option string;
  cfg_block_count : Z;
  cfg_boot : bool;
  cfg_expand : bool
}.

Record cfg_osii : Type := {
  osii_title : string;
  cfg_os_major : Z;
  cfg_os_minor : Z;
  cfg_start_block_offset : Z;
  cfg_ddr_load_address : Z;
  cfg_entry_point : Z;
  cfg_image_size_blocks : Z;
  cfg_attribute : Z
}.

Record cfg_t : Type := {
  cfg_bootstrap_code : option string;
  cfg_signature : option string;
  cfg_include_osip : bool;
  cfg_osip_major : Z;
  cfg_osip_minor : Z;
  cfg_osip_num_pointers : Z;
  cfg_partition_secs : list cfg_partition;
  cfg_osii_secs : list cfg_osii
}.

Definition ULONG_MAX : Z := 2 ^ 64 - 1.   (* LP64 *)
Definition UINT32_MAX : Z := 2 ^ 32 - 1.
Definition INT32_MAX : Z := 2 ^ 31 - 1.

Definition isspace (c : ascii) : bool :=
  let n := nat_of_ascii c in
  bool_decide (n = 32 \/ 9 <= n <= 13)%nat.

(** The value of a character as a digit: 0-9, then letters from 10. *)
Definition digit_value (c : ascii) : option Z :=
  let n := Z.of_nat (nat_of_ascii c) in
  if decide (48 <= n <= 57) then Some (n - 48)
  else if decide (97 <= n <= 122) then Some (n - 97 + 10)
  else if decide (65 <= n <= 90) then Some (n - 65 + 10)
  else None.

Definition digit_in (base : Z) (c : ascii) : option Z :=
  match digit_value c with
  | Some d => if decide (d < base) then Some d else None
  | None => None
  end.

Fixpoint skip_spaces (s : string) : string :=
  match s with
  | String c s' => if isspace c then skip_spaces s' else s
  | EmptyString => s
  end.

(** The longest run of digits of [base] at the head of [s]: its value,
    whether there was a digit at all, and what follows. *)
Fixpoint scan_digits (base : Z) (s : string) (acc : Z) (any : bool)
  : Z * bool * string :=
  match s with
  | String c s' =>
      match digit_in base c with
      | Some d => scan_digits base s' (acc * base + d) true
      | None => (acc, any, s)
      end
  | EmptyString => (acc, any, s)
  end.

(** [strtoul(nptr, &endptr, 0)] of the C library: the value and the text
    at [endptr]. White space, then an optional sign, then a [0x] prefix
    for base 16 or a leading [0] for base 8, base 10 otherwise; no digit
    gives 0 with [endptr = nptr]; a value above [ULONG_MAX] gives
    [ULONG_MAX]; a minus sign negates in [unsigned long]. *)
Definition strtoul (nptr : string) : Z * string :=
  let s := skip_spaces nptr in
  let '(negative, s) :=
    match s with
    | String "-"%char s' => (true, s')
    | String "+"%char s' => (false, s')
    | _ => (false, s)
    end in
  let '(base, s) :=
    match s with
    | String "0"%char (String x (String h rest)) =>
        if bool_decide (x = "x"%char \/ x = "X"%char) then
          match digit_in 16 h with
          | Some _ => (16, String h rest)
          | None => (8, s)
          end
        else (8, s)
    | String "0"%char _ => (8, s)
    | _ => (10, s)
    end in
  match scan_digits base s 0 false with
  | (_, false, _) => (0, nptr)
  | (acc, true, rest) =>
      if decide (acc > ULONG_MAX) then (ULONG_MAX, rest)
      else if negative then ((- acc) mod 2 ^ 64, rest)
      else (acc, rest)
  end.

(** ** mbr_cfg_to_partitions *)

Definition set_partition_type (p : mbr_partition) (v : Z) : mbr_partition :=
  {| boot_flag := boot_flag p; expand_flag := expand_flag p;
     partition_type := v; block_offset := block_offset p;
     block_count := block_count p |}.

Definition set_block_offset (p : mbr_partition) (v : Z) : mbr_partition :=
  {| boot_flag := boot_flag p; expand_flag := expand_flag p;
     partition_type := partition_type p; block_offset := v;
     block_count := block_count p |}.

Definition set_block_count (p : mbr_partition) (v : Z) : mbr_partition :=
  {| boot_flag := boot_flag p; expand_flag := expand_flag p;
     partition_type := partition_type p; block_offset := block_offset p;
     block_count := v |}.

Definition set_flags (p : mbr_partition) (boot expand : bool) : mbr_partition :=
  {| boot_flag := boot; expand_flag := expand;
     partition_type := partition_type p; block_offset := block_offset p;
     block_count := block_count p |}.

(** One turn of the [while] loop over the [partition] sections; the state
    is the array and the mask [found].

    [(block_offset == ULONG_MAX && errno != 0) || block_offset >= UINT32_MAX]
    is written as its second test: the first implies it whatever [errno]
    holds. *)
Definition cfg_to_partition (partition : cfg_partition)
    (st : mbr_table * Z) : res (mbr_table * Z) :=
  let '(partitions, found) := st in
  let partition_ix := to_int (strtoul (partition_title partition)).1 in
  if decide (partition_ix < 0 \/ partition_ix >= 4) then Err PartitionNumber
  else if decide (Z.land found (Z.shiftl 1 partition_ix) <> 0)
  then Err (DuplicatePartition partition_ix)
  else
    let found := Z.lor found (Z.shiftl 1 partition_ix) in
    let ix := Z.to_nat partition_ix in
    let unverified_type := to_int (cfg_type partition) in
    if decide (unverified_type < 0 \/ unverified_type > 255)
    then Err (PartitionTypeRange partition_ix)
    else
      let partitions :=
        alter (fun p => set_partition_type p unverified_type) ix partitions in
      match cfg_block_offset partition with
      | None => Err (BlockOffsetRequired partition_ix)
      | Some EmptyString => Err (BlockOffsetRequired partition_ix)
      | Some unverified_block_offset =>
          let '(block_offset, endptr) := strtoul unverified_block_offset in
          if decide (block_offset >= UINT32_MAX)
          then Err (BlockOffsetRange partition_ix unverified_block_offset)
          else if decide (endptr <> EmptyString)
          then Err (BlockOffsetParse partition_ix)
          else
            let partitions :=
              alter (fun p => set_block_offset p (wrap32 block_offset))
                ix partitions in
            let partitions :=
              alter (fun p => set_block_count p
                                (wrap32 (cfg_block_count partition)))
                ix partitions in
            if decide (block_count (partitions !!! ix) >= INT32_MAX)
            then Err (BlockCountRange partition_ix)
            else
              let partitions :=
                alter (fun p => set_flags p (cfg_boot partition)
                                  (cfg_expand partition)) ix partitions in
              Ok (partitions, found)
      end.

Fixpoint while_secs {C St : Type} (body : C -> St -> res St)
    (secs : list C) (s : St) : res St :=
  match secs with
  | [] => Ok s
  | c :: secs' => s' <- body c s; while_secs body secs' s'
  end.

(** The table and the mask [found] ([*found_partitions]). *)
Definition mbr_cfg_to_partitions (cfg : cfg_t) : res (mbr_table * Z) :=
  while_secs cfg_to_partition (cfg_partition_secs cfg) (zero_table, 0).

(** ** mbr_cfg_to_osip *)

Definition set_descriptor (osip : osip_header) (ix : nat) (d : osii)
  : osip_header :=
  {| include_osip := include_osip osip; minor := minor osip;
     major := major osip; num_pointers := num_pointers osip;
     num_images := num_images osip;
     descriptors := <[ix := d]> (descriptors osip) |}.

Definition set_num_images (osip : osip_header) (n : Z) : osip_header :=
  {| include_osip := include_osip osip; minor := minor osip;
     major := major osip; num_pointers := num_pointers osip;
     num_images := n; descriptors := descriptors osip |}.

(** One turn of the loop over the [osii] sections; the state is the
    header, the mask [found] and [largest_osii_ix]. *)
Definition cfg_to_osii (sec : cfg_osii) (st : osip_header * Z * Z)
  : res (osip_header * Z * Z) :=
  let '(osip, found, largest_osii_ix) := st in
  let osii_ix := to_int (strtoul (osii_title sec)).1 in
  if decide (osii_ix < 0 \/ osii_ix >= 15) then Err OsiiNumber
  else if decide (Z.land found (Z.shiftl 1 osii_ix) <> 0)
  then Err DuplicateOsii
  else
    let found := Z.lor found (Z.shiftl 1 osii_ix) in
    let largest_osii_ix :=
      if decide (osii_ix > largest_osii_ix) then osii_ix
      else largest_osii_ix in
    let osip :=
      set_descriptor osip (Z.to_nat osii_ix)
        {| os_minor := wrap16 (cfg_os_minor sec);
           os_major := wrap16 (cfg_os_major sec);
           start_block_offset := wrap32 (cfg_start_block_offset sec);
           ddr_load_address := wrap32 (cfg_ddr_load_address sec);
           entry_point := wrap32 (cfg_entry_point sec);
           image_size := wrap32 (cfg_image_size_blocks sec);
           attribute := wrap8 (cfg_attribute sec) |} in
    Ok (osip, found, largest_osii_ix).

Definition mbr_cfg_to_osip (cfg : cfg_t) : res osip_header :=
  let osip := zero_osip in   (* memset(osip, 0, sizeof(struct osip_header)) *)
  if negb (cfg_include_osip cfg) then Ok osip
  else
    let osip :=
      {| include_osip := true;
         minor := wrap8 (cfg_osip_minor cfg);
         major := wrap8 (cfg_osip_major cfg);
         num_pointers := wrap8 (cfg_osip_num_pointers cfg);
         num_images := 0;
         descriptors := descriptors osip |} in
    st <- while_secs cfg_to_osii (cfg_osii_secs cfg) (osip, 0, -1);
    let '(osip, _, largest_osii_ix) := st in
    let osip := set_num_images osip (wrap8 (largest_osii_ix + 1)) in
    if decide (num_images osip = 0) then Err NoOsii
    else Ok osip.

(** ** mbr_verify_cfg and mbr_create_cfg *)

Definition mbr_verify_cfg (cfg : cfg_t) : res unit :=
  let bootstrap_hex := cfg_bootstrap_code cfg in
  if match bootstrap_hex with
     | Some s => bool_decide (String.length s <> (440 * 2)%nat)
     | None => false
     end
  then Err BootstrapSize
  else
    osip <- mbr_cfg_to_osip cfg;
    if decide (include_osip osip = true /\ is_Some bootstrap_hex)
    then Err OsipWithBootstrap
    else
      st <- mbr_cfg_to_partitions cfg;
      let '(table, found_partitions) := st in
      if decide (found_partitions = 0) then Err EmptyPartitionTable
      else mbr_verify table.

(** Modelled from the spec: [hex_to_bytes] of util.c, with its helpers
    [hexchar_to_int] and the loop [hex_pairs], is not part of the sources
    at hand; the spec has [bootstrap-code] decode from hex to exactly 440
    bytes, two hex characters to the byte. *)
Definition hexchar_to_int (c : ascii) : option Z := digit_in 16 c.

Fixpoint hex_pairs (s : string) : res (list Z) :=
  match s with
  | EmptyString => Ok []
  | String a (String b s') =>
      match hexchar_to_int a, hexchar_to_int b with
      | Some sixteens, Some ones =>
          rest <- hex_pairs s'; Ok (wrap8 (sixteens * 16 + ones) :: rest)
      | _, _ => Err BadHex
      end
  | String _ EmptyString => Err BadHex
  end.

Definition hex_to_bytes (str : string) (numbytes : nat) : res (list Z) :=
  if decide (String.length str <> (numbytes * 2)%nat) then Err BadHex
  else hex_pairs str.

Definition mbr_create_cfg (cfg : cfg_t) (num_blocks : Z) (output : list Z)
  : res unit * list Z :=
  match mbr_cfg_to_partitions cfg with
  | Err e => (Err e, output)
  | Ok (partitions, _) =>
      match mbr_cfg_to_osip cfg with
      | Err e => (Err e, output)
      | Ok osip =>
          let bootstrap := replicate 440 0 in
          let bootstrap_hex := cfg_bootstrap_code cfg in
          match (match bootstrap_hex with
                 | Some hex => hex_to_bytes hex 440
                 | None => Ok bootstrap
                 end) with
          | Err e => (Err e, output)
          | Ok bootstrap =>
              let raw_signature := cfg_signature cfg in
              let signature :=
                match raw_signature with
                | None => 0
                | Some raw => wrap32 (strtoul raw).1
                end in
              mbr_create partitions
                (match bootstrap_hex with
                 | Some _ => Some bootstrap
                 | None => None
                 end)
                osip signature num_blocks output
          end
      end
  end.

(** ** fwup_sign (src/fwup_sign.c)

    The archive library is outside the repository. An archive is the list
    of its entries in stored order; the file system maps a path to the
    archive stored there. *)

Inductive filetype : Type := AE_IFREG | AE_IFDIR | AE_IFLNK.

Record archive_entry : Type := {
  pathname : string;
  size_is_set : bool;
  size : Z;
  entry_filetype : filetype;
  perm : Z;
  data : list Z
}.

(** The permission bits 0644 (octal). *)
Definition mode_0644 : Z := 6 * 64 + 4 * 8 + 4.

(** [archive_entry_size]: 0 when the size is not set. *)
Definition archive_entry_size (ae : archive_entry) : Z :=
  if size_is_set ae then size ae else 0.

(** What the environment may refuse: each field says whether the call
    fails. *)
Record io_faults : Type := {
  zip_setup_fails : bool;
  malloc_fails : bool;
  write_open_fails : string -> bool;
  add_meta_conf_fails : list Z -> bool;
  write_header_fails : archive_entry -> bool;
  write_data_fails : string -> list Z -> bool;
  rename_fails : string -> string -> bool
}.

Section resign.
(** The signing primitive: the text and the key give the signature. *)
Variable crypto_sign : list Z -> list Z -> list Z.
Variable faults : io_faults.

(** Modelled from the spec: [archive_read_all_data] is not part of the
    sources at hand; the spec has the [meta.conf] entry captured into
    memory, bounded by [max_size]. The text and its length. *)
Definition archive_read_all_data (ae : archive_entry) (max_size : Z)
  : res (list Z * Z) :=
  if decide (Z.of_nat (length (data ae)) > max_size) then Err MetaConfRead
  else Ok (data ae, Z.of_nat (length (data ae))).

(** Modelled from the spec: [fwfile_add_meta_conf_str] of fwfile.c is not
    part of the sources at hand; the spec has it append a normalized
    [meta.conf] entry and then a new [meta.conf.ed25519] signature entry
    to the output. *)
Definition fwfile_add_meta_conf_str (configtxt : list Z) (configtxt_len : Z)
    (out : list archive_entry) (signing_key : list Z)
  : res (list archive_entry) :=
  if add_meta_conf_fails faults configtxt then Err MetaConfAdd
  else
    let signature := crypto_sign configtxt signing_key in
    Ok (out ++
        [ {| pathname := "meta.conf"; size_is_set := true;
             size := configtxt_len; entry_filetype := AE_IFREG;
             perm := mode_0644; data := configtxt |};
          {| pathname := "meta.conf.ed25519"; size_is_set := true;
             size := Z.of_nat (length signature);
             entry_filetype := AE_IFREG; perm := mode_0644;
             data := signature |} ]).

(** The copy loop [while (size_left > 0)]: [rest] is what is left of the
    entry's data to read, [written] what went to the output so far.
    Every turn moves at least one byte, so [fuel] turns are enough when
    [fuel] is at least [size_left]. *)
Fixpoint copy_data (fuel : nat) (path : string) (size_left : Z)
    (rest written : list Z) : res (list Z) :=
  if decide (size_left > 0) then
    match fuel with
    | O => Ok written
    | S fuel' =>
        let to_read := 4096 in   (* sizeof(buffer) *)
        let to_read := if decide (to_read > size_left) then size_left
                       else to_read in
        let buffer := take (Z.to_nat to_read) rest in
        let len := Z.of_nat (length buffer) in
        if decide (len <= 0) then Err (ReadData path)
        else if write_data_fails faults path buffer then Err (WriteData path)
        else copy_data fuel' path (size_left - len)
               (drop (Z.to_nat to_read) rest) (written ++ buffer)
    end
  else Ok written.

(** One turn of the loop over the input entries; the state is
    [configtxt] ([None] for NULL) and the entries written so far. *)
Definition sign_entry (signing_key : list Z) (in_ae : archive_entry)
    (st : option (list Z) * list archive_entry)
  : res (option (list Z) * list archive_entry) :=
  let '(configtxt, out) := st in
  if decide (pathname in_ae = "meta.conf.ed25519") then Ok st
  else if decide (pathname in_ae = "meta.conf") then
    match configtxt with
    | Some _ => Err MoreThanOneMetaConf
    | None =>
        match archive_read_all_data in_ae 50000 with
        | Err _ => Err MetaConfRead
        | Ok (text, configtxt_len) =>
            if decide (configtxt_len < 10 \/ configtxt_len >= 50000)
            then Err (MetaConfSize configtxt_len)
            else
              out <- fwfile_add_meta_conf_str text configtxt_len out
                       signing_key;
              Ok (Some text, out)
        end
    end
  else
    if negb (bool_decide (is_Some configtxt)) then Err MetaConfNotFirst
    else
      let out_ae :=
        {| pathname := pathname in_ae;
           size_is_set := size_is_set in_ae;
           size := archive_entry_size in_ae;
           entry_filetype := AE_IFREG;
           perm := mode_0644;
           data := [] |} in
      if write_header_fails faults out_ae
      then Err (WriteHeader (pathname out_ae))
      else
        let size_left := archive_entry_size in_ae in
        written <- copy_data (Z.to_nat size_left) (pathname in_ae)
                     size_left (data in_ae) [];
        Ok (configtxt,
            out ++ [ {| pathname := pathname out_ae;
                        size_is_set := size_is_set out_ae;
                        size := size out_ae;
                        entry_filetype := entry_filetype out_ae;
                        perm := perm out_ae;
                        data := written |} ]).

(** What follows the opening of the input: the result and the archive
    to be renamed to the output on success. *)
Definition sign_entries (signing_key : list Z) (entries : list archive_entry)
  : res (list archive_entry) :=
  st <- while_secs (sign_entry signing_key) entries (None, []);
  let '(configtxt, out) := st in
  if negb (bool_decide (is_Some configtxt)) then Err NoMetaConf
  else Ok out.

(** [fwup_sign]: the result and the file system it leaves. A NULL
    argument is [None]. At [cleanup], the temporary file is unlinked
    whenever [temp_filename] is set. (The build for Windows, which
    removes the output before the rename, is not modelled.) *)
Definition fwup_sign (fs : gmap string (list archive_entry))
    (input_filename output_filename : option string)
    (signing_key : option (list Z))
  : res unit * gmap string (list archive_entry) :=
  if zip_setup_fails faults then (Err ArchiveConfig, fs)
  else
    match input_filename, output_filename, signing_key with
    | None, _, _ => (Err NoInputFile, fs)
    | Some _, None, _ => (Err NoOutputFile, fs)
    | Some _, Some _, None => (Err NoSigningKey, fs)
    | Some input_filename, Some output_filename, Some signing_key =>
        if malloc_fails faults then (Err OutOfMemory, fs)
        else
          let temp_filename := input_filename +:+ ".tmp" in
          match fs !! input_filename with
          | None => (Err ArchiveOpen, delete temp_filename fs)
          | Some entries =>
              if write_open_fails faults temp_filename
              then (Err (ArchiveCreate temp_filename),
                    delete temp_filename fs)
              else
                match sign_entries signing_key entries with
                | Err e => (Err e, delete temp_filename fs)
                | Ok out =>
                    let fs := <[temp_filename := out]> fs in
                    if rename_fails faults temp_filename output_filename
                    then (Err (RenameFailed output_filename),
                          delete temp_filename fs)
                    else
                      (Ok tt,
                       <[output_filename := out]> (delete temp_filename fs))
                end
          end
    end.
End resign.

(** * Specification

    The notions the statements below are written in. *)

(** ** Partition tables *)

(** A slot that [mbr_verify] does not skip: used, and of nonzero extent
    unless it is to expand. *)
Definition active (p : mbr_partition) : Prop :=
  partition_type p <> 0 /\ (block_count p <> 0 \/ expand_flag p = true).

(** The half-open block range [[block_offset, block_offset + block_count)]. *)
Definition in_range (p : mbr_partition) (b : Z) : Prop :=
  block_offset p <= b < block_offset p + block_count p.

Definition ranges_intersect (p q : mbr_partition) : Prop :=
  exists b, in_range p b /\ in_range q b.

(** The range ends within the 32-bit block address space. *)
Definition no_wrap (p : mbr_partition) : Prop :=
  block_offset p + block_count p < 2 ^ 32.


(** ** The record *)

(** The cells of an entry at [a] that do not depend on the CHS form. *)
Definition entry_fields (p : mbr_partition) (num_blocks : Z) (out : list Z)
    (a : nat) : Prop :=
  out !!! a =
    (if decide (partition_type p > 0)
     then (if boot_flag p then 0x80 else 0) else 0) /\
  out !!! (a + 4)%nat =
    (if decide (partition_type p > 0) then wrap8 (partition_type p) else 0) /\
  (forall m, (m < 4)%nat ->
     out !!! (a + 8 + m)%nat = le32 (block_offset p) !!! m) /\
  (forall m, (m < 4)%nat ->
     out !!! (a + 12 + m)%nat = le32 (effective_block_count p num_blocks) !!! m).

(** The CHS bytes in the words of the specification: 63 sectors to the
    head, 255 heads to the cylinder, packed as
    [[head, ((cyl>>8)&0x3)<<6 | sector, cyl&0xFF]]. *)
Definition chs_of (lba : Z) : list Z :=
  let cyl := lba / (63 * 255) in
  let head := (lba / 63) mod 255 in
  let sector := lba mod 63 + 1 in
  [head; Z.lor (Z.shiftl (Z.land (Z.shiftr cyl 8) 0x3) 6) sector;
   Z.land cyl 0xFF].

(** XOR of all the bytes of a buffer. *)
Definition xor_fold (l : list Z) : Z := fold_left Z.lxor l 0.

(** ** The osii sections *)

(** The index a section title stands for, as the projector reads it. *)
Definition osii_index (sec : cfg_osii) : Z :=
  to_int (strtoul (osii_title sec)).1.

Definition osii_indices (cfg : cfg_t) : list Z :=
  map osii_index (cfg_osii_secs cfg).

Definition index_in_range (ix : Z) : Prop := 0 <= ix <= 14.

(** The highest of a list of indices, -1 for none. *)
Definition max_index (l : list Z) : Z := foldr Z.max (-1) l.

(** [found] has exactly the bits of [seen] set. *)
Definition mask_of (found : Z) (seen : list Z) : Prop :=
  forall k, 0 <= k -> Z.testbit found k = true <-> k ∈ seen.

(** ** Archives *)

(** An entry that comes before any [meta.conf] and is not a signature. *)
Definition entry_before_meta_conf (entries : list archive_entry) : Prop :=
  exists pre e post,
    entries = pre ++ e :: post /\
    Forall (fun x => pathname x <> "meta.conf") pre /\
    pathname e <> "meta.conf" /\ pathname e <> "meta.conf.ed25519".

(** The invariant of the loop over the input entries: nothing is written
    before [meta.conf] is seen, and from then on the first entry written
    is [meta.conf] with the text captured from the input. *)
Definition sign_state_ok (entries : list archive_entry)
    (st : option (list Z) * list archive_entry) : Prop :=
  match st.1 with
  | None => st.2 = []
  | Some text =>
      exists first rest,
        st.2 = first :: rest /\ pathname first = "meta.conf" /\
        data first = text /\
        exists e, e ∈ entries /\ pathname e = "meta.conf" /\ data e = text
  end.

(** * Examples *)

(** ** Tables and buffers *)

Definition zero_buffer : list Z := replicate 512 0.
Definition ones_buffer : list Z := replicate 512 0xff.

(** Slot 0 on blocks 1..100, slot 1 right behind it. *)
Definition adjacent_table : mbr_table :=
  [ {| boot_flag := false; expand_flag := false; partition_type := 0x83;
       block_offset := 1; block_count := 100 |};
    {| boot_flag := false; expand_flag := false; partition_type := 0x0c;
       block_offset := 101; block_count := 50 |};
    zero_partition; zero_partition ].

(** The same with slot 1 moved to block 50. *)
Definition overlapping_table : mbr_table :=
  [ {| boot_flag := false; expand_flag := false; partition_type := 0x83;
       block_offset := 1; block_count := 100 |};
    {| boot_flag := false; expand_flag := false; partition_type := 0x0c;
       block_offset := 50; block_count := 50 |};
    zero_partition; zero_partition ].

(** An expanding slot followed by another slot. *)
Definition expand_first_table : mbr_table :=
  [ {| boot_flag := false; expand_flag := true; partition_type := 0x83;
       block_offset := 0; block_count := 10 |};
    {| boot_flag := false; expand_flag := false; partition_type := 0x83;
       block_offset := 10; block_count := 10 |};
    zero_partition; zero_partition ].

(** A single expanding slot, blocks 100..149 as declared. *)
Definition expanding_table : mbr_table :=
  [ {| boot_flag := false; expand_flag := true; partition_type := 0x83;
       block_offset := 100; block_count := 50 |};
    zero_partition; zero_partition; zero_partition ].

(** A slot beyond the reach of CHS addresses. *)
Definition far_table : mbr_table :=
  [ {| boot_flag := false; expand_flag := false; partition_type := 0x83;
       block_offset := 20000000; block_count := 1000 |};
    zero_partition; zero_partition; zero_partition ].

(** An unused slot with the boot flag set. *)
Definition boot_unused_table : mbr_table :=
  [ {| boot_flag := true; expand_flag := false; partition_type := 0;
       block_offset := 0; block_count := 0 |};
    zero_partition; zero_partition; zero_partition ].

(** Two tables on which the 32-bit arithmetic of [mbr_verify] shows: a
    range that runs past block 2^32 and contains the next one, and an
    expanding slot of no declared length right behind another slot. *)
Definition wrapping_table : mbr_table :=
  [ {| boot_flag := false; expand_flag := false; partition_type := 0x83;
       block_offset := 2147483658; block_count := 2147483646 |};
    {| boot_flag := false; expand_flag := false; partition_type := 0x0c;
       block_offset := 2147483700; block_count := 10 |};
    zero_partition; zero_partition ].

Definition expand_empty_table : mbr_table :=
  [ {| boot_flag := false; expand_flag := false; partition_type := 0x83;
       block_offset := 0; block_count := 100 |};
    {| boot_flag := false; expand_flag := true; partition_type := 0x0c;
       block_offset := 100; block_count := 0 |};
    zero_partition; zero_partition ].

(** ** Configurations *)

Definition osii_section (title : string) : cfg_osii :=
  {| osii_title := title; cfg_os_major := 1; cfg_os_minor := 2;
     cfg_start_block_offset := 3; cfg_ddr_load_address := 4;
     cfg_entry_point := 5; cfg_image_size_blocks := 6; cfg_attribute := 7 |}.

(** A configuration without partition sections. *)
Definition osip_cfg (include : bool) (secs : list cfg_osii) : cfg_t :=
  {| cfg_bootstrap_code := None; cfg_signature := None;
     cfg_include_osip := include; cfg_osip_major := 1; cfg_osip_minor := 0;
     cfg_osip_num_pointers := 1; cfg_partition_secs := [];
     cfg_osii_secs := secs |}.

(** The header projected from two osii sections, "3" and "1". *)
Definition two_images_osip : osip_header :=
  match mbr_cfg_to_osip (osip_cfg true [osii_section "3"; osii_section "1"]) with
  | Ok osip => osip
  | Err _ => zero_osip
  end.

(** ** Archives *)

Definition file_entry (path : string) (content : list Z) : archive_entry :=
  {| pathname := path; size_is_set := true;
     size := Z.of_nat (length content); entry_filetype := AE_IFREG;
     perm := 493; data := content |}.

(** The text "network = 1" and a line feed. *)
Definition conf_text : list Z :=
  [110; 101; 116; 119; 111; 114; 107; 32; 61; 32; 49; 10].

Definition good_archive : list archive_entry :=
  [ file_entry "meta.conf.ed25519" [9; 9];
    file_entry "meta.conf" conf_text;
    file_entry "data/rootfs.img" [1; 2; 3; 4; 5] ].

Definition misordered_archive : list archive_entry :=
  [ file_entry "data/rootfs.img" [1; 2; 3; 4; 5];
    file_entry "meta.conf" conf_text ].

Definition no_faults : io_faults :=
  {| zip_setup_fails := false; malloc_fails := false;
     write_open_fails := fun _ => false;
     add_meta_conf_fails := fun _ => false;
     write_header_fails := fun _ => false;
     write_data_fails := fun _ _ => false;
     rename_fails := fun _ _ => false |}.

(** A stand-in for the signing primitive. *)
Definition toy_sign (text key : list Z) : list Z := [xor_fold (text ++ key)].

Definition good_fs : gmap string (list archive_entry) :=
  {["fw.fw" := good_archive]}.

Definition misordered_fs : gmap string (list archive_entry) :=
  {["fw.fw" := misordered_archive]}.

(** The file system after re-signing the archive of [good_fs]. *)
Definition signed_fs : gmap string (list archive_entry) :=
  (fwup_sign toy_sign no_faults good_fs (Some "fw.fw") (Some "signed.fw")
     (Some [1; 2; 3])).2.

(** * Further notions *)

(** Two partitions that [mbr_verify] cannot tell apart: the same type,
    and for a used slot the same range and [expand_flag]. *)
Definition same_layout (p q : mbr_partition) : Prop :=
  partition_type p = partition_type q /\
  (partition_type p <> 0 ->
   block_offset p = block_offset q /\ block_count p = block_count q /\
   expand_flag p = expand_flag q).

(** A table with a boot flag and data in an unused slot, and the same
    table without them. *)
Definition decorated_table : mbr_table :=
  [ {| boot_flag := true; expand_flag := false; partition_type := 0x83;
       block_offset := 1; block_count := 100 |};
    {| boot_flag := false; expand_flag := true; partition_type := 0;
       block_offset := 50; block_count := 4000000000 |};
    zero_partition; zero_partition ].

Definition plain_table : mbr_table :=
  [ {| boot_flag := false; expand_flag := false; partition_type := 0x83;
       block_offset := 1; block_count := 100 |};
    zero_partition; zero_partition; zero_partition ].

(** ** The OSIP header on disk *)

(** The two bytes of a 16-bit value, least significant first. *)
Definition le16 (v : Z) : list Z := [v mod 256; v / 2 ^ 8 mod 256].

(** The 24 bytes of an image descriptor. *)
Definition osii_bytes (d : osii) : list Z :=
  le16 (os_minor d) ++ le16 (os_major d) ++
  le32 (start_block_offset d) ++ le32 (ddr_load_address d) ++
  le32 (entry_point d) ++ le32 (image_size d) ++
  [attribute d mod 256; 0; 0; 0].

(** The first 32 bytes of the header, with 0 where the checksum goes. *)
Definition osip_fixed_bytes (osip : osip_header) : list Z :=
  [36; 79; 83; 36; 0; minor osip mod 256; major osip mod 256; 0;
   num_pointers osip mod 256; num_images osip mod 256] ++
  le16 (32 + 24 * num_images osip) ++ replicate 20 0.

(** A header with two images. *)
Definition two_images_header : osip_header :=
  {| include_osip := true; minor := 0; major := 1; num_pointers := 1;
     num_images := 2;
     descriptors :=
       <[1%nat := {| os_minor := 2; os_major := 1; start_block_offset := 2048;
                     ddr_load_address := 0x1100000; entry_point := 0x1101000;
                     image_size := 9000; attribute := 1 |}]>
         (replicate 16 zero_osii) |}.

(** ** Bootstrap code used as an example: 440 bytes, 0, 1, 2, ... *)
Definition counting_code : list Z :=
  map (fun k => Z.of_nat k mod 256) (seq 0 440).

(** ** Records

    Two records agree where [mbr_decode] looks: the trailer, and of each
    entry bit 7 of the first byte, the type byte and the two 32-bit
    fields. *)
Definition same_entries (a b : list Z) : Prop :=
  a !!! 510%nat = b !!! 510%nat /\ a !!! 511%nat = b !!! 511%nat /\
  forall i, (i < MBR_MAX_PRIMARY_PARTITIONS)%nat ->
    Z.testbit (a !!! (446 + i * 16)%nat) 7
      = Z.testbit (b !!! (446 + i * 16)%nat) 7 /\
    a !!! (446 + i * 16 + 4)%nat = b !!! (446 + i * 16 + 4)%nat /\
    forall m, (8 <= m < 16)%nat ->
      a !!! (446 + i * 16 + m)%nat = b !!! (446 + i * 16 + m)%nat.

(** The value of four bytes read as a little-endian number. *)
Definition le32_value (l : list Z) (a : nat) : Z :=
  l !!! a + 2 ^ 8 * l !!! (a + 1)%nat + 2 ^ 16 * l !!! (a + 2)%nat
  + 2 ^ 24 * l !!! (a + 3)%nat.

(** Two records of [far_table], made over different buffers, with and
    without bootstrap code and with different signatures. *)
Definition far_record_plain : list Z :=
  (mbr_create far_table None zero_osip 1 0 zero_buffer).2.

Definition far_record_code : list Z :=
  store8 (mbr_create far_table (Some counting_code) zero_osip 2 0
            ones_buffer).2 446 0x7f.

(** The record of [adjacent_table] with the offset of entry 1 changed
    to block 50. *)
Definition overlapping_record : list Z :=
  store8 (mbr_create adjacent_table None zero_osip 0 0 zero_buffer).2 470 50.

(** ** The partition sections *)

(** The slot a section title stands for, as the projector reads it. *)
Definition partition_index (sec : cfg_partition) : Z :=
  to_int (strtoul (partition_title sec)).1.

(** A section that passes the checks of [mbr_cfg_to_partitions]. *)
Definition section_ok (sec : cfg_partition) : Prop :=
  0 <= partition_index sec < 4 /\
  0 <= to_int (cfg_type sec) <= 255 /\
  (exists text, cfg_block_offset sec = Some text /\ text <> EmptyString /\
     (strtoul text).1 < UINT32_MAX /\ (strtoul text).2 = EmptyString) /\
  wrap32 (cfg_block_count sec) < INT32_MAX.

(** The slot holds what the section says. *)
Definition slot_holds (sec : cfg_partition) (p : mbr_partition) : Prop :=
  partition_type p = to_int (cfg_type sec) /\
  (exists text, cfg_block_offset sec = Some text /\
                block_offset p = (strtoul text).1) /\
  block_count p = wrap32 (cfg_block_count sec) /\
  boot_flag p = cfg_boot sec /\ expand_flag p = cfg_expand sec.

Definition partition_section (title : string) (type : Z) (offset : string)
    (count : Z) : cfg_partition :=
  {| partition_title := title; cfg_type := type;
     cfg_block_offset := Some offset; cfg_block_count := count;
     cfg_boot := false; cfg_expand := false |}.

(** Slot 1 on blocks 2048..4095 (the offset in hexadecimal), slot 0 on
    blocks 63..2047. *)
Definition two_partitions_cfg : cfg_t :=
  {| cfg_bootstrap_code := None; cfg_signature := Some "0x01020304"%string;
     cfg_include_osip := false; cfg_osip_major := 0; cfg_osip_minor := 0;
     cfg_osip_num_pointers := 0;
     cfg_partition_secs :=
       [ partition_section "1" 0x83 "0x800" 2048;
         partition_section "0" 0x0c "63" 1985 ];
     cfg_osii_secs := [] |}.

(** ** The osii sections *)

(** The descriptor a section stands for, each value in the width of its
    field. *)
Definition osii_of_section (sec : cfg_osii) : osii :=
  {| os_minor := wrap16 (cfg_os_minor sec);
     os_major := wrap16 (cfg_os_major sec);
     start_block_offset := wrap32 (cfg_start_block_offset sec);
     ddr_load_address := wrap32 (cfg_ddr_load_address sec);
     entry_point := wrap32 (cfg_entry_point sec);
     image_size := wrap32 (cfg_image_size_blocks sec);
     attribute := wrap8 (cfg_attribute sec) |}.

(** ** Whole configurations *)

(** The signature [mbr_create_cfg] passes on. *)
Definition signature_of (cfg : cfg_t) : Z :=
  match cfg_signature cfg with
  | None => 0
  | Some raw => wrap32 (strtoul raw).1
  end.

(** The bootstrap code, if there is one, has 880 characters and decodes. *)
Definition bootstrap_decodes (cfg : cfg_t) : Prop :=
  match cfg_bootstrap_code cfg with
  | Some hex =>
      String.length hex = (440 * 2)%nat /\ is_ok (hex_to_bytes hex 440)
  | None => True
  end.

(** [two_partitions_cfg] with slot 0 moved onto slot 1. *)
Definition clashing_cfg : cfg_t :=
  {| cfg_bootstrap_code := None; cfg_signature := None;
     cfg_include_osip := false; cfg_osip_major := 0; cfg_osip_minor := 0;
     cfg_osip_num_pointers := 0;
     cfg_partition_secs :=
       [ partition_section "1" 0x83 "0x800" 2048;
         partition_section "0" 0x0c "3000" 100 ];
     cfg_osii_secs := [] |}.

(** ** The caller's buffer *)

(** The cells of the four entries that hold CHS addresses: offsets 1-3
    and 5-7 of each entry. *)
Definition chs_cell (k : nat) : Prop :=
  (446 <= k < 510)%nat /\
  (1 <= (k - 446) mod 16 <= 3 \/ 5 <= (k - 446) mod 16 <= 7)%nat.

#[export] Instance chs_cell_dec k : Decision (chs_cell k).
Proof. unfold chs_cell. apply _. Defined.

(** A buffer that holds [0xff] in the CHS cells and zero elsewhere. *)
Definition chs_ones_buffer : list Z :=
  map (fun k => if decide (chs_cell k) then 0xff else 0) (seq 0 512).

(** ** Archives *)

(** An entry that [fwup_sign] copies: neither the signature nor
    [meta.conf]. *)
Definition is_payload (e : archive_entry) : Prop :=
  pathname e <> "meta.conf.ed25519"%string /\ pathname e <> "meta.conf"%string.

#[export] Instance is_payload_dec e : Decision (is_payload e).
Proof. unfold is_payload. apply _. Defined.

Definition not_signature (e : archive_entry) : Prop :=
  pathname e <> "meta.conf.ed25519"%string.

#[export] Instance not_signature_dec e : Decision (not_signature e).
Proof. unfold not_signature. apply _. Defined.

(** The entry written for a copied entry: its name and size, a regular
    file of mode 0644, and the first [size] bytes of its data. *)
Definition normalized (e : archive_entry) : archive_entry :=
  {| pathname := pathname e;
     size_is_set := size_is_set e;
     size := archive_entry_size e;
     entry_filetype := AE_IFREG;
     perm := mode_0644;
     data := take (Z.to_nat (archive_entry_size e)) (data e) |}.

(** 5000 bytes, more than one turn of the copy loop takes. *)
Definition long_data : list Z := replicate 5000 7.

(** A file system with a stale temporary file and another file. *)
Definition busy_fs : gmap string (list archive_entry) :=
  <["fw.fw.tmp"%string := misordered_archive]>
    (<["other.fw"%string := misordered_archive]> good_fs).

(** A buffer of varied bytes, [(k*k + 1) mod 251] at offset [k]. *)
Definition mixed_buffer : list Z :=
  map (fun k => (Z.of_nat k * Z.of_nat k + 1) mod 251) (seq 0 512).

(** An unused slot that carries an offset, a count and both flags. *)
Definition spare_partition : mbr_partition :=
  {| boot_flag := true; expand_flag := true; partition_type := 0;
     block_offset := 66051; block_count := 5 |}.

(** A used slot that is to expand. *)
Definition growing_partition : mbr_partition :=
  {| boot_flag := true; expand_flag := true; partition_type := 0x83;
     block_offset := 66051; block_count := 5 |}.

(** Writes fail unless they are of 4096 or of 904 bytes. *)
Definition picky_faults : io_faults :=
  {| zip_setup_fails := false; malloc_fails := false;
     write_open_fails := fun _ => false;
     add_meta_conf_fails := fun _ => false;
     write_header_fails := fun _ => false;
     write_data_fails := fun _ chunk =>
       negb (bool_decide (length chunk = 4096%nat \/ length chunk = 904%nat));
     rename_fails := fun _ _ => false |}.

(** * Proofs *)

(** ** Results and loops *)

Lemma rc_negative {A} (r : res A) : rc r < 0 <-> is_err r.
Proof.
  destruct r as [a|e]; simpl; split.
  - lia.
  - intros [? [=]].
  - by eexists.
  - lia.
Qed.

Section loops.
Context {St : Type}.
Implicit Types (body : nat -> St -> res St) (l : list nat) (s : St).

Lemma for_each_ok_elem body l s s' i :
  for_each body l s = Ok s' -> i ∈ l -> exists s1 s2, body i s1 = Ok s2.
Proof.
  revert s. induction l as [|k l IH]; intros s Hrun Hin.
  - by apply elem_of_nil in Hin.
  - simpl in Hrun. destruct (body k s) as [s1|] eqn:Hk; [|done].
    apply elem_of_cons in Hin as [->|Hin]; eauto.
Qed.

End loops.


(** The states a successful loop over [a, a + n) goes through. *)
Lemma for_each_seq_trace {St : Type} (body : nat -> St -> res St) n a s s' :
  for_each body (seq a n) s = Ok s' ->
  exists st : nat -> St,
    st a = s /\ st (a + n)%nat = s' /\
    forall i, (a <= i < a + n)%nat -> body i (st i) = Ok (st (S i)).
Proof.
  revert a s. induction n as [|n IH]; intros a s Hrun; simpl in Hrun.
  - injection Hrun as <-. exists (fun _ => s).
    split; [done|]. split; [done|]. intros i Hi. lia.
  - destruct (body a s) as [s1|] eqn:Ha; [|done]. simpl in Hrun.
    destruct (IH _ _ Hrun) as (st & H0 & Hn & Hstep).
    exists (fun i => if decide (i <= a)%nat then s else st i).
    split; [by rewrite decide_True by lia|]. split.
    + rewrite decide_False by lia. rewrite <- Hn. f_equal. lia.
    + intros i Hi. destruct (decide (i = a)) as [->|Hne].
      * rewrite decide_True by lia. rewrite decide_False by lia. by rewrite H0.
      * rewrite !decide_False by lia. apply Hstep. lia.
Qed.

(** ** mbr_verify *)

Lemma wrap32_small v : is_u32 v -> wrap32 v = v.
Proof. intros H. apply Z.mod_small. exact H. Qed.

Lemma wrap32_range v : is_u32 (wrap32 v).
Proof. unfold is_u32, wrap32. apply Z.mod_pos_bound. lia. Qed.

Lemma wrap32_sum_eq off cnt :
  is_u32 off -> is_u32 cnt -> (off = wrap32 (off + cnt) <-> cnt = 0).
Proof.
  unfold is_u32, wrap32. intros Ho Hc. split.
  - intros Heq. destruct (decide (off + cnt < 2 ^ 32)) as [Hlt|Hge].
    + rewrite Z.mod_small in Heq by lia. lia.
    + assert (Hm : (off + cnt) mod 2 ^ 32 = off + cnt - 2 ^ 32).
      { symmetry. apply (Z.mod_unique_pos _ _ 1); lia. }
      lia.
  - intros ->. rewrite Z.add_0_r, Z.mod_small; lia.
Qed.

Lemma table_ok_lookup (t : mbr_table) i : table_ok t -> partition_ok (t !!! i).
Proof.
  intros [Hlen Hall]. destruct (decide (i < length t)%nat) as [Hi|Hi].
  - destruct (lookup_lt_is_Some_2 t i Hi) as [p Hp].
    rewrite (list_lookup_total_correct _ _ _ Hp).
    by eapply Forall_lookup_1.
  - rewrite list_lookup_total_alt, lookup_ge_None_2 by lia. simpl.
    unfold partition_ok, is_u32; simpl. lia.
Qed.

Lemma active_lt (t : mbr_table) i :
  table_ok t -> active (t !!! i) -> (i < MBR_MAX_PRIMARY_PARTITIONS)%nat.
Proof.
  intros [Hlen _] [Hty _]. rewrite <- Hlen.
  destruct (decide (i < length t)%nat) as [Hi|Hi]; [done|].
  rewrite list_lookup_total_alt, lookup_ge_None_2 in Hty by lia. done.
Qed.

(** What a successful turn of the outer loop says about an active slot. *)
Lemma verify_slot_ok_active (t : mbr_table) i e e' :
  table_ok t -> active (t !!! i) -> verify_slot t i e = Ok e' ->
  e = false /\ e' = expand_flag (t !!! i) /\
  0 <= partition_type (t !!! i) <= 255 /\
  forall j, (j < MBR_MAX_PRIMARY_PARTITIONS)%nat ->
    verify_pair t i (block_offset (t !!! i))
      (wrap32 (block_offset (t !!! i) + block_count (t !!! i))) j tt = Ok tt.
Proof.
  intros Hok [Hty Hext] Hrun.
  destruct (table_ok_lookup t i Hok) as (_ & Ho & Hc).
  unfold verify_slot in Hrun.
  destruct (decide _) as [|Hrange]; [done|].
  destruct (decide _) as [|_]; [done|].
  destruct (decide _) as [[Heq Hex]|_].
  { apply wrap32_sum_eq in Heq; [|done..]. destruct Hext; congruence. }
  destruct e; [done|].
  destruct (for_each _ _ _) as [[]|] eqn:Hin; [|done].
  simpl in Hrun. injection Hrun as <-.
  split; [done|]. split; [by destruct (expand_flag _)|]. split; [lia|].
  intros j Hj.
  destruct (for_each_ok_elem _ _ _ _ j Hin) as ([] & [] & Hjj); [|done].
  apply elem_of_seq. lia.
Qed.


Lemma mbr_verify_ok_slot (t : mbr_table) i :
  mbr_verify t = Ok tt -> (i < MBR_MAX_PRIMARY_PARTITIONS)%nat ->
  exists e e', verify_slot t i e = Ok e'.
Proof.
  unfold mbr_verify. intros Hrun Hi.
  destruct (for_each _ _ _) as [e|] eqn:Hloop; [|done].
  eapply for_each_ok_elem; [exact Hloop|]. apply elem_of_seq. lia.
Qed.




Ltac slots i :=
  destruct i as [|[|[|[|i]]]]; simpl in *.

Lemma table_ok_intro (t : mbr_table) :
  length t = MBR_MAX_PRIMARY_PARTITIONS -> Forall partition_ok t -> table_ok t.
Proof. by split. Qed.

Ltac table_ok_tac :=
  apply table_ok_intro; [reflexivity|];
  repeat constructor; unfold is_u32; simpl; lia.



(** The comparisons of [mbr_verify] are made on 32-bit sums. A range that
    runs past block 2^32 wraps to a small right end, and the slot lying
    inside it goes unnoticed. *)
Example mbr_verify_wrapped_range :
  ranges_intersect (wrapping_table !!! 0%nat) (wrapping_table !!! 1%nat) /\
  ~ no_wrap (wrapping_table !!! 0%nat) /\
  mbr_verify wrapping_table = Ok tt.
Proof.
  split; [|split; [|reflexivity]].
  - exists 2147483700. unfold in_range; simpl. lia.
  - unfold no_wrap; simpl. lia.
Qed.

(** An expanding slot of declared length 0 is compared as the point where
    it starts, against the closed range of the other slot: placed right
    behind it, it is refused. *)
Example mbr_verify_empty_expanding_slot :
  (forall b, ~ in_range (expand_empty_table !!! 1%nat) b) /\
  mbr_verify expand_empty_table = Err (Overlap 1 100 100 0 0 100).
Proof.
  split; [|reflexivity]. intros b. unfold in_range; simpl. lia.
Qed.

(** Once [expanding] is set, a successful turn leaves it set. *)
Lemma verify_slot_keeps_expanding (t : mbr_table) i e' :
  verify_slot t i true = Ok e' -> e' = true.
Proof.
  unfold verify_slot. repeat case_decide; congruence.
Qed.

Lemma mbr_verify_expand_not_last (t : mbr_table) i k :
  table_ok t -> (i < k)%nat ->
  active (t !!! i) -> expand_flag (t !!! i) = true -> active (t !!! k) ->
  is_err (mbr_verify t).
Proof.
  intros Hok Hik Hi Hex Hk.
  pose proof (active_lt t k Hok Hk) as Hk4.
  destruct (mbr_verify t) as [[]|e] eqn:Hrun; [|by eexists].
  unfold mbr_verify in Hrun.
  destruct (for_each _ _ _) as [e|] eqn:Hloop; [|done].
  destruct (for_each_seq_trace _ _ _ _ _ Hloop) as (st & _ & _ & Hstep).
  assert (Hafter : forall d, (i + 1 + d <= k)%nat -> st (i + 1 + d)%nat = true).
  { induction d as [|d IHd]; intros Hd.
    - destruct (verify_slot_ok_active t i (st i) (st (S i)) Hok Hi)
        as (_ & Hs & _); [apply Hstep; lia|].
      replace (i + 1 + 0)%nat with (S i) by lia. congruence.
    - pose proof (Hstep (i + 1 + d)%nat) as Hs. rewrite IHd in Hs by lia.
      replace (i + 1 + S d)%nat with (S (i + 1 + d)) by lia.
      eapply verify_slot_keeps_expanding. apply Hs. lia. }
  specialize (Hafter (k - i - 1)%nat).
  replace (i + 1 + (k - i - 1))%nat with k in Hafter by lia.
  destruct (verify_slot_ok_active t k (st k) (st (S k)) Hok Hk)
    as (Hfalse & _); [apply Hstep; lia|].
  rewrite Hafter in Hfalse by lia. done.
Qed.

(** ** Buffers *)

Lemma wrap8_range v : is_byte (wrap8 v).
Proof. unfold is_byte, wrap8. apply (Z.mod_pos_bound v (2 ^ 8)). lia. Qed.

Lemma wrap8_small v : is_byte v -> wrap8 v = v.
Proof. intros H. apply Z.mod_small. exact H. Qed.

Lemma length_store8 l i v : length (store8 l i v) = length l.
Proof. apply length_insert. Qed.

Lemma store8_eq l i v : (i < length l)%nat -> store8 l i v !!! i = wrap8 v.
Proof. apply list_lookup_total_insert_eq. Qed.

Lemma store8_ne l i k v : i <> k -> store8 l i v !!! k = l !!! k.
Proof. apply list_lookup_total_insert_ne. Qed.

Lemma length_memset n l start c : length (memset l start c n) = length l.
Proof.
  revert l start. induction n as [|n IH]; intros l start; simpl; [done|].
  by rewrite IH, length_store8.
Qed.

Lemma memset_outside n l start c k :
  (k < start \/ start + n <= k)%nat -> memset l start c n !!! k = l !!! k.
Proof.
  revert l start. induction n as [|n IH]; intros l start Hk; simpl; [done|].
  rewrite IH by lia. apply store8_ne. lia.
Qed.

Lemma memset_inside n l start c k :
  (start <= k < start + n)%nat -> (k < length l)%nat ->
  memset l start c n !!! k = wrap8 c.
Proof.
  revert l start. induction n as [|n IH]; intros l start Hk Hlen; simpl; [lia|].
  destruct (decide (k = start)) as [->|Hne].
  - rewrite memset_outside by lia. by apply store8_eq.
  - apply IH; [lia|]. by rewrite length_store8.
Qed.

Lemma length_memcpy n l start src from :
  length (memcpy l start src from n) = length l.
Proof.
  revert l start from. induction n as [|n IH]; intros l start from; simpl; [done|].
  by rewrite IH, length_store8.
Qed.

Lemma memcpy_outside n l start src from k :
  (k < start \/ start + n <= k)%nat -> memcpy l start src from n !!! k = l !!! k.
Proof.
  revert l start from. induction n as [|n IH]; intros l start from Hk; simpl; [done|].
  rewrite IH by lia. apply store8_ne. lia.
Qed.

Lemma length_copy_le16 l a v : length (copy_le16 l a v) = length l.
Proof. unfold copy_le16. by rewrite !length_store8. Qed.

Lemma length_copy_le32 l a v : length (copy_le32 l a v) = length l.
Proof. unfold copy_le32. by rewrite !length_store8. Qed.

Lemma copy_le16_outside l a v k :
  (k < a \/ a + 2 <= k)%nat -> copy_le16 l a v !!! k = l !!! k.
Proof. intros Hk. unfold copy_le16. rewrite !store8_ne by lia. done. Qed.

Lemma copy_le32_outside l a v k :
  (k < a \/ a + 4 <= k)%nat -> copy_le32 l a v !!! k = l !!! k.
Proof. intros Hk. unfold copy_le32. rewrite !store8_ne by lia. done. Qed.

Lemma wrap8_shiftr v k : 0 <= k -> wrap8 (Z.shiftr v k) = v / 2 ^ k mod 256.
Proof. intros Hk. unfold wrap8. by rewrite Z.shiftr_div_pow2 by done. Qed.

Lemma copy_le32_inside l a v m :
  (a + 4 <= length l)%nat -> (m < 4)%nat ->
  copy_le32 l a v !!! (a + m)%nat = le32 v !!! m.
Proof.
  intros Hlen Hm. unfold copy_le32, le32.
  rewrite <- !wrap8_shiftr by lia.
  destruct m as [|[|[|[|m]]]]; [| | |  |lia]; simpl.
  - rewrite Nat.add_0_r, !store8_ne by lia. apply store8_eq. lia.
  - rewrite !store8_ne by lia. apply store8_eq. rewrite !length_store8. lia.
  - rewrite !store8_ne by lia. apply store8_eq. rewrite !length_store8. lia.
  - apply store8_eq. rewrite !length_store8. lia.
Qed.

Lemma length_lba_to_chs lba l a : length (lba_to_chs lba l a) = length l.
Proof. unfold lba_to_chs. case_decide; [|done]. by rewrite !length_store8. Qed.

Lemma lba_to_chs_outside lba l a k :
  (k < a \/ a + 3 <= k)%nat -> lba_to_chs lba l a !!! k = l !!! k.
Proof.
  intros Hk. unfold lba_to_chs. case_decide; [|done].
  rewrite !store8_ne by lia. done.
Qed.


(** Writes keep a buffer a buffer of bytes. *)
Lemma Forall_store8 l i v : Forall is_byte l -> Forall is_byte (store8 l i v).
Proof. intros H. apply Forall_insert; [done|apply wrap8_range]. Qed.

Lemma Forall_memset n l start c :
  Forall is_byte l -> Forall is_byte (memset l start c n).
Proof.
  revert l start. induction n as [|n IH]; intros l start H; simpl; [done|].
  apply IH. by apply Forall_store8.
Qed.

Lemma Forall_copy_le16 l a v : Forall is_byte l -> Forall is_byte (copy_le16 l a v).
Proof. intros H. unfold copy_le16. by repeat apply Forall_store8. Qed.

Lemma Forall_copy_le32 l a v : Forall is_byte l -> Forall is_byte (copy_le32 l a v).
Proof. intros H. unfold copy_le32. by repeat apply Forall_store8. Qed.

Lemma is_byte_lookup (l : list Z) k : Forall is_byte l -> is_byte (l !!! k).
Proof.
  intros H. destruct (decide (k < length l)%nat) as [Hk|Hk].
  - destruct (lookup_lt_is_Some_2 l k Hk) as [b Hb].
    rewrite (list_lookup_total_correct _ _ _ Hb). by eapply Forall_lookup_1.
  - rewrite list_lookup_total_alt, lookup_ge_None_2 by lia. simpl.
    unfold is_byte. lia.
Qed.

Ltac len :=
  repeat first
    [ rewrite length_store8 | rewrite length_memset | rewrite length_memcpy
    | rewrite length_copy_le16 | rewrite length_copy_le32
    | rewrite length_lba_to_chs ];
  lia.

(** Reads of a cell that the last write did not touch. *)
Ltac skip_writes :=
  repeat first
    [ rewrite store8_ne by lia
    | rewrite copy_le32_outside by lia
    | rewrite copy_le16_outside by lia
    | rewrite lba_to_chs_outside by lia
    | rewrite memset_outside by lia
    | rewrite memcpy_outside by lia ].

(** ** create_partition *)

Lemma create_partition_ok p out a nb :
  (create_partition p out a nb).1 = Ok tt.
Proof. done. Qed.

Lemma length_create_partition p out a nb :
  length (create_partition p out a nb).2 = length out.
Proof.
  unfold create_partition; cbn [snd]. case_decide; len.
Qed.

Lemma create_partition_outside p out a nb k :
  (k < a \/ a + 16 <= k)%nat -> (create_partition p out a nb).2 !!! k = out !!! k.
Proof.
  intros Hk. unfold create_partition; cbn [snd]. case_decide; by skip_writes.
Qed.

Lemma create_partition_fields p out a nb :
  (a + 16 <= length out)%nat ->
  entry_fields p nb (create_partition p out a nb).2 a.
Proof.
  intros Hlen. unfold entry_fields, create_partition; cbn [snd].
  split; [|split; [|split]].
  - case_decide; skip_writes.
    + rewrite store8_eq by lia. by destruct (boot_flag p).
    + rewrite memset_inside by lia. done.
  - case_decide; skip_writes.
    + rewrite store8_eq by len. done.
    + rewrite memset_inside by lia. done.
  - intros m Hm. skip_writes.
    apply copy_le32_inside; [|done]. case_decide; len.
  - intros m Hm. apply copy_le32_inside; [|done]. case_decide; len.
Qed.

Lemma create_partition_unused p out a nb m :
  (a + 16 <= length out)%nat -> partition_type p <= 0 -> (m < 8)%nat ->
  (create_partition p out a nb).2 !!! (a + m)%nat = 0.
Proof.
  intros Hlen Hty Hm. unfold create_partition; cbn [snd].
  rewrite decide_False by lia. skip_writes.
  rewrite memset_inside by lia. done.
Qed.

(** ** create_partitions: the loop of mbr_create *)

Lemma create_partitions_spec (t : mbr_table) nb l out :
  NoDup l -> (forall i, i ∈ l -> (446 + i * 16 + 16 <= length out)%nat) ->
  exists out',
    create_partitions t nb l out = (Ok tt, out') /\
    length out' = length out /\
    (forall k, (forall i, i ∈ l -> (k < 446 + i * 16 \/ 446 + i * 16 + 16 <= k)%nat) ->
       out' !!! k = out !!! k) /\
    (forall i, i ∈ l -> entry_fields (t !!! i) nb out' (446 + i * 16)).
Proof.
  revert out. induction l as [|i l IH]; intros out Hnd Hlen;
    cbn [create_partitions].
  - exists out. split; [done|]. split; [done|]. split; [done|].
    intros j Hj. by apply elem_of_nil in Hj.
  - apply NoDup_cons in Hnd as [Hi Hnd].
    destruct (create_partition (t !!! i) out (446 + i * 16) nb) as [r out1] eqn:Hcp.
    assert (Hr : r = Ok tt) by (by rewrite <- (create_partition_ok (t !!! i) out (446 + i * 16) nb), Hcp).
    assert (Hout1 : out1 = (create_partition (t !!! i) out (446 + i * 16) nb).2) by (by rewrite Hcp).
    subst r.
    assert (Hl1 : length out1 = length out) by (subst out1; apply length_create_partition).
    destruct (IH out1 Hnd) as (out' & Hrun & Hl' & Hframe & Hfields).
    { intros j Hj. rewrite Hl1. apply Hlen. by right. }
    exists out'. split; [done|]. split; [congruence|]. split.
    + intros k Hk. rewrite Hframe.
      * subst out1. apply create_partition_outside. apply Hk. by left.
      * intros j Hj. apply Hk. by right.
    + intros j Hj. apply elem_of_cons in Hj as [->|Hj]; [|by apply Hfields].
      assert (Hreg : forall k, (446 + i * 16 <= k < 446 + i * 16 + 16)%nat ->
                out' !!! k = out1 !!! k).
      { intros k Hk. apply Hframe. intros j Hj.
        assert (j <> i) by (intros ->; done). lia. }
      pose proof (create_partition_fields (t !!! i) out (446 + i * 16) nb) as Hf.
      rewrite <- Hout1 in Hf. destruct Hf as (H0 & H4 & H8 & H12).
      { apply Hlen. by left. }
      unfold entry_fields. rewrite !Hreg by lia.
      split; [done|]. split; [done|].
      split; intros m Hm; rewrite Hreg by lia; auto.
Qed.

(** ** write_osip never fails and keeps the length *)

Lemma write_osii_loop osip l out cur :
  exists out' cur',
    for_each (write_osii osip) l (out, cur) = Ok (out', cur') /\
    length out' = length out /\
    cur' = (cur + 24 * length l)%nat /\
    (forall k, (k < cur)%nat -> out' !!! k = out !!! k) /\
    (Forall is_byte out -> Forall is_byte out').
Proof.
  revert out cur. induction l as [|i l IH]; intros out cur.
  - exists out, cur. simpl. split; [done|]. split; [done|]. split; [lia|].
    split; auto.
  - cbn [for_each]. unfold write_osii at 1. cbn [bind].
    match goal with |- context [for_each _ l (?o, ?c)] =>
      destruct (IH o c) as (out' & cur' & Hrun & Hlen & Hcur & Hframe & Hbytes)
    end.
    exists out', cur'. split; [done|]. split; [rewrite Hlen; len|].
    split; [simpl; lia|]. split.
    + intros k Hk. rewrite Hframe by lia. by skip_writes.
    + intros Hb. apply Hbytes.
      repeat first
        [ apply Forall_store8 | apply Forall_memset
        | apply Forall_copy_le16 | apply Forall_copy_le32 ]; done.
Qed.

Lemma write_osip_ok osip out :
  exists out', write_osip osip out = (Ok tt, out') /\ length out' = length out.
Proof.
  unfold write_osip.
  match goal with |- context [for_each _ ?l (?o, ?c)] =>
    destruct (write_osii_loop osip l o c) as (out1 & cur & -> & Hlen & _)
  end.
  eexists. split; [done|]. rewrite length_store8, Hlen. len.
Qed.

(** ** mbr_create *)

Lemma mbr_create_spec (t : mbr_table) bootstrap osip signature nb out :
  length out = 512%nat -> mbr_verify t = Ok tt ->
  ~ (is_Some bootstrap /\ include_osip osip = true) ->
  exists out',
    mbr_create t bootstrap osip signature nb out = (Ok tt, out') /\
    length out' = 512%nat /\
    out' !!! 510%nat = 0x55 /\ out' !!! 511%nat = 0xaa /\
    forall i, (i < MBR_MAX_PRIMARY_PARTITIONS)%nat ->
      entry_fields (t !!! i) nb out' (446 + i * 16).
Proof.
  intros Hlen Hver Hboth. unfold mbr_create.
  rewrite decide_False by done. rewrite Hver.
  set (out0 := match bootstrap with
               | Some code => memcpy out 0 code 0 440
               | None => memset out 0 0 440 end).
  assert (Hl0 : length out0 = 512%nat) by (subst out0; destruct bootstrap; len).
  assert (exists out1,
    (if include_osip osip then write_osip osip out0 else (Ok tt, out0))
      = (Ok tt, out1) /\ length out1 = 512%nat) as (out1 & -> & Hl1).
  { destruct (include_osip osip).
    - destruct (write_osip_ok osip out0) as (o & -> & Hl). exists o. split; [done|congruence].
    - by exists out0. }
  match goal with |- context [create_partitions t nb ?l ?o] =>
    destruct (create_partitions_spec t nb l o) as (out2 & -> & Hl2 & Hframe & Hfields)
  end.
  { apply NoDup_seq. }
  { intros i Hi. apply elem_of_seq in Hi. unfold MBR_MAX_PRIMARY_PARTITIONS in Hi.
    rewrite !length_store8, length_copy_le32, Hl1. lia. }
  rewrite !length_store8, length_copy_le32, Hl1 in Hl2.
  eexists. split; [done|]. split; [len|]. split; [|split].
  - skip_writes. by rewrite store8_eq by len.
  - by rewrite store8_eq by len.
  - intros i Hi. unfold MBR_MAX_PRIMARY_PARTITIONS in Hi.
    destruct (Hfields i) as (H0 & H4 & H8 & H12).
    { apply elem_of_seq. unfold MBR_MAX_PRIMARY_PARTITIONS. lia. }
    unfold entry_fields. skip_writes. split; [done|]. split; [done|].
    split; intros m Hm; skip_writes; auto.
Qed.

(** ** Little-endian fields *)

Lemma le32_wrap32 v : le32 (wrap32 v) = le32 v.
Proof.
  unfold le32, wrap32. change 256 with (2 ^ 8).
  assert (H0 : v mod 2 ^ 32 mod 2 ^ 8 = v mod 2 ^ 8) by Z.bitblast.
  assert (H1 : v mod 2 ^ 32 / 2 ^ 8 mod 2 ^ 8 = v / 2 ^ 8 mod 2 ^ 8)
    by Z.bitblast.
  assert (H2 : v mod 2 ^ 32 / 2 ^ 16 mod 2 ^ 8 = v / 2 ^ 16 mod 2 ^ 8)
    by Z.bitblast.
  assert (H3 : v mod 2 ^ 32 / 2 ^ 24 mod 2 ^ 8 = v / 2 ^ 24 mod 2 ^ 8)
    by Z.bitblast.
  by rewrite H0, H1, H2, H3.
Qed.

(** Reading back, as [read_partition] does, what [copy_le32] wrote. *)
Lemma le32_read_back v :
  is_u32 v ->
  wrap32 (Z.lor (Z.lor (Z.lor (v mod 256) (Z.shiftl (v / 2 ^ 8 mod 256) 8))
            (Z.shiftl (v / 2 ^ 16 mod 256) 16))
            (Z.shiftl (v / 2 ^ 24 mod 256) 24)) = v.
Proof.
  intros Hv. rewrite <- (wrap32_small v Hv) at 5.
  unfold wrap32. change 256 with (2 ^ 8). Z.bitblast.
Qed.

Lemma bytes_at_eq (l l' : list Z) a :
  (a + length l' <= length l)%nat ->
  (forall m, (m < length l')%nat -> l !!! (a + m)%nat = l' !!! m) ->
  bytes_at l a (length l') = l'.
Proof.
  intros Hlen Hall. unfold bytes_at. apply list_eq. intros k.
  destruct (decide (k < length l')%nat) as [Hk|Hk].
  - rewrite lookup_take_lt, lookup_drop by done.
    rewrite (list_lookup_lookup_total_lt l) by lia.
    rewrite (list_lookup_lookup_total_lt l') by lia.
    f_equal. by apply Hall.
  - rewrite lookup_take_ge by lia. symmetry. apply lookup_ge_None_2. lia.
Qed.

(** C3 (as amended). For a table that passes [mbr_verify] and whose last
    active slot has [expand_flag], [mbr_create] writes bytes 12-15 of that
    entry as [num_blocks - block_offset], little-endian, when [num_blocks]
    exceeds the 32-bit sum [block_offset + block_count], and as the
    declared [block_count] otherwise. [expand_flag] on an active slot that
    is followed by another active slot makes [mbr_verify] fail. *)
Theorem expand_flag_encoding (t : mbr_table) :
  table_ok t ->
  (forall bootstrap osip signature num_blocks output i,
     length output = 512%nat ->
     mbr_verify t = Ok tt ->
     ~ (is_Some bootstrap /\ include_osip osip = true) ->
     active (t !!! i) -> expand_flag (t !!! i) = true ->
     (forall k, (i < k)%nat -> ~ active (t !!! k)) ->
     exists out',
       mbr_create t bootstrap osip signature num_blocks output = (Ok tt, out') /\
       bytes_at out' (446 + i * 16 + 12) 4 =
         le32 (if decide (num_blocks >
                          wrap32 (block_offset (t !!! i) + block_count (t !!! i)))
               then num_blocks - block_offset (t !!! i)
               else block_count (t !!! i))) /\
  (forall i k, (i < k)%nat ->
     active (t !!! i) -> expand_flag (t !!! i) = true -> active (t !!! k) ->
     is_err (mbr_verify t)).
Proof.
  intros Hok. split.
  - intros bootstrap osip signature nb out i Hlen Hver Hboth Hact Hex _.
    pose proof (active_lt t i Hok Hact) as Hi.
    destruct (mbr_create_spec t bootstrap osip signature nb out Hlen Hver Hboth)
      as (out' & Hrun & Hlen' & _ & _ & Hfields).
    exists out'. split; [done|].
    destruct (Hfields i Hi) as (_ & _ & _ & H12).
    unfold MBR_MAX_PRIMARY_PARTITIONS in Hi.
    assert (Heff : le32 (effective_block_count (t !!! i) nb) =
      le32 (if decide (nb > wrap32 (block_offset (t !!! i) + block_count (t !!! i)))
            then nb - block_offset (t !!! i) else block_count (t !!! i))).
    { unfold effective_block_count. case_decide as Hc.
      - rewrite decide_True by tauto. apply le32_wrap32.
      - rewrite decide_False by tauto. done. }
    rewrite <- Heff.
    apply (bytes_at_eq out' (le32 _)); simpl; [lia|]. apply H12.
  - intros i k. by apply mbr_verify_expand_not_last.
Qed.

Lemma expand_flag_encoding_witness :
  (exists out',
     mbr_create expanding_table None zero_osip 0 1000 zero_buffer = (Ok tt, out') /\
     bytes_at out' (446 + 0 * 16 + 12) 4 = le32 900) /\
  is_err (mbr_verify expand_first_table).
Proof.
  split.
  - refine (proj1 (expand_flag_encoding expanding_table _)
              None zero_osip 0 1000 zero_buffer 0%nat _ _ _ _ _ _).
    + table_ok_tac.
    + reflexivity.
    + reflexivity.
    + intros [[? [=]] _].
    + split; simpl; [done|by left].
    + reflexivity.
    + intros k Hk [Hty _]. slots k; try lia; done.
  - refine (proj2 (expand_flag_encoding expand_first_table _) 0%nat 1%nat _ _ _ _).
    + table_ok_tac.
    + lia.
    + split; simpl; [done|by left].
    + reflexivity.
    + split; simpl; [done|by left].
Defined.

(** C3 as stated fails: the table is valid, its last active slot expands
    and [num_blocks = 120] is not zero, but the medium ends before the
    declared end of the partition (block 150), so the declared count 50
    is written, not [120 - 100]. *)
Lemma expand_count_kept_when_medium_small :
  mbr_verify expanding_table = Ok tt /\
  active (expanding_table !!! 0%nat) /\
  expand_flag (expanding_table !!! 0%nat) = true /\
  (forall k, (0 < k)%nat -> ~ active (expanding_table !!! k)) /\
  bytes_at (mbr_create expanding_table None zero_osip 0 120 zero_buffer).2
    (446 + 0 * 16 + 12) 4 = le32 50 /\
  le32 50 <> le32 (120 - 100).
Proof.
  split; [reflexivity|]. split; [split; simpl; [done|by left]|].
  split; [reflexivity|]. split.
  - intros k Hk [Hty _]. slots k; try lia; done.
  - split; [vm_compute; reflexivity|]. vm_compute. congruence.
Qed.

(** C5. On an entry that lies within the buffer [create_partition]
    succeeds, keeps the length of the buffer and touches nothing outside
    the 16 bytes of the entry. For a partition of type 0 the first 8
    bytes of the entry are zero. Whatever the type, bytes 8-11 are
    [block_offset], little-endian, and bytes 12-15 are, little-endian,
    the effective block count: [num_blocks - block_offset] (in 32 bits)
    for a partition with [expand_flag] when [num_blocks] exceeds the
    32-bit sum [block_offset + block_count], the declared [block_count]
    otherwise. *)
Theorem create_partition_layout p output at_ num_blocks :
  (at_ + 16 <= length output)%nat ->
  exists out',
    create_partition p output at_ num_blocks = (Ok tt, out') /\
    length out' = length output /\
    (forall k, (k < at_ \/ at_ + 16 <= k)%nat -> out' !!! k = output !!! k) /\
    (partition_type p = 0 -> bytes_at out' at_ 8 = replicate 8 0) /\
    bytes_at out' (at_ + 8) 4 = le32 (block_offset p) /\
    bytes_at out' (at_ + 12) 4 =
      le32 (if decide (expand_flag p = true /\
                       num_blocks > wrap32 (block_offset p + block_count p))
            then wrap32 (num_blocks - block_offset p)
            else block_count p).
Proof.
  intros Hlen.
  exists (create_partition p output at_ num_blocks).2.
  pose proof (length_create_partition p output at_ num_blocks) as Hl.
  destruct (create_partition_fields p output at_ num_blocks Hlen)
    as (_ & _ & H8 & H12).
  split; [done|]. split; [done|]. split; [|split; [|split]].
  - intros k Hk. by apply create_partition_outside.
  - intros Hty. apply (bytes_at_eq _ (replicate 8 0)); [rewrite Hl; simpl; lia|].
    intros m Hm. simpl in Hm. rewrite create_partition_unused by lia.
    by destruct m as [|[|[|[|[|[|[|[|m]]]]]]]]; [..|lia].
  - apply (bytes_at_eq _ (le32 _)); [rewrite Hl; simpl; lia|]. exact H8.
  - apply (bytes_at_eq _ (le32 _)); [rewrite Hl; simpl; lia|]. exact H12.
Qed.

Lemma create_partition_layout_witness :
  (exists out',
     create_partition spare_partition ones_buffer 446 100000 = (Ok tt, out') /\
     length out' = 512%nat /\
     out' !!! 445%nat = 0xff /\ out' !!! 462%nat = 0xff /\
     bytes_at out' 446 8 = [0; 0; 0; 0; 0; 0; 0; 0] /\
     bytes_at out' 454 4 = [3; 2; 1; 0] /\
     bytes_at out' 458 4 = [157; 132; 0; 0]) /\
  (exists out',
     create_partition growing_partition ones_buffer 446 66000 = (Ok tt, out') /\
     bytes_at out' 454 4 = [3; 2; 1; 0] /\
     bytes_at out' 458 4 = [5; 0; 0; 0]).
Proof.
  split.
  - destruct (create_partition_layout spare_partition ones_buffer 446 100000)
      as (out' & Hrun & Hlen & Hframe & H0 & H8 & H12).
    { vm_compute; lia. }
    exists out'. split; [exact Hrun|]. split; [exact Hlen|].
    split; [apply (Hframe 445%nat); lia|].
    split; [apply (Hframe 462%nat); lia|].
    split; [exact (H0 eq_refl)|]. split; [exact H8|exact H12].
  - destruct (create_partition_layout growing_partition ones_buffer 446 66000)
      as (out' & Hrun & _ & _ & _ & H8 & H12).
    { vm_compute; lia. }
    exists out'. split; [exact Hrun|]. split; [exact H8|exact H12].
Defined.

(** ** lba_to_chs *)

Lemma chs_middle_byte cyl sector :
  0 <= cyl < 1024 -> 0 <= sector < 64 ->
  wrap8 (Z.lor (Z.shiftr (Z.land cyl 0x300) 2) sector) =
  Z.lor (Z.shiftl (Z.land (Z.shiftr cyl 8) 0x3) 6) sector.
Proof.
  intros Hc Hs. unfold wrap8.
  change 0x300 with (Z.shiftl (Z.ones 2) 8). change 0x3 with (Z.ones 2).
  assert (Hs' : sector = sector mod 2 ^ 6) by (symmetry; apply Z.mod_small; lia).
  rewrite Hs'. Z.bitblast.
Qed.

Lemma chs_low_byte cyl : wrap8 (Z.land cyl 0xff) = Z.land cyl 0xff.
Proof.
  apply wrap8_small. unfold is_byte. change 0xff with (Z.ones 8).
  rewrite Z.land_ones by lia. apply Z.mod_pos_bound. lia.
Qed.

(** The three cells at [a] after [lba_to_chs]. *)
Lemma lba_to_chs_inside lba l a m :
  is_u32 lba -> (a + 3 <= length l)%nat -> (m < 3)%nat ->
  lba_to_chs lba l a !!! (a + m)%nat =
    if decide (lba <= 63 * 255 * 1023) then chs_of lba !!! m
    else l !!! (a + m)%nat.
Proof.
  intros Hlba Hlen Hm. unfold lba_to_chs, is_u32 in *.
  change (SECTORS_PER_HEAD * HEADS_PER_CYLINDER * 0x3ff) with (63 * 255 * 1023).
  case_decide as Hrep; [|done].
  unfold SECTORS_PER_HEAD, HEADS_PER_CYLINDER.
  assert (Hcyl : 0 <= lba / (63 * 255) < 1024).
  { split; [apply Z.div_pos; lia|]. apply Z.div_lt_upper_bound; lia. }
  assert (Hhead : 0 <= (lba / 63) mod 255 < 255) by (apply Z.mod_pos_bound; lia).
  assert (Hsec : 0 <= lba mod 63 < 63) by (apply Z.mod_pos_bound; lia).
  assert (Hw16 : wrap16 (lba / (63 * 255)) = lba / (63 * 255)).
  { apply Z.mod_small. lia. }
  assert (Hw8 : wrap8 (wrap8 (lba mod 63) + 1) = lba mod 63 + 1).
  { rewrite (wrap8_small (lba mod 63)) by (unfold is_byte; lia).
    apply wrap8_small. unfold is_byte. lia. }
  rewrite Hw16, Hw8.
  destruct m as [|[|[|m]]]; [| | |lia]; simpl.
  - rewrite Nat.add_0_r. skip_writes. rewrite store8_eq by lia.
    rewrite !(wrap8_small ((lba / 63) mod 255)) by (unfold is_byte; lia). done.
  - skip_writes. rewrite store8_eq by len. apply chs_middle_byte; lia.
  - rewrite store8_eq by len. apply chs_low_byte.
Qed.

(** C6 (as amended). For an address above [63*255*1023], [lba_to_chs]
    writes nothing: the three CHS bytes keep what the output buffer held
    (zero only when it held zero). Otherwise they are
    [[head, ((cyl>>8)&0x3)<<6 | sector, cyl&0xFF]] with
    [cyl = lba / (63*255)], [head = (lba / 63) mod 255] and
    [sector = lba mod 63 + 1]. In the entry of a partition of positive
    type, bytes 1-3 are those [lba_to_chs] leaves for [block_offset], and
    bytes 5-7 those it leaves for the last block. *)
Theorem lba_to_chs_bytes (output : list Z) :
  (forall lba at_, is_u32 lba -> (at_ + 3 <= length output)%nat ->
     (lba > 63 * 255 * 1023 -> lba_to_chs lba output at_ = output) /\
     (lba <= 63 * 255 * 1023 ->
        bytes_at (lba_to_chs lba output at_) at_ 3 = chs_of lba)) /\
  (forall p at_ num_blocks,
     is_u32 (block_offset p) -> (at_ + 16 <= length output)%nat ->
     partition_type p > 0 ->
     let out' := (create_partition p output at_ num_blocks).2 in
     let last :=
       wrap32 (block_offset p + effective_block_count p num_blocks - 1) in
     bytes_at out' (at_ + 1) 3 =
       bytes_at (lba_to_chs (block_offset p) output (at_ + 1)) (at_ + 1) 3 /\
     bytes_at out' (at_ + 5) 3 =
       bytes_at (lba_to_chs last output (at_ + 5)) (at_ + 5) 3).
Proof.
  split.
  - intros lba at_ Hlba Hlen. split.
    + intros Hbig. unfold lba_to_chs.
      change (SECTORS_PER_HEAD * HEADS_PER_CYLINDER * 0x3ff) with (63 * 255 * 1023).
      by rewrite decide_False by lia.
    + intros Hsmall. apply (bytes_at_eq _ (chs_of lba)); simpl.
      * rewrite length_lba_to_chs. lia.
      * intros m Hm. rewrite lba_to_chs_inside by (done || lia).
        by rewrite decide_True by lia.
  - intros p at_ nb Hoff Hlen Hty out' last.
    assert (Hcell : forall l1 l2 lba a, is_u32 lba ->
      (a + 3 <= length l1)%nat -> (a + 3 <= length l2)%nat ->
      (forall m, (m < 3)%nat -> l1 !!! (a + m)%nat = l2 !!! (a + m)%nat) ->
      forall m, (m < 3)%nat ->
        lba_to_chs lba l1 a !!! (a + m)%nat = lba_to_chs lba l2 a !!! (a + m)%nat).
    { intros l1 l2 lba a Hl H1 H2 Hsame m Hm.
      rewrite !lba_to_chs_inside by done. case_decide; auto. }
    assert (Hbytes : forall (l1 l2 : list Z) a,
      (a + 3 <= length l1)%nat -> (a + 3 <= length l2)%nat ->
      (forall m, (m < 3)%nat -> l1 !!! (a + m)%nat = l2 !!! (a + m)%nat) ->
      bytes_at l1 a 3 = bytes_at l2 a 3).
    { intros l1 l2 a H1 H2 Hsame.
      rewrite <- (bytes_at_eq l2 (bytes_at l1 a 3) a).
      - f_equal. unfold bytes_at. rewrite length_take, length_drop. lia.
      - unfold bytes_at. rewrite length_take, length_drop. lia.
      - unfold bytes_at at 1 2. rewrite length_take, length_drop.
        intros m Hm. rewrite lookup_total_take_lt, lookup_total_drop by lia.
        symmetry. apply Hsame. lia. }
    subst out'. unfold create_partition; cbn [snd].
    rewrite decide_True by done. split.
    + apply Hbytes; [len|len|]. intros m Hm. skip_writes.
      apply Hcell; [done|len|len| |done].
      intros m' Hm'. by skip_writes.
    + apply Hbytes; [len|len|]. intros m Hm. skip_writes.
      apply Hcell; [apply wrap32_range|len|len| |done].
      intros m' Hm'. by skip_writes.
Qed.

Lemma lba_to_chs_bytes_witness :
  lba_to_chs 20000000 ones_buffer 447 = ones_buffer /\
  bytes_at (lba_to_chs 1000 zero_buffer 447) 447 3 = chs_of 1000 /\
  bytes_at (create_partition (far_table !!! 0%nat) ones_buffer 446 0).2
    (446 + 1) 3 =
  bytes_at (lba_to_chs 20000000 ones_buffer (446 + 1)) (446 + 1) 3.
Proof.
  split; [|split].
  - apply (proj1 (lba_to_chs_bytes ones_buffer) 20000000 447%nat).
    + unfold is_u32. lia.
    + vm_compute; lia.
    + lia.
  - apply (proj1 (lba_to_chs_bytes zero_buffer) 1000 447%nat).
    + unfold is_u32. lia.
    + vm_compute; lia.
    + lia.
  - refine (proj1 (proj2 (lba_to_chs_bytes ones_buffer)
                     (far_table !!! 0%nat) 446%nat 0 _ _ _)).
    + unfold is_u32, far_table; simpl; lia.
    + vm_compute; lia.
    + unfold far_table; simpl; lia.
Defined.

(** C6 as stated fails: block 20000000 is beyond [63*255*1023], and the
    CHS bytes of the entry are not zero but what the caller's buffer held,
    here 0xff. *)
Lemma chs_bytes_left_as_they_were :
  20000000 > 63 * 255 * 1023 /\
  bytes_at (lba_to_chs 20000000 ones_buffer 447) 447 3 = [0xff; 0xff; 0xff] /\
  mbr_verify far_table = Ok tt /\
  (mbr_create far_table None zero_osip 0 0 ones_buffer).1 = Ok tt /\
  bytes_at (mbr_create far_table None zero_osip 0 0 ones_buffer).2 446 8
    = [0; 0xff; 0xff; 0xff; 0x83; 0xff; 0xff; 0xff] /\
  bytes_at (mbr_create far_table None zero_osip 0 0 ones_buffer).2 447 3
    <> [0; 0; 0].
Proof.
  split; [lia|]. repeat split; try (vm_compute; reflexivity).
  vm_compute. congruence.
Qed.

(** ** read_partition and mbr_decode *)

Lemma read_partitions_spec input l (table : mbr_table) :
  NoDup l -> (forall i, i ∈ l -> (i < length table)%nat) ->
  exists table',
    read_partitions input l table = (Ok tt, table') /\
    length table' = length table /\
    (forall i, i ∈ l ->
       table' !!! i = (read_partition input (446 + i * 16) (table !!! i)).2) /\
    (forall i, i ∉ l -> table' !!! i = table !!! i).
Proof.
  revert table. induction l as [|i l IH]; intros table Hnd Hlen;
    cbn [read_partitions].
  - exists table. split; [done|]. split; [done|]. split; [|done].
    intros j Hj. by apply elem_of_nil in Hj.
  - apply NoDup_cons in Hnd as [Hi Hnd].
    unfold read_partition at 1.
    match goal with |- context [read_partitions input l (<[i := ?p]> table)] =>
      set (part := p);
      destruct (IH (<[i := part]> table) Hnd)
        as (table' & Hrun & Hl & Hin & Hout)
    end.
    { intros j Hj. rewrite length_insert. apply Hlen. by right. }
    exists table'. split; [done|]. split; [by rewrite Hl, length_insert|].
    split.
    + intros j Hj. apply elem_of_cons in Hj as [->|Hj].
      * rewrite Hout by done.
        rewrite list_lookup_total_insert_eq by (apply Hlen; by left). done.
      * rewrite Hin by done.
        rewrite list_lookup_total_insert_ne by (intros ->; done). done.
    + intros j Hj. apply not_elem_of_cons in Hj as [Hne Hj].
      rewrite Hout by done. by rewrite list_lookup_total_insert_ne.
Qed.

Lemma zero_table_lookup i : zero_table !!! i = zero_partition.
Proof.
  unfold zero_table, MBR_MAX_PRIMARY_PARTITIONS.
  by destruct i as [|[|[|[|i]]]].
Qed.

Lemma mbr_decode_ok input (table0 : mbr_table) :
  input !!! 510%nat = 0x55 -> input !!! 511%nat = 0xaa ->
  exists table',
    mbr_decode input table0 = (Ok tt, table') /\
    length table' = MBR_MAX_PRIMARY_PARTITIONS /\
    (forall i, (i < MBR_MAX_PRIMARY_PARTITIONS)%nat ->
       table' !!! i = (read_partition input (446 + i * 16) zero_partition).2) /\
    (forall i, (MBR_MAX_PRIMARY_PARTITIONS <= i)%nat ->
       table' !!! i = zero_partition).
Proof.
  intros H55 Haa. unfold mbr_decode.
  rewrite decide_False by tauto.
  destruct (read_partitions_spec input (seq 0 MBR_MAX_PRIMARY_PARTITIONS) zero_table)
    as (table' & Hrun & Hl & Hin & Hout).
  { apply NoDup_seq. }
  { intros i Hi. apply elem_of_seq in Hi. unfold zero_table.
    rewrite length_replicate. lia. }
  exists table'. split; [done|]. split; [done|]. split.
  - intros i Hi. rewrite Hin by (apply elem_of_seq; lia).
    by rewrite zero_table_lookup.
  - intros i Hi. rewrite Hout, zero_table_lookup; [done|].
    rewrite elem_of_seq. lia.
Qed.

(** C9. [mbr_decode] zeroes the caller's table before anything else:
    what the table held on entry has no effect on the result; without the
    [0x55 0xAA] trailer the call fails and leaves the table all zero; with
    it the call succeeds and [expand_flag] is false in every slot. *)
Theorem mbr_decode_zeroes_table (input : list Z) (table0 : mbr_table) :
  length input = 512%nat ->
  (forall table1 : mbr_table, mbr_decode input table0 = mbr_decode input table1) /\
  (input !!! 510%nat <> 0x55 \/ input !!! 511%nat <> 0xaa ->
     mbr_decode input table0 = (Err MbrSignatureMissing, zero_table)) /\
  (input !!! 510%nat = 0x55 -> input !!! 511%nat = 0xaa ->
     exists table',
       mbr_decode input table0 = (Ok tt, table') /\
       forall i, expand_flag (table' !!! i) = false).
Proof.
  intros _. split; [done|]. split.
  - intros Hbad. unfold mbr_decode. by rewrite decide_True.
  - intros H55 Haa.
    destruct (mbr_decode_ok input table0 H55 Haa) as (table' & Hrun & _ & Hin & Hout).
    exists table'. split; [done|]. intros i.
    destruct (decide (i < MBR_MAX_PRIMARY_PARTITIONS)%nat) as [Hi|Hi].
    + by rewrite Hin.
    + by rewrite Hout by lia.
Qed.

Lemma mbr_decode_zeroes_table_witness :
  mbr_decode zero_buffer expand_first_table
    = (Err MbrSignatureMissing, zero_table) /\
  exists table',
    mbr_decode (mbr_create adjacent_table None zero_osip 0 0 zero_buffer).2
      expand_first_table = (Ok tt, table') /\
    forall i, expand_flag (table' !!! i) = false.
Proof.
  split.
  - apply (proj1 (proj2 (mbr_decode_zeroes_table zero_buffer
                           expand_first_table eq_refl))).
    left. vm_compute. congruence.
  - apply (proj2 (proj2 (mbr_decode_zeroes_table
                           (mbr_create adjacent_table None zero_osip 0 0 zero_buffer).2
                           expand_first_table eq_refl))); reflexivity.
Defined.

Lemma mbr_verify_types (t : mbr_table) i :
  mbr_verify t = Ok tt -> (i < MBR_MAX_PRIMARY_PARTITIONS)%nat ->
  0 <= partition_type (t !!! i) <= 255.
Proof.
  intros Hver Hi.
  destruct (mbr_verify_ok_slot t i Hver Hi) as (e & e' & Hslot).
  unfold verify_slot in Hslot. case_decide; [done|lia].
Qed.

Lemma effective_block_count_u32 p nb :
  is_u32 (block_count p) -> is_u32 (effective_block_count p nb).
Proof.
  intros H. unfold effective_block_count. case_decide; [apply wrap32_range|done].
Qed.

(** What [read_partition] finds in an entry that [create_partition] wrote. *)
Lemma read_entry p nb out a q0 :
  partition_ok p -> 0 <= partition_type p <= 255 ->
  entry_fields p nb out a ->
  let q := (read_partition out a q0).2 in
  partition_type q = partition_type p /\
  block_offset q = block_offset p /\
  block_count q = effective_block_count p nb /\
  boot_flag q = (if decide (partition_type p = 0) then false else boot_flag p).
Proof.
  intros (_ & Hoff & Hcnt) Hty (H0 & H4 & H8 & H12) q. subst q.
  unfold read_partition; cbn [snd partition_type block_offset block_count boot_flag].
  pose proof (H8 0%nat) as H80. pose proof (H8 1%nat) as H81.
  pose proof (H8 2%nat) as H82. pose proof (H8 3%nat) as H83.
  pose proof (H12 0%nat) as H120. pose proof (H12 1%nat) as H121.
  pose proof (H12 2%nat) as H122. pose proof (H12 3%nat) as H123.
  rewrite Nat.add_0_r in H80, H120.
  replace (a + 8 + 1)%nat with (a + 9)%nat in H81 by lia.
  replace (a + 8 + 2)%nat with (a + 10)%nat in H82 by lia.
  replace (a + 8 + 3)%nat with (a + 11)%nat in H83 by lia.
  replace (a + 12 + 1)%nat with (a + 13)%nat in H121 by lia.
  replace (a + 12 + 2)%nat with (a + 14)%nat in H122 by lia.
  replace (a + 12 + 3)%nat with (a + 15)%nat in H123 by lia.
  rewrite H0, H4, H80, H81, H82, H83, H120, H121, H122, H123 by lia.
  cbn [le32 lookup_total list_lookup_total].
  split; [|split; [|split]].
  - case_decide; [apply wrap8_small; unfold is_byte; lia|lia].
  - by apply le32_read_back.
  - apply le32_read_back. by apply effective_block_count_u32.
  - destruct (decide (partition_type p > 0)) as [Hp|Hp].
    + rewrite (decide_False (P := partition_type p = 0)) by lia.
      by destruct (boot_flag p).
    + rewrite (decide_True (P := partition_type p = 0)) by lia. done.
Qed.

(** C2 (as amended). For a table that passes [mbr_verify], [mbr_create]
    succeeds (unless both a bootstrap and OSIP are asked for) and
    [mbr_decode] of the record gives back, in each of the four slots,
    [partition_type] and [block_offset] as given, [boot_flag] as given for
    a slot of nonzero type and false for a slot of type 0, and as
    [block_count] the count that was encoded: the given one, or
    [num_blocks - block_offset] for an expanding slot when [num_blocks]
    exceeds the 32-bit sum [block_offset + block_count]. *)
Theorem encode_decode_roundtrip (t : mbr_table) bootstrap osip signature
    num_blocks output (table0 : mbr_table) :
  table_ok t -> length output = 512%nat -> mbr_verify t = Ok tt ->
  ~ (is_Some bootstrap /\ include_osip osip = true) ->
  exists record table',
    mbr_create t bootstrap osip signature num_blocks output = (Ok tt, record) /\
    mbr_decode record table0 = (Ok tt, table') /\
    forall i, (i < MBR_MAX_PRIMARY_PARTITIONS)%nat ->
      partition_type (table' !!! i) = partition_type (t !!! i) /\
      block_offset (table' !!! i) = block_offset (t !!! i) /\
      block_count (table' !!! i) =
        (if decide (expand_flag (t !!! i) = true /\
                    num_blocks > wrap32 (block_offset (t !!! i) +
                                         block_count (t !!! i)))
         then wrap32 (num_blocks - block_offset (t !!! i))
         else block_count (t !!! i)) /\
      boot_flag (table' !!! i) =
        (if decide (partition_type (t !!! i) = 0) then false
         else boot_flag (t !!! i)).
Proof.
  intros Hok Hlen Hver Hboth.
  destruct (mbr_create_spec t bootstrap osip signature num_blocks output
              Hlen Hver Hboth) as (record & Hrun & _ & H55 & Haa & Hfields).
  destruct (mbr_decode_ok record table0 H55 Haa) as (table' & Hdec & _ & Hin & _).
  exists record, table'. split; [done|]. split; [done|].
  intros i Hi. rewrite Hin by done.
  apply (read_entry (t !!! i) num_blocks record (446 + i * 16) zero_partition).
  - by apply table_ok_lookup.
  - by apply mbr_verify_types.
  - by apply Hfields.
Qed.

Lemma encode_decode_roundtrip_witness :
  exists record table',
    mbr_create adjacent_table None zero_osip 0 0 zero_buffer = (Ok tt, record) /\
    mbr_decode record zero_table = (Ok tt, table') /\
    forall i, (i < MBR_MAX_PRIMARY_PARTITIONS)%nat ->
      partition_type (table' !!! i) = partition_type (adjacent_table !!! i) /\
      block_offset (table' !!! i) = block_offset (adjacent_table !!! i) /\
      block_count (table' !!! i) =
        (if decide (expand_flag (adjacent_table !!! i) = true /\
                    0 > wrap32 (block_offset (adjacent_table !!! i) +
                                block_count (adjacent_table !!! i)))
         then wrap32 (0 - block_offset (adjacent_table !!! i))
         else block_count (adjacent_table !!! i)) /\
      boot_flag (table' !!! i) =
        (if decide (partition_type (adjacent_table !!! i) = 0) then false
         else boot_flag (adjacent_table !!! i)).
Proof.
  apply (encode_decode_roundtrip adjacent_table None zero_osip 0 0 zero_buffer
           zero_table).
  - table_ok_tac.
  - reflexivity.
  - reflexivity.
  - intros [[? [=]] _].
Defined.

(** C2 as stated fails. With [num_blocks = 1000] the expanding slot
    (offset 100, count 50) is encoded with count 900, which is what
    [mbr_decode] returns; and a slot of type 0 with [boot_flag] set is
    encoded with its first 8 bytes zero, so it decodes with [boot_flag]
    false. Both tables pass [mbr_verify]. *)
Lemma roundtrip_changes_count_and_boot :
  mbr_verify expanding_table = Ok tt /\
  (mbr_create expanding_table None zero_osip 0 1000 zero_buffer).1 = Ok tt /\
  (mbr_decode (mbr_create expanding_table None zero_osip 0 1000 zero_buffer).2
     zero_table).1 = Ok tt /\
  block_count
    ((mbr_decode (mbr_create expanding_table None zero_osip 0 1000 zero_buffer).2
        zero_table).2 !!! 0%nat) = 900 /\
  block_count (expanding_table !!! 0%nat) = 50 /\
  block_count
    ((mbr_decode (mbr_create expanding_table None zero_osip 0 1000 zero_buffer).2
        zero_table).2 !!! 0%nat) <> block_count (expanding_table !!! 0%nat) /\
  mbr_verify boot_unused_table = Ok tt /\
  (mbr_create boot_unused_table None zero_osip 0 0 zero_buffer).1 = Ok tt /\
  boot_flag
    ((mbr_decode (mbr_create boot_unused_table None zero_osip 0 0 zero_buffer).2
        zero_table).2 !!! 0%nat) = false /\
  boot_flag (boot_unused_table !!! 0%nat) = true.
Proof.
  repeat split; try (vm_compute; reflexivity). vm_compute. congruence.
Qed.

(** ** mbr_cfg_to_osip *)

Lemma while_secs_app {C St : Type} (body : C -> St -> res St) l1 l2 s :
  while_secs body (l1 ++ l2) s
  = (s' <- while_secs body l1 s; while_secs body l2 s').
Proof.
  revert s. induction l1 as [|c l1 IH]; intros s; simpl; [done|].
  destruct (body c s); simpl; auto.
Qed.

Lemma land_bit_test found ix :
  0 <= ix -> (Z.land found (Z.shiftl 1 ix) <> 0 <-> Z.testbit found ix = true).
Proof.
  intros Hix. rewrite Z.shiftl_1_l. split.
  - intros Hne. destruct (Z.testbit found ix) eqn:Hbit; [done|].
    exfalso. apply Hne. apply Z.bits_inj_0. intros k.
    rewrite Z.land_spec, Z.pow2_bits_eqb by done.
    destruct (Z.eqb_spec ix k) as [->|]; [by rewrite Hbit|apply andb_false_r].
  - intros Hbit Hz.
    assert (Hk : Z.testbit (Z.land found (2 ^ ix)) ix = true).
    { rewrite Z.land_spec, Z.pow2_bits_eqb, Hbit, Z.eqb_refl by done. done. }
    rewrite Hz, Z.bits_0 in Hk. done.
Qed.

Lemma mask_of_add found seen ix :
  0 <= ix -> mask_of found seen ->
  mask_of (Z.lor found (Z.shiftl 1 ix)) (ix :: seen).
Proof.
  intros Hix Hmask k Hk. rewrite Z.shiftl_1_l, Z.lor_spec, Z.pow2_bits_eqb by done.
  rewrite elem_of_cons. specialize (Hmask k Hk).
  destruct (Z.eqb_spec ix k) as [->|Hne].
  - rewrite orb_true_r. tauto.
  - rewrite orb_false_r. split; [tauto|]. intros [->|?]; [done|tauto].
Qed.

Lemma mask_of_empty : mask_of 0 [].
Proof.
  intros k Hk. rewrite Z.bits_0. split; [done|]. intros H. by apply elem_of_nil in H.
Qed.

(** One turn of the loop, when it passes. *)
Lemma cfg_to_osii_ok sec osip found largest seen st :
  mask_of found seen ->
  cfg_to_osii sec (osip, found, largest) = Ok st ->
  index_in_range (osii_index sec) /\ (osii_index sec ∉ seen) /\
  exists osip',
    st = (osip', Z.lor found (Z.shiftl 1 (osii_index sec)),
          Z.max (osii_index sec) largest) /\
    include_osip osip' = include_osip osip.
Proof.
  intros Hmask. unfold cfg_to_osii. fold (osii_index sec).
  case_decide as Hrange; [done|].
  case_decide as Hdup; [done|].
  intros [= <-]. unfold index_in_range.
  split; [lia|]. split.
  - intros Hin. apply Hmask in Hin; [|lia].
    apply land_bit_test in Hin; [|lia]. done.
  - assert (Hmax : (if decide (osii_index sec > largest) then osii_index sec
                    else largest) = Z.max (osii_index sec) largest).
    { destruct (decide (osii_index sec > largest)); lia. }
    rewrite Hmax. eexists. split; [reflexivity|done].
Qed.

Lemma cfg_to_osii_passes sec osip found largest seen :
  mask_of found seen ->
  index_in_range (osii_index sec) -> osii_index sec ∉ seen ->
  is_ok (cfg_to_osii sec (osip, found, largest)).
Proof.
  intros Hmask Hrange Hnew. unfold cfg_to_osii, index_in_range in *.
  fold (osii_index sec).
  rewrite decide_False by lia.
  rewrite decide_False; [by eexists|].
  intros Hne. apply land_bit_test in Hne; [|lia].
  apply Hnew. apply Hmask; [lia|done].
Qed.

(** The whole loop, when it passes. *)
Lemma osii_loop_ok secs osip found largest seen osip' found' largest' :
  mask_of found seen -> -1 <= largest ->
  while_secs cfg_to_osii secs (osip, found, largest) = Ok (osip', found', largest') ->
  Forall index_in_range (map osii_index secs) /\
  NoDup (map osii_index secs) /\
  (forall ix, ix ∈ map osii_index secs -> ix ∉ seen) /\
  largest' = Z.max (max_index (map osii_index secs)) largest /\
  include_osip osip' = include_osip osip.
Proof.
  revert osip found largest seen.
  induction secs as [|sec secs IH]; intros osip found largest seen Hmask Hl Hrun.
  - simpl in Hrun. injection Hrun as <- <- <-. simpl.
    split; [constructor|]. split; [constructor|]. split.
    + intros ix Hix. by apply elem_of_nil in Hix.
    + split; [lia|done].
  - cbn [while_secs] in Hrun.
    destruct (cfg_to_osii sec (osip, found, largest)) as [st|] eqn:Hstep; [|done].
    destruct (cfg_to_osii_ok _ _ _ _ _ _ Hmask Hstep)
      as (Hrange & Hnew & osip1 & -> & Hinc).
    cbn [bind] in Hrun.
    assert (Hl1 : -1 <= Z.max (osii_index sec) largest) by lia.
    destruct (IH _ _ _ (osii_index sec :: seen)
                (mask_of_add _ _ _ (proj1 Hrange) Hmask) Hl1 Hrun)
      as (Hall & Hnd & Hfresh & Hmax & Hinc').
    simpl. split; [by constructor|]. split.
    + constructor; [|done]. intros Hin. apply (Hfresh _ Hin). by left.
    + split.
      * intros ix Hix Hseen. apply elem_of_cons in Hix as [->|Hix]; [done|].
        apply (Hfresh _ Hix). by right.
      * split; [lia|congruence].
Qed.

(** The loop passes on sections whose indices are in range and distinct. *)
Lemma osii_loop_passes secs osip found largest seen :
  mask_of found seen -> -1 <= largest ->
  Forall index_in_range (map osii_index secs) ->
  NoDup (map osii_index secs) ->
  (forall ix, ix ∈ map osii_index secs -> ix ∉ seen) ->
  exists osip' found',
    while_secs cfg_to_osii secs (osip, found, largest)
      = Ok (osip', found', Z.max (max_index (map osii_index secs)) largest) /\
    mask_of found' (rev (map osii_index secs) ++ seen).
Proof.
  revert osip found largest seen.
  induction secs as [|sec secs IH];
    intros osip found largest seen Hmask Hl Hall Hnd Hfresh.
  - exists osip, found. simpl. split; [|done].
    by replace (Z.max (-1) largest) with largest by lia.
  - simpl in Hall, Hnd. apply Forall_cons in Hall as [Hrange Hall].
    apply NoDup_cons in Hnd as [Hhead Hnd].
    destruct (cfg_to_osii_passes sec osip found largest seen Hmask Hrange)
      as [st Hstep]; [apply Hfresh; by left|].
    destruct (cfg_to_osii_ok _ _ _ _ _ _ Hmask Hstep) as (_ & _ & osip1 & -> & _).
    assert (Hl1 : -1 <= Z.max (osii_index sec) largest) by lia.
    destruct (IH osip1 _ (Z.max (osii_index sec) largest) (osii_index sec :: seen)
                (mask_of_add _ _ _ (proj1 Hrange) Hmask) Hl1 Hall Hnd)
      as (osip' & found' & Hrun & Hmask').
    { intros ix Hix Hseen. apply elem_of_cons in Hseen as [->|Hseen]; [done|].
      apply (Hfresh ix); [by right|done]. }
    exists osip', found'. cbn [while_secs]. rewrite Hstep. cbn [bind map max_index foldr rev].
    split.
    + rewrite Hrun.
      replace (Z.max (max_index (map osii_index secs))
                 (Z.max (osii_index sec) largest))
        with (Z.max (Z.max (osii_index sec) (max_index (map osii_index secs)))
                largest) by lia.
      done.
    + by rewrite <- app_assoc.
Qed.

Lemma max_index_range l :
  Forall index_in_range l -> -1 <= max_index l <= 14.
Proof.
  induction 1 as [|ix l Hix _ IH]; simpl; [lia|]. unfold index_in_range in Hix. lia.
Qed.

(** What a successful projection says about the sections. *)
Lemma mbr_cfg_to_osip_ok cfg osip :
  cfg_include_osip cfg = true -> mbr_cfg_to_osip cfg = Ok osip ->
  Forall index_in_range (osii_indices cfg) /\ NoDup (osii_indices cfg) /\
  num_images osip = max_index (osii_indices cfg) + 1 /\
  1 <= num_images osip <= 15.
Proof.
  intros Hinc. unfold mbr_cfg_to_osip. rewrite Hinc. cbn [negb].
  destruct (while_secs _ _ _) as [[[osip1 found1] largest1]|] eqn:Hloop; [|done].
  cbn [bind].
  assert (Hl0 : -1 <= -1) by lia.
  destruct (osii_loop_ok _ _ _ _ [] _ _ _ mask_of_empty Hl0 Hloop)
    as (Hall & Hnd & _ & Hmax & _).
  pose proof (max_index_range _ Hall) as Hr.
  assert (Hw : wrap8 (largest1 + 1) = largest1 + 1).
  { apply wrap8_small. unfold is_byte. lia. }
  case_decide as Hz; [done|]. intros [= <-]. simpl in *.
  rewrite Hw in *. unfold osii_indices.
  split; [done|]. split; [done|]. lia.
Qed.

(** C8 (as amended). The index of an osii section is its title as
    [strtoul] with base 0 reads it, narrowed to a 32-bit [int]
    ([osii_index]). When [include-osip] is true, the projection fails if
    an index is outside 0..14 or occurs twice; the error is the
    out-of-range one when the sections before the offending one are in
    range and distinct; a section titled "15" makes it fail; and on
    success [num_images] is the highest index plus 1. *)
Theorem osii_projection (cfg : cfg_t) :
  cfg_include_osip cfg = true ->
  (Exists (fun ix => ~ index_in_range ix) (osii_indices cfg) \/
   ~ NoDup (osii_indices cfg) ->
   is_err (mbr_cfg_to_osip cfg)) /\
  (forall pre sec post,
     cfg_osii_secs cfg = pre ++ sec :: post ->
     Forall index_in_range (map osii_index pre) ->
     NoDup (map osii_index pre) ->
     ~ index_in_range (osii_index sec) ->
     mbr_cfg_to_osip cfg = Err OsiiNumber) /\
  (forall sec, sec ∈ cfg_osii_secs cfg -> osii_title sec = "15" ->
     is_err (mbr_cfg_to_osip cfg)) /\
  (forall osip, mbr_cfg_to_osip cfg = Ok osip ->
     num_images osip = max_index (osii_indices cfg) + 1).
Proof.
  intros Hinc.
  assert (Hbad : Exists (fun ix => ~ index_in_range ix) (osii_indices cfg) \/
                 ~ NoDup (osii_indices cfg) -> is_err (mbr_cfg_to_osip cfg)).
  { intros Hbad. destruct (mbr_cfg_to_osip cfg) as [osip|e] eqn:Hrun; [|by eexists].
    destruct (mbr_cfg_to_osip_ok cfg osip Hinc Hrun) as (Hall & Hnd & _).
    destruct Hbad as [Hex|Hdup]; [|done].
    apply Exists_exists in Hex as (ix & Hix & Hout).
    rewrite Forall_forall in Hall. destruct (Hout (Hall ix Hix)). }
  split; [done|]. split; [|split].
  - intros pre sec post Hsecs Hall Hnd Hout.
    unfold mbr_cfg_to_osip. rewrite Hinc, Hsecs. cbn [negb].
    rewrite while_secs_app.
    match goal with |- context [while_secs cfg_to_osii pre (?o, 0, -1)] =>
      destruct (osii_loop_passes pre o 0 (-1) [] mask_of_empty) as (o1 & f1 & -> & _)
    end; [lia|done|done| |].
    { intros ix _ Hin. by apply elem_of_nil in Hin. }
    cbn [bind while_secs]. unfold cfg_to_osii at 1. fold (osii_index sec).
    unfold index_in_range in Hout. rewrite decide_True by lia. done.
  - intros sec Hin Htitle. apply Hbad. left.
    apply Exists_exists. exists (osii_index sec). split.
    + unfold osii_indices. apply list_elem_of_fmap. by exists sec.
    + unfold osii_index, index_in_range. rewrite Htitle. vm_compute.
      intros [_ H]. by apply H.
  - intros osip Hrun. by destruct (mbr_cfg_to_osip_ok cfg osip Hinc Hrun) as (_ & _ & ? & _).
Qed.

Lemma osii_projection_witness :
  is_err (mbr_cfg_to_osip (osip_cfg true [osii_section "1"; osii_section "1"])) /\
  mbr_cfg_to_osip (osip_cfg true [osii_section "0"; osii_section "15"])
    = Err OsiiNumber /\
  is_err (mbr_cfg_to_osip (osip_cfg true [osii_section "15"])) /\
  num_images two_images_osip = 3 + 1.
Proof.
  split; [|split; [|split]].
  - apply (proj1 (osii_projection
             (osip_cfg true [osii_section "1"; osii_section "1"]) eq_refl)).
    right. vm_compute. intros Hnd. apply NoDup_cons in Hnd as [Hin _].
    apply Hin. by left.
  - apply (proj1 (proj2 (osii_projection
             (osip_cfg true [osii_section "0"; osii_section "15"]) eq_refl))
             [osii_section "0"] (osii_section "15") []).
    + reflexivity.
    + repeat constructor; vm_compute; congruence.
    + vm_compute. repeat constructor. intros Hin. by apply elem_of_nil in Hin.
    + vm_compute. intros [_ H]. by apply H.
  - apply (proj1 (proj2 (proj2 (osii_projection
             (osip_cfg true [osii_section "15"]) eq_refl)))
             (osii_section "15")); [by left|reflexivity].
  - apply (proj2 (proj2 (proj2 (osii_projection
             (osip_cfg true [osii_section "3"; osii_section "1"]) eq_refl)))
             two_images_osip).
    vm_compute. reflexivity.
Defined.

(** C8 as stated fails, in two ways. Without [include-osip] the osii
    sections are not looked at, so a section titled "15" is accepted, and
    [num_images] is 0 whatever the indices are. And with [include-osip]
    a title is not taken as the number it spells: "4294967297" is read by
    [strtoul] as 2^32 + 1 and narrowed to the [int] 1, so the section is
    accepted, as index 1, with [num_images] 2. *)
Lemma osii_out_of_range_accepted :
  (osii_indices (osip_cfg false [osii_section "15"]) = [15] /\
   ~ index_in_range 15 /\
   mbr_cfg_to_osip (osip_cfg false [osii_section "15"]) = Ok zero_osip /\
   ~ is_err (mbr_cfg_to_osip (osip_cfg false [osii_section "15"])) /\
   num_images zero_osip <> 15 + 1) /\
  ((strtoul "4294967297").1 = 4294967297 /\
   ~ index_in_range 4294967297 /\
   osii_index (osii_section "4294967297") = 1 /\
   ~ is_err (mbr_cfg_to_osip (osip_cfg true [osii_section "4294967297"])) /\
   match mbr_cfg_to_osip (osip_cfg true [osii_section "4294967297"]) with
   | Ok osip =>
       num_images osip = 2 /\
       descriptors osip !!! 1%nat = osii_of_section (osii_section "4294967297")
   | Err _ => False
   end).
Proof.
  split.
  - split; [reflexivity|]. split; [unfold index_in_range; lia|].
    split; [reflexivity|]. split; [intros [e [=]]|]. simpl. lia.
  - split; [vm_compute; reflexivity|]. split; [unfold index_in_range; lia|].
    split; [vm_compute; reflexivity|].
    split; [intros [e He]; by vm_compute in He|].
    vm_compute. split; reflexivity.
Qed.

(** ** The OSIP checksum *)

Lemma lxor_byte a b : is_byte a -> is_byte b -> is_byte (Z.lxor a b).
Proof.
  unfold is_byte. intros Ha Hb.
  assert (Hm : Z.lxor a b = Z.lxor a b mod 2 ^ 8).
  { rewrite <- (Z.mod_small a (2 ^ 8)) at 1 by lia.
    rewrite <- (Z.mod_small b (2 ^ 8)) at 1 by lia. Z.bitblast. }
  rewrite Hm. apply Z.mod_pos_bound. lia.
Qed.

Lemma fold_lxor_start l a : fold_left Z.lxor l a = Z.lxor a (xor_fold l).
Proof.
  unfold xor_fold. revert a. induction l as [|x l IH]; intros a; cbn [fold_left].
  - by rewrite Z.lxor_0_r.
  - rewrite (IH (Z.lxor a x)), (IH (Z.lxor 0 x)), Z.lxor_0_l.
    by rewrite Z.lxor_assoc.
Qed.

Lemma xor_fold_cons x l : xor_fold (x :: l) = Z.lxor x (xor_fold l).
Proof. unfold xor_fold at 1. simpl. apply fold_lxor_start. Qed.

Lemma xor_fold_byte l : Forall is_byte l -> is_byte (xor_fold l).
Proof.
  induction 1 as [|x l Hx _ IH].
  - unfold xor_fold, is_byte. simpl. lia.
  - rewrite xor_fold_cons. by apply lxor_byte.
Qed.

Lemma lxor_cancel x f v : Z.lxor (Z.lxor (Z.lxor x f) x) v = Z.lxor v f.
Proof.
  apply Z.bits_inj'. intros n Hn. rewrite !Z.lxor_spec.
  by destruct (Z.testbit x n), (Z.testbit f n), (Z.testbit v n).
Qed.

(** Replacing one cell changes the fold by the old and the new value. *)
Lemma xor_fold_insert (l : list Z) i v :
  (i < length l)%nat ->
  xor_fold (<[i := v]> l) = Z.lxor (Z.lxor (xor_fold l) (l !!! i)) v.
Proof.
  revert i. induction l as [|x l IH]; intros i Hi; simpl in Hi; [lia|].
  destruct i as [|i]; simpl.
  - rewrite !xor_fold_cons. symmetry. apply lxor_cancel.
  - rewrite !xor_fold_cons, IH by lia.
    change ((x :: l) !!! S i) with (l !!! i).
    by rewrite !Z.lxor_assoc.
Qed.

(** The loop of [write_osip] computes the fold of the first
    [header_size] bytes. *)
Lemma checksum_loop (out : list Z) n a sum :
  Forall is_byte out -> is_byte sum -> (a + n <= length out)%nat ->
  fold_left (fun sum i => wrap8 (Z.lxor sum (out !!! i))) (seq a n) sum
  = Z.lxor sum (xor_fold (take n (drop a out))).
Proof.
  intros Hout. revert a sum. induction n as [|n IH]; intros a sum Hsum Hlen.
  - simpl. unfold xor_fold. simpl. by rewrite Z.lxor_0_r.
  - cbn [seq fold_left].
    assert (Hb : is_byte (Z.lxor sum (out !!! a))).
    { apply lxor_byte; [done|by apply is_byte_lookup]. }
    rewrite (wrap8_small _ Hb), IH by (done || lia).
    rewrite (drop_S out (out !!! a) a) by (apply list_lookup_lookup_total_lt; lia).
    cbn [take]. rewrite xor_fold_cons. by rewrite Z.lxor_assoc.
Qed.

Lemma osip_checksum_fold (out : list Z) header_size :
  Forall is_byte out -> 1 <= header_size <= Z.of_nat (length out) ->
  osip_checksum out header_size = xor_fold (take (Z.to_nat header_size) out).
Proof.
  intros Hout Hhs. unfold osip_checksum.
  rewrite checksum_loop by (done || by apply is_byte_lookup || lia).
  destruct out as [|x out]; [simpl in Hhs; lia|].
  replace (Z.to_nat header_size) with (S (Z.to_nat header_size - 1)) at 2 by lia.
  cbn [take drop]. rewrite xor_fold_cons. done.
Qed.

Lemma write_osip_checksum_zero osip (output : list Z) :
  Forall is_byte output ->
  0 <= num_images osip -> 32 + 24 * num_images osip <= Z.of_nat (length output) ->
  32 + 24 * num_images osip < 2 ^ 16 ->
  exists out',
    write_osip osip output = (Ok tt, out') /\
    length out' = length output /\
    xor_fold (take (Z.to_nat (32 + 24 * num_images osip)) out') = 0.
Proof.
  intros Hbytes Hn Hfit H16. unfold write_osip.
  assert (Hhs : wrap16 (32 + 24 * num_images osip) = 32 + 24 * num_images osip).
  { apply Z.mod_small. lia. }
  rewrite Hhs.
  match goal with |- context [for_each _ ?l (?o, ?c)] =>
    destruct (write_osii_loop osip l o c)
      as (out1 & cur & -> & Hlen & _ & Hframe & Hb1)
  end.
  assert (Hl1 : length out1 = length output) by (rewrite Hlen; len).
  assert (Hbytes1 : Forall is_byte out1).
  { apply Hb1.
    repeat first
      [ apply Forall_store8 | apply Forall_memset
      | apply Forall_copy_le16 | apply Forall_copy_le32 ]; done. }
  assert (H7 : out1 !!! 7%nat = 0).
  { rewrite Hframe by lia. skip_writes. rewrite store8_eq by len. done. }
  eexists. split; [reflexivity|]. split; [by rewrite length_store8|].
  set (hs := Z.to_nat (32 + 24 * num_images osip)).
  rewrite osip_checksum_fold by (done || lia). fold hs.
  assert (Hsum : is_byte (xor_fold (take hs out1))).
  { apply xor_fold_byte. by apply Forall_take. }
  unfold store8. rewrite (wrap8_small _ Hsum).
  rewrite take_insert_lt by lia.
  rewrite xor_fold_insert by (rewrite length_take; lia).
  rewrite lookup_total_take_lt by lia. rewrite H7.
  rewrite Z.lxor_0_r. apply Z.lxor_nilpotent.
Qed.

(** The start of the header [write_osip] leaves: the text "$OS$" and,
    at offset 9, the number of images. *)
Lemma write_osip_header_start osip (output : list Z) :
  (32 <= length output)%nat ->
  bytes_at (write_osip osip output).2 0 4 = [36; 79; 83; 36] /\
  (write_osip osip output).2 !!! 9%nat = wrap8 (num_images osip).
Proof.
  intros Hfit. unfold write_osip.
  match goal with |- context [for_each _ ?l (?o, ?c)] =>
    destruct (write_osii_loop osip l o c)
      as (out1 & cur & -> & Hlen & _ & Hframe & _)
  end.
  cbn [snd].
  assert (Hl1 : length out1 = length output) by (rewrite Hlen; len).
  assert (H0 : store8 out1 7 (osip_checksum out1
                 (wrap16 (32 + 24 * num_images osip))) !!! 0%nat = 36).
  { rewrite store8_ne by lia. rewrite Hframe by lia.
    skip_writes. by rewrite store8_eq by len. }
  assert (H1 : store8 out1 7 (osip_checksum out1
                 (wrap16 (32 + 24 * num_images osip))) !!! 1%nat = 79).
  { rewrite store8_ne by lia. rewrite Hframe by lia.
    skip_writes. by rewrite store8_eq by len. }
  assert (H2 : store8 out1 7 (osip_checksum out1
                 (wrap16 (32 + 24 * num_images osip))) !!! 2%nat = 83).
  { rewrite store8_ne by lia. rewrite Hframe by lia.
    skip_writes. by rewrite store8_eq by len. }
  assert (H3 : store8 out1 7 (osip_checksum out1
                 (wrap16 (32 + 24 * num_images osip))) !!! 3%nat = 36).
  { rewrite store8_ne by lia. rewrite Hframe by lia.
    skip_writes. by rewrite store8_eq by len. }
  split.
  - apply (bytes_at_eq _ [36; 79; 83; 36]).
    + rewrite length_store8, Hl1. cbn [length]. lia.
    + intros m Hm. cbn [length] in Hm.
      destruct m as [|[|[|[|m]]]]; [exact H0|exact H1|exact H2|exact H3|lia].
  - rewrite store8_ne by lia. rewrite Hframe by lia.
    skip_writes. by rewrite store8_eq by len.
Qed.

(** C4. For every header the projector accepts and every 512-byte
    buffer, [write_osip] succeeds and leaves a buffer of the same length
    that starts with "$OS$" and holds [num_images] at offset 9; the
    header, its first [32 + 24*num_images] bytes, lies within the buffer;
    the byte at offset 7 is the XOR of all the header's bytes with that
    byte taken as 0; and all the header's bytes, the one at offset 7
    included, XOR to 0. *)
Theorem osip_checksum_cancels (cfg : cfg_t) (osip : osip_header)
    (output : list Z) :
  mbr_cfg_to_osip cfg = Ok osip ->
  length output = 512%nat -> Forall is_byte output ->
  exists out',
    write_osip osip output = (Ok tt, out') /\
    length out' = 512%nat /\
    bytes_at out' 0 4 = [36; 79; 83; 36] /\
    out' !!! 9%nat = num_images osip /\
    length (bytes_at out' 0 (Z.to_nat (32 + 24 * num_images osip)))
      = Z.to_nat (32 + 24 * num_images osip) /\
    out' !!! 7%nat =
      xor_fold (<[7%nat := 0]>
                  (bytes_at out' 0 (Z.to_nat (32 + 24 * num_images osip)))) /\
    xor_fold (bytes_at out' 0 (Z.to_nat (32 + 24 * num_images osip))) = 0.
Proof.
  intros Hcfg Hlen Hbytes.
  assert (Hn : 0 <= num_images osip <= 15).
  { destruct (cfg_include_osip cfg) eqn:Hinc.
    - destruct (mbr_cfg_to_osip_ok cfg osip Hinc Hcfg) as (_ & _ & _ & ?). lia.
    - unfold mbr_cfg_to_osip in Hcfg. rewrite Hinc in Hcfg.
      injection Hcfg as <-. simpl. lia. }
  destruct (write_osip_checksum_zero osip output Hbytes)
    as (out' & Hrun & Hlen' & Hxor); [lia|lia|lia|].
  destruct (write_osip_header_start osip output) as [Hsig H9]; [lia|].
  rewrite Hrun in Hsig, H9. cbn [snd] in Hsig, H9.
  set (n := Z.to_nat (32 + 24 * num_images osip)) in *.
  assert (Hn512 : (n <= 512)%nat) by (subst n; lia).
  assert (Hheader : bytes_at out' 0 n = take n out').
  { unfold bytes_at. by rewrite drop_0. }
  assert (Hln : length (take n out') = n).
  { rewrite length_take. lia. }
  exists out'. split; [done|]. split; [congruence|]. split; [done|].
  split; [by rewrite H9, wrap8_small by (unfold is_byte; lia)|].
  rewrite Hheader. split; [done|]. split; [|done].
  rewrite xor_fold_insert by (rewrite Hln; subst n; lia).
  rewrite Hxor, lookup_total_take_lt by (subst n; lia).
  rewrite Z.lxor_0_l, Z.lxor_0_r. done.
Qed.

Lemma osip_checksum_cancels_witness :
  exists out',
    write_osip two_images_osip mixed_buffer = (Ok tt, out') /\
    length out' = 512%nat /\
    bytes_at out' 0 4 = [36; 79; 83; 36] /\
    out' !!! 9%nat = num_images two_images_osip /\
    length (bytes_at out' 0 (Z.to_nat (32 + 24 * num_images two_images_osip)))
      = Z.to_nat (32 + 24 * num_images two_images_osip) /\
    out' !!! 7%nat =
      xor_fold (<[7%nat := 0]>
                  (bytes_at out' 0
                     (Z.to_nat (32 + 24 * num_images two_images_osip)))) /\
    xor_fold (bytes_at out' 0
                (Z.to_nat (32 + 24 * num_images two_images_osip))) = 0.
Proof.
  apply (osip_checksum_cancels
           (osip_cfg true [osii_section "3"; osii_section "1"])).
  - vm_compute. reflexivity.
  - reflexivity.
  - unfold is_byte. refine (bool_decide_unpack _ _). vm_compute. exact I.
Defined.

(** ** The two entry points on an empty partition table *)

(** C10. On a configuration without partition sections [mbr_verify_cfg]
    fails, while [mbr_create_cfg] succeeds whenever the rest of the
    configuration is acceptable to it (the OSIP projection passes, and the
    bootstrap code, if any, decodes and is not combined with OSIP), and the
    record it produces has type 0 in all four entries. *)
Theorem empty_table_verify_vs_create (cfg : cfg_t) :
  cfg_partition_secs cfg = [] ->
  is_err (mbr_verify_cfg cfg) /\
  (forall num_blocks output osip,
     length output = 512%nat ->
     mbr_cfg_to_osip cfg = Ok osip ->
     (cfg_bootstrap_code cfg = None \/
      (include_osip osip = false /\
       exists hex, cfg_bootstrap_code cfg = Some hex /\
                   is_ok (hex_to_bytes hex 440))) ->
     exists out',
       mbr_create_cfg cfg num_blocks output = (Ok tt, out') /\
       forall i, (i < MBR_MAX_PRIMARY_PARTITIONS)%nat ->
         out' !!! (446 + i * 16 + 4)%nat = 0).
Proof.
  intros Hsecs.
  assert (Hparts : mbr_cfg_to_partitions cfg = Ok (zero_table, 0)).
  { unfold mbr_cfg_to_partitions. by rewrite Hsecs. }
  split.
  - unfold mbr_verify_cfg. rewrite Hparts.
    destruct (match cfg_bootstrap_code cfg with Some _ => _ | None => _ end);
      [by eexists|].
    destruct (mbr_cfg_to_osip cfg) as [osip|e]; [|by eexists]. cbn [bind].
    case_decide; [by eexists|]. by eexists.
  - intros num_blocks output osip Hlen Hosip Hboot.
    unfold mbr_create_cfg. rewrite Hparts, Hosip.
    assert (Hcreate : forall bootstrap,
      ~ (is_Some bootstrap /\ include_osip osip = true) ->
      exists out',
        mbr_create zero_table bootstrap osip
          match cfg_signature cfg with
          | Some raw => wrap32 (strtoul raw).1
          | None => 0
          end num_blocks output = (Ok tt, out') /\
        forall i, (i < MBR_MAX_PRIMARY_PARTITIONS)%nat ->
          out' !!! (446 + i * 16 + 4)%nat = 0).
    { intros bootstrap Hboth.
      destruct (mbr_create_spec zero_table bootstrap osip
                  match cfg_signature cfg with
                  | Some raw => wrap32 (strtoul raw).1
                  | None => 0
                  end num_blocks output Hlen eq_refl Hboth)
        as (out' & Hrun & _ & _ & _ & Hfields).
      exists out'. split; [done|]. intros i Hi.
      destruct (Hfields i Hi) as (_ & H4 & _).
      rewrite H4, zero_table_lookup. done. }
    destruct Hboot as [Hnone|(Hinc & hex & Hsome & [bytes Hhex])].
    + rewrite Hnone. apply Hcreate. intros [[? [=]] _].
    + rewrite Hsome, Hhex. apply Hcreate. intros [_ Htrue]. congruence.
Qed.

Lemma empty_table_verify_vs_create_witness :
  is_err (mbr_verify_cfg (osip_cfg false [])) /\
  exists out',
    mbr_create_cfg (osip_cfg false []) 0 zero_buffer = (Ok tt, out') /\
    forall i, (i < MBR_MAX_PRIMARY_PARTITIONS)%nat ->
      out' !!! (446 + i * 16 + 4)%nat = 0.
Proof.
  split; [apply (proj1 (empty_table_verify_vs_create (osip_cfg false []) eq_refl))|].
  apply (proj2 (empty_table_verify_vs_create (osip_cfg false []) eq_refl)
           0 zero_buffer zero_osip).
  - reflexivity.
  - reflexivity.
  - by left.
Defined.

(** ** fwup_sign *)

Section resign_proofs.
Variable crypto_sign : list Z -> list Z -> list Z.
Variable faults : io_faults.

(** The copy loop never runs out of turns: any two amounts of fuel that
    are at least [size_left] give the same result. *)
Lemma copy_data_fuel fuel1 fuel2 path size_left rest written :
  size_left <= Z.of_nat fuel1 -> size_left <= Z.of_nat fuel2 ->
  copy_data faults fuel1 path size_left rest written
  = copy_data faults fuel2 path size_left rest written.
Proof.
  revert fuel2 size_left rest written.
  induction fuel1 as [|fuel1 IH]; intros fuel2 size_left rest written H1 H2.
  - destruct fuel2; cbn [copy_data]; case_decide; (lia || done).
  - destruct fuel2 as [|fuel2]; cbn [copy_data]; case_decide as Hleft; try lia; try done.
    case_decide as Hlen; [done|].
    destruct (write_data_fails faults path _); [done|].
    apply IH; lia.
Qed.

Lemma sign_entry_keeps entries signing_key in_ae st st' :
  in_ae ∈ entries -> sign_state_ok entries st ->
  sign_entry crypto_sign faults signing_key in_ae st = Ok st' ->
  sign_state_ok entries st'.
Proof.
  intros Hin Hst. destruct st as [configtxt out]. unfold sign_entry.
  case_decide as Hsig; [by intros [= <-]|].
  case_decide as Hmeta.
  - destruct configtxt as [text|]; [done|].
    unfold sign_state_ok in Hst. simpl in Hst. subst out.
    unfold archive_read_all_data. case_decide; [done|].
    case_decide; [done|].
    unfold fwfile_add_meta_conf_str.
    destruct (add_meta_conf_fails faults (data in_ae)); [done|].
    cbn [bind app]. intros [= <-]. unfold sign_state_ok. cbn [fst snd].
    eexists _, _. split; [reflexivity|]. split; [done|]. split; [done|].
    by exists in_ae.
  - destruct configtxt as [text|]; [|done]. cbn [negb].
    rewrite bool_decide_eq_true_2 by (by eexists). cbn [negb].
    destruct (write_header_fails faults _); [done|].
    destruct (copy_data _ _ _ _ _ _) as [written|]; [|done].
    cbn [bind]. intros [= <-].
    unfold sign_state_ok in *. cbn [fst snd] in *.
    destruct Hst as (first & rest & -> & Hrest).
    eexists first, _. split; [reflexivity|done].
Qed.

Lemma sign_loop_keeps entries signing_key l st st' :
  (forall e, e ∈ l -> e ∈ entries) -> sign_state_ok entries st ->
  while_secs (sign_entry crypto_sign faults signing_key) l st = Ok st' ->
  sign_state_ok entries st'.
Proof.
  revert st. induction l as [|e l IH]; intros st Hsub Hst Hrun.
  - cbn in Hrun. by injection Hrun as <-.
  - cbn [while_secs] in Hrun.
    destruct (sign_entry _ _ _ e st) as [st1|] eqn:Hstep; [|done].
    cbn [bind] in Hrun. apply (IH st1); [|  |done].
    + intros x Hx. apply Hsub. by right.
    + eapply sign_entry_keeps; [|exact Hst|exact Hstep]. apply Hsub. by left.
Qed.

(** On success the archive starts with [meta.conf], holding the text of
    the [meta.conf] entry of the input. *)
Lemma sign_entries_first signing_key entries out :
  sign_entries crypto_sign faults signing_key entries = Ok out ->
  exists first rest e,
    out = first :: rest /\ pathname first = "meta.conf" /\
    e ∈ entries /\ pathname e = "meta.conf" /\ data first = data e.
Proof.
  unfold sign_entries.
  destruct (while_secs _ _ _) as [[configtxt out1]|] eqn:Hloop; [|done].
  cbn [bind].
  pose proof (sign_loop_keeps entries signing_key entries (None, []) _
                (fun _ H => H) eq_refl Hloop) as Hst.
  destruct configtxt as [text|].
  - rewrite bool_decide_eq_true_2 by (by eexists). cbn [negb]. intros [= <-].
    destruct Hst as (first & rest & Hout & Hname & Hdata & e & He & Hen & Hed).
    cbn [snd] in Hout. exists first, rest, e. by rewrite Hdata, Hed.
  - rewrite bool_decide_eq_false_2 by (by intros [? [=]]). done.
Qed.

(** An entry that is neither [meta.conf] nor a signature, met before any
    [meta.conf], stops the loop. *)
Lemma sign_loop_misordered signing_key pre e post :
  Forall (fun x => pathname x <> "meta.conf") pre ->
  pathname e <> "meta.conf" -> pathname e <> "meta.conf.ed25519" ->
  while_secs (sign_entry crypto_sign faults signing_key) (pre ++ e :: post)
    (None, []) = Err MetaConfNotFirst.
Proof.
  intros Hpre Hmeta Hsig.
  assert (Hother : forall x, pathname x <> "meta.conf" ->
            pathname x <> "meta.conf.ed25519" ->
            sign_entry crypto_sign faults signing_key x (None, [])
            = Err MetaConfNotFirst).
  { intros x Hx1 Hx2. unfold sign_entry. by rewrite !decide_False by done. }
  induction Hpre as [|x pre Hx _ IH]; cbn [app while_secs].
  - by rewrite Hother.
  - destruct (decide (pathname x = "meta.conf.ed25519")) as [Hxs|Hxs].
    + unfold sign_entry at 1. rewrite decide_True by done. cbn [bind]. exact IH.
    + by rewrite Hother.
Qed.

(** What a failed call leaves: the file system as it was, but for the
    temporary file, which is removed once its name is set. *)
Lemma fwup_sign_error fs input_filename output_filename signing_key e fs' :
  fwup_sign crypto_sign faults fs input_filename output_filename signing_key
    = (Err e, fs') ->
  fs' = fs \/
  exists input, input_filename = Some input /\ fs' = delete (input +:+ ".tmp") fs.
Proof.
  unfold fwup_sign.
  destruct (zip_setup_fails faults); [intros [= _ <-]; by left|].
  destruct input_filename as [input|]; [|intros [= _ <-]; by left].
  destruct output_filename as [output|]; [|intros [= _ <-]; by left].
  destruct signing_key as [key|]; [|intros [= _ <-]; by left].
  destruct (malloc_fails faults); [intros [= _ <-]; by left|].
  destruct (fs !! input) as [entries|]; [|intros [= _ <-]; right; by eexists].
  destruct (write_open_fails faults _); [intros [= _ <-]; right; by eexists|].
  destruct (sign_entries _ _ _ _) as [out|]; [|intros [= _ <-]; right; by eexists].
  destruct (rename_fails faults _ _); [|done].
  intros [= _ <-]. right. exists input. split; [done|].
  by rewrite delete_insert_eq.
Qed.

Lemma fwup_sign_success fs input_filename output_filename signing_key fs' :
  fwup_sign crypto_sign faults fs input_filename output_filename signing_key
    = (Ok tt, fs') ->
  exists input output key entries out,
    input_filename = Some input /\ output_filename = Some output /\
    signing_key = Some key /\ fs !! input = Some entries /\
    sign_entries crypto_sign faults key entries = Ok out /\
    fs' = <[output := out]> (delete (input +:+ ".tmp") fs).
Proof.
  unfold fwup_sign.
  destruct (zip_setup_fails faults); [done|].
  destruct input_filename as [input|]; [|done].
  destruct output_filename as [output|]; [|done].
  destruct signing_key as [key|]; [|done].
  destruct (malloc_fails faults); [done|].
  destruct (fs !! input) as [entries|] eqn:Hin; [|done].
  destruct (write_open_fails faults _); [done|].
  destruct (sign_entries _ _ _ _) as [out|] eqn:Hsign; [|done].
  destruct (rename_fails faults _ _); [done|].
  intros [= <-]. exists input, output, key, entries, out.
  rewrite delete_insert_eq. done.
Qed.
End resign_proofs.

(** C7. When an entry other than [meta.conf.ed25519] comes before any
    [meta.conf] entry of the input archive, [fwup_sign] returns an error
    and nothing is produced at the output path: the file system is as it
    was, the temporary file apart. On success the archive at the output
    path starts with the [meta.conf] entry, holding the text of the
    input's [meta.conf]. *)
Theorem resign_meta_conf_first (crypto_sign : list Z -> list Z -> list Z)
    (faults : io_faults) (fs : gmap string (list archive_entry))
    (input output : string) (key : list Z) (entries : list archive_entry) :
  fs !! input = Some entries ->
  (entry_before_meta_conf entries ->
     exists e fs',
       fwup_sign crypto_sign faults fs (Some input) (Some output) (Some key)
         = (Err e, fs') /\
       (fs' = fs \/ fs' = delete (input +:+ ".tmp") fs) /\
       (output <> input +:+ ".tmp" -> fs' !! output = fs !! output)) /\
  (forall fs',
     fwup_sign crypto_sign faults fs (Some input) (Some output) (Some key)
       = (Ok tt, fs') ->
     exists first rest e,
       fs' !! output = Some (first :: rest) /\ pathname first = "meta.conf" /\
       e ∈ entries /\ pathname e = "meta.conf" /\ data first = data e).
Proof.
  intros Hin. split.
  - intros (pre & e & post & -> & Hpre & Hmeta & Hsig).
    destruct (fwup_sign crypto_sign faults fs (Some input) (Some output) (Some key))
      as [[[]|err] fs'] eqn:Hrun.
    + apply fwup_sign_success in Hrun
        as (i & o & k & ents & out & [= <-] & _ & [= <-] & Hents & Hsign & _).
      rewrite Hin in Hents. injection Hents as <-.
      unfold sign_entries in Hsign.
      rewrite (sign_loop_misordered crypto_sign faults key pre e post) in Hsign; done.
    + exists err, fs'. split; [done|].
      apply fwup_sign_error in Hrun as [->|(i & [= <-] & ->)].
      * split; [by left|done].
      * split; [by right|]. intros Hne. by rewrite lookup_delete_ne.
  - intros fs' Hrun.
    apply fwup_sign_success in Hrun
      as (i & o & k & ents & out & [= <-] & [= <-] & [= <-] & Hents & Hsign & ->).
    rewrite Hin in Hents. injection Hents as <-.
    destruct (sign_entries_first _ _ _ _ _ Hsign)
      as (first & rest & e & -> & Hname & He & Hen & Hdata).
    exists first, rest, e. by rewrite lookup_insert_eq.
Qed.

Lemma resign_meta_conf_first_witness :
  (exists e fs',
     fwup_sign toy_sign no_faults misordered_fs
       (Some "fw.fw") (Some "signed.fw") (Some [1; 2; 3]) = (Err e, fs') /\
     (fs' = misordered_fs \/ fs' = delete ("fw.fw" +:+ ".tmp") misordered_fs) /\
     ("signed.fw" <> "fw.fw" +:+ ".tmp" ->
      fs' !! "signed.fw" = misordered_fs !! "signed.fw")) /\
  (exists first rest e,
     signed_fs !! "signed.fw" = Some (first :: rest) /\
     pathname first = "meta.conf" /\
     e ∈ good_archive /\ pathname e = "meta.conf" /\ data first = data e).
Proof.
  split.
  - apply (proj1 (resign_meta_conf_first toy_sign no_faults
             misordered_fs "fw.fw" "signed.fw" [1; 2; 3]
             misordered_archive (lookup_singleton_eq _ _))).
    exists [], (file_entry "data/rootfs.img" [1; 2; 3; 4; 5]),
      [file_entry "meta.conf" conf_text].
    split; [reflexivity|]. split; [constructor|]. split; simpl; congruence.
  - apply (proj2 (resign_meta_conf_first toy_sign no_faults
             good_fs "fw.fw" "signed.fw" [1; 2; 3]
             good_archive (lookup_singleton_eq _ _)) signed_fs).
    vm_compute. reflexivity.
Defined.

(** The re-signed archive of the example: [meta.conf] first, then the new
    signature, then the payload with its mode set to 0644. *)
Example resign_good_archive :
  sign_entries toy_sign no_faults [1; 2; 3] good_archive
  = Ok [ {| pathname := "meta.conf"; size_is_set := true; size := 12;
            entry_filetype := AE_IFREG; perm := 420; data := conf_text |};
         {| pathname := "meta.conf.ed25519"; size_is_set := true; size := 1;
            entry_filetype := AE_IFREG; perm := 420;
            data := toy_sign conf_text [1; 2; 3] |};
         {| pathname := "data/rootfs.img"; size_is_set := true; size := 5;
            entry_filetype := AE_IFREG; perm := 420;
            data := [1; 2; 3; 4; 5] |} ].
Proof. vm_compute. reflexivity. Qed.

Example resign_misordered_archive :
  sign_entries toy_sign no_faults [1; 2; 3] misordered_archive
  = Err MetaConfNotFirst.
Proof. reflexivity. Qed.

(** * Further properties *)

(** ** mbr_verify looks at used slots only *)

Lemma for_each_ext {St : Type} (f g : nat -> St -> res St) l s :
  (forall i s0, i ∈ l -> f i s0 = g i s0) -> for_each f l s = for_each g l s.
Proof.
  revert s. induction l as [|k l IH]; intros s Hext; cbn [for_each]; [done|].
  rewrite (Hext k s) by (by left). destruct (g k s); cbn [bind]; [|done].
  apply IH. intros i s0 Hi. apply Hext. by right.
Qed.

Lemma verify_pair_same_layout (t t' : mbr_table) i il ir j u :
  same_layout (t !!! j) (t' !!! j) ->
  verify_pair t i il ir j u = verify_pair t' i il ir j u.
Proof.
  intros [Hty Hrest]. unfold verify_pair.
  destruct (decide (j = i)); [done|].
  rewrite <- Hty.
  destruct (decide (partition_type (t !!! j) = 0)) as [Hz|Hnz].
  - by rewrite !decide_True by (by left).
  - destruct (Hrest Hnz) as (-> & -> & _). done.
Qed.

Lemma verify_slot_same_layout (t t' : mbr_table) i e :
  (forall j, same_layout (t !!! j) (t' !!! j)) ->
  verify_slot t i e = verify_slot t' i e.
Proof.
  intros Hsame. destruct (Hsame i) as [Hty Hrest]. unfold verify_slot.
  rewrite <- Hty.
  destruct (decide _) as [|_]; [done|].
  destruct (decide (partition_type (t !!! i) = 0)) as [Hz|Hnz]; [done|].
  destruct (Hrest Hnz) as (<- & <- & <-).
  destruct (decide _); [done|]. destruct e; [done|].
  rewrite (for_each_ext _
             (verify_pair t' i (block_offset (t !!! i))
                (wrap32 (block_offset (t !!! i) + block_count (t !!! i))))); [done|].
  intros j u _. by apply verify_pair_same_layout.
Qed.

(** X1. [mbr_verify] gives the same result, error included, on two tables
    that have the same types and agree on the range and [expand_flag] of
    every slot of nonzero type: boot flags and whatever an unused slot
    holds in its offset, count and flags play no part. *)
Theorem mbr_verify_used_slots_only (t t' : mbr_table) :
  (forall i, same_layout (t !!! i) (t' !!! i)) ->
  mbr_verify t = mbr_verify t'.
Proof.
  intros Hsame. unfold mbr_verify.
  rewrite (for_each_ext _ (verify_slot t')); [done|].
  intros i e _. by apply verify_slot_same_layout.
Qed.

Lemma mbr_verify_used_slots_only_witness :
  mbr_verify decorated_table = mbr_verify plain_table.
Proof.
  apply mbr_verify_used_slots_only.
  intros i. unfold same_layout.
  destruct i as [|[|[|[|i]]]]; simpl; (split; [done|]); intros H; done.
Defined.

(** ** The CHS bytes determine the address *)

Lemma chs_middle_sector c s :
  0 <= c < 1024 -> 0 <= s < 64 ->
  Z.lor (Z.shiftl (Z.land (Z.shiftr c 8) 0x3) 6) s mod 64 = s.
Proof.
  intros Hc Hs. change 0x3 with (Z.ones 2). change 64 with (2 ^ 6).
  rewrite <- (Z.mod_small s (2 ^ 6)) at 2 by lia.
  Z.bitblast.
Qed.

Lemma chs_middle_cylinder c s :
  0 <= c < 1024 -> 0 <= s < 64 ->
  Z.lor (Z.shiftl (Z.land (Z.shiftr c 8) 0x3) 6) s / 64 = c / 256.
Proof.
  intros Hc Hs. change 0x3 with (Z.ones 2). change 64 with (2 ^ 6).
  change 256 with (2 ^ 8).
  rewrite <- (Z.mod_small s (2 ^ 6)) by lia.
  rewrite <- (Z.mod_small c (2 ^ 10)) by lia.
  Z.bitblast.
Qed.

Lemma land_255 x : Z.land x 0xFF = x mod 256.
Proof. change 0xFF with (Z.ones 8). by rewrite Z.land_ones by lia. Qed.

(** The address read back from [chs_of]. *)
Lemma chs_of_read_back lba :
  0 <= lba <= 63 * 255 * 1023 ->
  exists head mid low,
    chs_of lba = [head; mid; low] /\
    0 <= head <= 254 /\ 1 <= mid mod 64 <= 63 /\
    0 <= mid / 64 * 256 + low <= 1023 /\
    lba = ((mid / 64 * 256 + low) * 255 + head) * 63 + (mid mod 64 - 1).
Proof.
  intros Hlba. unfold chs_of. eexists _, _, _. split; [reflexivity|].
  assert (Hcyl : 0 <= lba / (63 * 255) < 1024).
  { split; [apply Z.div_pos; lia|]. apply Z.div_lt_upper_bound; lia. }
  assert (Hhead : 0 <= (lba / 63) mod 255 < 255) by (apply Z.mod_pos_bound; lia).
  assert (Hsec : 0 <= lba mod 63 < 63) by (apply Z.mod_pos_bound; lia).
  rewrite chs_middle_sector, chs_middle_cylinder by lia.
  rewrite land_255.
  assert (Hc : lba / (63 * 255) / 256 * 256 + lba / (63 * 255) mod 256
               = lba / (63 * 255)).
  { pose proof (Z.div_mod (lba / (63 * 255)) 256). lia. }
  rewrite Hc.
  assert (Hq : lba / (63 * 255) = lba / 63 / 255) by (by rewrite Z.div_div by lia).
  pose proof (Z.div_mod (lba / 63) 255).
  pose proof (Z.div_mod lba 63).
  lia.
Qed.

(** X2. For an address within CHS reach, the three bytes [lba_to_chs]
    writes hold a head below 255 and a sector in 1..63, and the address
    can be read back from them as [(cyl*255 + head)*63 + sector - 1];
    hence two such addresses with the same bytes are equal. *)
Theorem lba_to_chs_read_back (lba : Z) (output : list Z) (at_ : nat) :
  0 <= lba <= 63 * 255 * 1023 -> (at_ + 3 <= length output)%nat ->
  (exists head mid low,
     bytes_at (lba_to_chs lba output at_) at_ 3 = [head; mid; low] /\
     0 <= head <= 254 /\ 1 <= mid mod 64 <= 63 /\
     0 <= mid / 64 * 256 + low <= 1023 /\
     lba = ((mid / 64 * 256 + low) * 255 + head) * 63 + (mid mod 64 - 1)) /\
  (forall lba' output' at',
     0 <= lba' <= 63 * 255 * 1023 -> (at' + 3 <= length output')%nat ->
     bytes_at (lba_to_chs lba' output' at') at' 3
       = bytes_at (lba_to_chs lba output at_) at_ 3 ->
     lba' = lba).
Proof.
  intros Hlba Hlen.
  assert (Hbytes : forall l (out : list Z) a,
    0 <= l <= 63 * 255 * 1023 -> (a + 3 <= length out)%nat ->
    bytes_at (lba_to_chs l out a) a 3 = chs_of l).
  { intros l out a Hl Ha. apply (bytes_at_eq _ (chs_of l)); simpl.
    - rewrite length_lba_to_chs. lia.
    - intros m Hm. rewrite lba_to_chs_inside by (unfold is_u32; lia || done).
      by rewrite decide_True by lia. }
  split.
  - rewrite Hbytes by done. by apply chs_of_read_back.
  - intros lba' output' at' Hlba' Hlen'. rewrite !Hbytes by done.
    destruct (chs_of_read_back lba Hlba) as (h & m & l & -> & _ & _ & _ & Heq).
    destruct (chs_of_read_back lba' Hlba') as (h' & m' & l' & -> & _ & _ & _ & Heq').
    intros [= -> -> ->]. lia.
Qed.

Lemma lba_to_chs_read_back_witness :
  exists head mid low,
    bytes_at (lba_to_chs 1000000 zero_buffer 447) 447 3 = [head; mid; low] /\
    0 <= head <= 254 /\ 1 <= mid mod 64 <= 63 /\
    0 <= mid / 64 * 256 + low <= 1023 /\
    1000000 = ((mid / 64 * 256 + low) * 255 + head) * 63 + (mid mod 64 - 1).
Proof.
  refine (proj1 (lba_to_chs_read_back 1000000 zero_buffer 447 _ _)).
  - lia.
  - vm_compute; lia.
Defined.

(** ** mbr_create: failure *)

Lemma create_partitions_ok (t : mbr_table) nb l out :
  (create_partitions t nb l out).1 = Ok tt.
Proof.
  revert out. induction l as [|i l IH]; intros out; cbn [create_partitions]; [done|].
  unfold create_partition. apply IH.
Qed.

(** X3. [mbr_create] fails in two cases only, a bootstrap given together
    with OSIP, or a table that [mbr_verify] refuses (whose error it
    passes on), and then the output buffer is as the caller gave it. *)
Theorem mbr_create_failure (t : mbr_table) bootstrap osip signature
    num_blocks (output out' : list Z) e :
  mbr_create t bootstrap osip signature num_blocks output = (Err e, out') ->
  out' = output /\
  ((is_Some bootstrap /\ include_osip osip = true /\ e = BootstrapAndOsip) \/
   mbr_verify t = Err e).
Proof.
  unfold mbr_create. case_decide as Hboth.
  { intros [= <- <-]. split; [done|]. left. tauto. }
  destruct (mbr_verify t) as [[]|e'] eqn:Hver.
  2:{ intros [= <- <-]. split; [done|]. by right. }
  set (out0 := match bootstrap with
               | Some code => memcpy output 0 code 0 440
               | None => memset output 0 0 440 end).
  assert (exists out1,
    (if include_osip osip then write_osip osip out0 else (Ok tt, out0))
      = (Ok tt, out1)) as (out1 & ->).
  { destruct (include_osip osip); [|by eexists].
    destruct (write_osip_ok osip out0) as (o & -> & _). by eexists. }
  match goal with |- context [create_partitions t num_blocks ?l ?o] =>
    pose proof (create_partitions_ok t num_blocks l o) as Hok;
    destruct (create_partitions t num_blocks l o) as [r out2]
  end.
  simpl in Hok. subst r. done.
Qed.

Lemma mbr_create_failure_witness :
  (mbr_create overlapping_table None zero_osip 0 0 ones_buffer).2 = ones_buffer /\
  ((is_Some (@None (list Z)) /\ include_osip zero_osip = true /\
    Overlap 1 50 100 0 1 101 = BootstrapAndOsip) \/
   mbr_verify overlapping_table = Err (Overlap 1 50 100 0 1 101)).
Proof.
  apply (mbr_create_failure overlapping_table None zero_osip 0 0 ones_buffer).
  vm_compute. reflexivity.
Defined.

(** ** write_osip: the layout of the header *)

Lemma store8_at (l : list Z) i k v :
  i = k -> (i < length l)%nat -> store8 l i v !!! k = wrap8 v.
Proof. intros <-. apply store8_eq. Qed.

(** One descriptor: the 24 cells at the cursor. *)
Lemma write_osii_cells osip i (out : list Z) cur m :
  (cur + 24 <= length out)%nat -> (m < 24)%nat ->
  exists out',
    write_osii osip i (out, cur) = Ok (out', (cur + 24)%nat) /\
    out' !!! (cur + m)%nat = osii_bytes (descriptors osip !!! i) !!! m.
Proof.
  intros Hlen Hm. unfold write_osii. eexists. split; [reflexivity|].
  unfold copy_le16, copy_le32. cbn [memset].
  unfold osii_bytes, le16, le32. cbn [app].
  rewrite <- !wrap8_shiftr by lia.
  do 24 (destruct m as [|m];
    [ repeat (rewrite store8_ne by lia);
      rewrite store8_at by len; reflexivity | ]).
  lia.
Qed.

Lemma write_osii_outside osip i (out : list Z) cur k :
  (k < cur \/ cur + 24 <= k)%nat ->
  exists out',
    write_osii osip i (out, cur) = Ok (out', (cur + 24)%nat) /\
    out' !!! k = out !!! k /\ length out' = length out.
Proof.
  intros Hk. unfold write_osii. eexists. split; [reflexivity|].
  split; [by skip_writes|len].
Qed.

(** The descriptor loop: every descriptor in its place, nothing else
    touched. *)
Lemma write_osii_loop_cells osip n a (out : list Z) cur :
  exists out' cur',
    for_each (write_osii osip) (seq a n) (out, cur) = Ok (out', cur') /\
    length out' = length out /\
    (forall k, (k < cur \/ cur + 24 * n <= k)%nat -> out' !!! k = out !!! k) /\
    ((cur + 24 * n <= length out)%nat ->
     forall j m, (j < n)%nat -> (m < 24)%nat ->
       out' !!! (cur + 24 * j + m)%nat
       = osii_bytes (descriptors osip !!! (a + j)%nat) !!! m).
Proof.
  revert a out cur. induction n as [|n IH]; intros a out cur.
  - exists out, cur. cbn. split; [done|]. split; [done|]. split; [done|].
    intros _ j m Hj. lia.
  - cbn [seq for_each].
    destruct (write_osii_outside osip a out cur (cur + 24)%nat) as (out1 & Hstep & _ & Hl1);
      [lia|].
    rewrite Hstep. cbn [bind].
    destruct (IH (S a) out1 (cur + 24)%nat) as (out' & cur' & Hrun & Hl & Hframe & Hcells).
    exists out', cur'. split; [done|]. split; [congruence|]. split.
    + intros k Hk. rewrite Hframe by lia.
      destruct (write_osii_outside osip a out cur k) as (o & Ho & Hsame & _); [lia|].
      rewrite Hstep in Ho. injection Ho as <-. done.
    + intros Hfit j m Hj Hm. destruct j as [|j].
      * rewrite Nat.mul_0_r, !Nat.add_0_r. rewrite Hframe by lia.
        destruct (write_osii_cells osip a out cur m) as (o & Ho & Hcell); [lia|done|].
        rewrite Hstep in Ho. injection Ho as <-. done.
      * replace (cur + 24 * S j + m)%nat with (cur + 24 + 24 * j + m)%nat by lia.
        replace (a + S j)%nat with (S a + j)%nat by lia.
        apply Hcells; [|lia|done]. rewrite Hl1. lia.
Qed.

(** X4. [write_osip] lays the header out as: the signature "$OS$", a zero
    byte, minor, major, the checksum, the number of pointers, the number
    of images, the header size [32 + 24*num_images] on two bytes, 20 zero
    bytes, then one 24-byte descriptor per image, in index order; it
    leaves every byte from the header size on as it was. *)
Theorem write_osip_layout (osip : osip_header) (output : list Z) :
  0 <= num_images osip -> 32 + 24 * num_images osip < 2 ^ 16 ->
  32 + 24 * num_images osip <= Z.of_nat (length output) ->
  exists out',
    write_osip osip output = (Ok tt, out') /\
    length out' = length output /\
    (forall k, (k < 32)%nat -> k <> 7%nat ->
       out' !!! k = osip_fixed_bytes osip !!! k) /\
    (forall i, (i < Z.to_nat (num_images osip))%nat ->
       bytes_at out' (32 + 24 * i) 24 = osii_bytes (descriptors osip !!! i)) /\
    (forall k, 32 + 24 * num_images osip <= Z.of_nat k ->
       out' !!! k = output !!! k).
Proof.
  intros Hn H16 Hfit. unfold write_osip.
  assert (Hhs : wrap16 (32 + 24 * num_images osip) = 32 + 24 * num_images osip).
  { apply Z.mod_small. lia. }
  rewrite Hhs.
  match goal with |- context [for_each _ (seq 0 ?n) (?o, ?c)] =>
    destruct (write_osii_loop_cells osip n 0 o c)
      as (out1 & cur & -> & Hlen & Hframe & Hcells)
  end.
  assert (Hl1 : length out1 = length output) by (rewrite Hlen; len).
  eexists. split; [reflexivity|]. split; [by rewrite length_store8|].
  split; [|split].
  - intros k Hk H7. rewrite store8_ne by done. rewrite Hframe by lia.
    unfold osip_fixed_bytes, le16, copy_le16.
    rewrite <- !wrap8_shiftr by lia.
    destruct (decide (k < 12)%nat) as [Hlow|Hhigh].
    + rewrite memset_outside by lia.
      do 12 (destruct k as [|k];
        [ try done; repeat (rewrite store8_ne by lia);
          rewrite store8_at by len; reflexivity | ]).
      lia.
    + rewrite memset_inside by len.
      do 12 (destruct k as [|k]; [lia|]).
      do 20 (destruct k as [|k]; [reflexivity|]). lia.
  - intros i Hi. apply (bytes_at_eq _ (osii_bytes _)).
    + rewrite (length_store8 out1). rewrite Hl1. simpl. lia.
    + intros m Hm. simpl in Hm. rewrite store8_ne by lia.
      apply Hcells; [len|done|done].
  - intros k Hk. rewrite store8_ne by lia. rewrite Hframe by lia.
    by skip_writes.
Qed.

Lemma write_osip_layout_witness :
  exists out',
    write_osip two_images_header zero_buffer = (Ok tt, out') /\
    length out' = length zero_buffer /\
    (forall k, (k < 32)%nat -> k <> 7%nat ->
       out' !!! k = osip_fixed_bytes two_images_header !!! k) /\
    (forall i, (i < Z.to_nat (num_images two_images_header))%nat ->
       bytes_at out' (32 + 24 * i) 24
       = osii_bytes (descriptors two_images_header !!! i)) /\
    (forall k, 32 + 24 * num_images two_images_header <= Z.of_nat k ->
       out' !!! k = zero_buffer !!! k).
Proof.
  apply (write_osip_layout two_images_header zero_buffer).
  - simpl. lia.
  - simpl. lia.
  - vm_compute. congruence.
Defined.

(** ** mbr_create: the bytes around the partition entries *)

Lemma memcpy_inside n (l : list Z) start src from k :
  (start <= k < start + n)%nat -> (k < length l)%nat ->
  memcpy l start src from n !!! k = wrap8 (src !!! (from + (k - start))%nat).
Proof.
  revert l start from. induction n as [|n IH]; intros l start from Hk Hlen;
    cbn [memcpy]; [lia|].
  destruct (decide (k = start)) as [->|Hne].
  - rewrite memcpy_outside by lia. rewrite store8_eq by done.
    by replace (from + (start - start))%nat with from by lia.
  - rewrite IH by (rewrite ?length_store8; lia).
    by replace (S from + (k - S start))%nat with (from + (k - start))%nat by lia.
Qed.

(** [write_osip] touches nothing from the header size on. *)
Lemma write_osip_above osip (output : list Z) k :
  0 <= num_images osip -> 32 + 24 * num_images osip < 2 ^ 16 ->
  32 + 24 * num_images osip <= Z.of_nat k ->
  (write_osip osip output).2 !!! k = output !!! k.
Proof.
  intros Hn H16 Hk. unfold write_osip.
  match goal with |- context [for_each _ (seq 0 ?n) (?o, ?c)] =>
    destruct (write_osii_loop_cells osip n 0 o c)
      as (out1 & cur & -> & Hlen & Hframe & _)
  end.
  cbn [snd]. rewrite store8_ne by lia. rewrite Hframe by lia. by skip_writes.
Qed.

(** The stages of a successful [mbr_create]. *)
Lemma mbr_create_stages (t : mbr_table) bootstrap osip signature nb
    (output out' : list Z) :
  mbr_create t bootstrap osip signature nb output = (Ok tt, out') ->
  ~ (is_Some bootstrap /\ include_osip osip = true) /\
  mbr_verify t = Ok tt /\
  exists out1 out2,
    out1 = (if include_osip osip
            then (write_osip osip
                    match bootstrap with
                    | Some code => memcpy output 0 code 0 440
                    | None => memset output 0 0 440
                    end).2
            else match bootstrap with
                 | Some code => memcpy output 0 code 0 440
                 | None => memset output 0 0 440
                 end) /\
    create_partitions t nb (seq 0 MBR_MAX_PRIMARY_PARTITIONS)
      (store8 (store8 (copy_le32 out1 440 signature) 444 0) 445 0)
      = (Ok tt, out2) /\
    out' = store8 (store8 out2 510 0x55) 511 0xaa.
Proof.
  unfold mbr_create. case_decide as Hboth; [done|].
  destruct (mbr_verify t) as [[]|e]; [|done].
  set (out0 := match bootstrap with
               | Some code => memcpy output 0 code 0 440
               | None => memset output 0 0 440 end).
  intros Hrun. split; [done|]. split; [done|].
  destruct (include_osip osip).
  - destruct (write_osip_ok osip out0) as (o & Ho & _).
    rewrite Ho in Hrun |- *. cbn [snd].
    destruct (create_partitions _ _ _ _) as [[[]|e] out2] eqn:Hparts; [|done].
    injection Hrun as <-. by exists o, out2.
  - destruct (create_partitions _ _ _ _) as [[[]|e] out2] eqn:Hparts; [|done].
    injection Hrun as <-. by exists out0, out2.
Qed.

(** A cell below the partition entries is what it was before the loop
    over the entries. *)
Lemma mbr_create_low_cell (t : mbr_table) nb (out out2 : list Z) k :
  length out = 512%nat -> (k < 446)%nat ->
  create_partitions t nb (seq 0 MBR_MAX_PRIMARY_PARTITIONS) out = (Ok tt, out2) ->
  store8 (store8 out2 510 0x55) 511 0xaa !!! k = out !!! k.
Proof.
  intros Hlen Hk Hrun.
  destruct (create_partitions_spec t nb (seq 0 MBR_MAX_PRIMARY_PARTITIONS) out)
    as (o & Ho & _ & Hframe & _).
  { apply NoDup_seq. }
  { intros i Hi. apply elem_of_seq in Hi.
    unfold MBR_MAX_PRIMARY_PARTITIONS in Hi. lia. }
  rewrite Hrun in Ho. injection Ho as <-.
  rewrite !store8_ne by lia. apply Hframe. intros i _. lia.
Qed.

(** X5. In the record [mbr_create] produces, bytes 440-443 are the
    signature, little-endian, bytes 444-445 are zero and bytes 510-511
    are [0x55 0xAA]. Bytes 0-439 are the bootstrap code as given; or all
    zero when there is neither bootstrap nor OSIP; or, with OSIP, zero
    from the end of the header to byte 439. *)
Theorem mbr_create_layout (t : mbr_table) bootstrap osip signature
    num_blocks (output out' : list Z) :
  length output = 512%nat ->
  mbr_create t bootstrap osip signature num_blocks output = (Ok tt, out') ->
  length out' = 512%nat /\
  bytes_at out' 440 4 = le32 signature /\
  bytes_at out' 444 2 = [0; 0] /\
  bytes_at out' 510 2 = [0x55; 0xaa] /\
  (forall code, bootstrap = Some code ->
     length code = 440%nat -> Forall is_byte code ->
     bytes_at out' 0 440 = code) /\
  (bootstrap = None -> include_osip osip = false ->
     bytes_at out' 0 440 = replicate 440 0) /\
  (include_osip osip = true ->
     0 <= num_images osip -> 32 + 24 * num_images osip <= 440 ->
     forall k, 32 + 24 * num_images osip <= Z.of_nat k -> (k < 440)%nat ->
       out' !!! k = 0).
Proof.
  intros Hlen Hrun.
  destruct (mbr_create_stages _ _ _ _ _ _ _ Hrun)
    as (Hboth & Hver & out1 & out2 & Hout1 & Hparts & ->).
  assert (Hl1 : length out1 = 512%nat).
  { subst out1. destruct (include_osip osip).
    - destruct (write_osip_ok osip
                  match bootstrap with
                  | Some code => memcpy output 0 code 0 440
                  | None => memset output 0 0 440
                  end) as (o & -> & Hl). cbn [snd].
      rewrite Hl. destruct bootstrap; len.
    - destruct bootstrap; len. }
  assert (Hlow : forall k, (k < 446)%nat ->
    store8 (store8 out2 510 85) 511 170 !!! k
    = store8 (store8 (copy_le32 out1 440 signature) 444 0) 445 0 !!! k).
  { intros k Hk. eapply mbr_create_low_cell; [len|done|exact Hparts]. }
  assert (Hl2 : length out2 = 512%nat).
  { destruct (create_partitions_spec t num_blocks
                (seq 0 MBR_MAX_PRIMARY_PARTITIONS)
                (store8 (store8 (copy_le32 out1 440 signature) 444 0) 445 0))
      as (o & Ho & Hl & _).
    - apply NoDup_seq.
    - intros i Hi. apply elem_of_seq in Hi.
      unfold MBR_MAX_PRIMARY_PARTITIONS in Hi.
      rewrite !length_store8, length_copy_le32, Hl1. lia.
    - rewrite Hparts in Ho. injection Ho as <-.
      rewrite Hl. len. }
  split; [len|]. split; [|split; [|split; [|split; [|split]]]].
  - apply (bytes_at_eq _ (le32 signature)); [simpl; len|].
    intros m Hm. simpl in Hm. rewrite Hlow by lia. skip_writes.
    apply copy_le32_inside; lia.
  - apply (bytes_at_eq _ [0; 0]); [simpl; len|].
    intros m Hm. simpl in Hm. rewrite Hlow by lia.
    destruct m as [|[|m]]; [| |lia]; simpl.
    + skip_writes. by rewrite store8_at by len.
    + by rewrite store8_at by len.
  - apply (bytes_at_eq _ [0x55; 0xaa]); [simpl; len|].
    intros m Hm. simpl in Hm.
    destruct m as [|[|m]]; [| |lia]; simpl.
    + skip_writes. by rewrite store8_at by len.
    + by rewrite store8_at by len.
  - intros code -> Hcl Hcb.
    assert (Hosip : include_osip osip = false).
    { destruct (include_osip osip); [|done]. destruct Hboth. by split; [eexists|]. }
    rewrite Hosip in Hout1. subst out1.
    generalize (bytes_at_eq
      (store8 (store8 out2 510 85) 511 170) code 0). rewrite Hcl.
    intros Heq. apply Heq; [len|].
    intros m Hm. rewrite Hlow by lia. skip_writes.
    rewrite memcpy_inside by lia.
    replace (0 + (0 + m - 0))%nat with m by lia.
    apply wrap8_small. by apply is_byte_lookup.
  - intros -> Hosip. rewrite Hosip in Hout1. subst out1.
    generalize (bytes_at_eq
      (store8 (store8 out2 510 85) 511 170) (replicate 440 0) 0).
    rewrite length_replicate. intros Heq. apply Heq; [len|].
    intros m Hm. rewrite Hlow by lia. skip_writes.
    rewrite memset_inside by lia.
    by rewrite lookup_total_replicate_2 by done.
  - intros Hosip Hn Hfit k Hk Hk440.
    assert (Hnone : bootstrap = None).
    { destruct bootstrap; [|done]. destruct Hboth. by split; [eexists|]. }
    rewrite Hosip, Hnone in Hout1. subst out1.
    rewrite Hlow by lia. skip_writes.
    rewrite write_osip_above by lia.
    by rewrite memset_inside by lia.
Qed.

Lemma mbr_create_layout_witness :
  bytes_at (mbr_create adjacent_table (Some counting_code) zero_osip
              0x12345678 0 ones_buffer).2 440 4 = le32 0x12345678 /\
  bytes_at (mbr_create adjacent_table (Some counting_code) zero_osip
              0x12345678 0 ones_buffer).2 0 440 = counting_code.
Proof.
  destruct (mbr_create_layout adjacent_table (Some counting_code) zero_osip
              0x12345678 0 ones_buffer
              (mbr_create adjacent_table (Some counting_code) zero_osip
                 0x12345678 0 ones_buffer).2)
    as (_ & Hsig & _ & _ & Hcode & _).
  - reflexivity.
  - vm_compute. reflexivity.
  - split; [exact Hsig|]. apply Hcode; [reflexivity|reflexivity|].
    unfold counting_code. apply Forall_forall. intros x Hx.
    apply list_elem_of_fmap in Hx as (k & -> & _). unfold is_byte.
    apply Z.mod_pos_bound. lia.
Defined.

(** ** What each error of mbr_verify stands for *)

(** A loop that fails fails in one of its turns, entered in a state the
    invariant holds of. *)
Lemma for_each_seq_err {St : Type} (I : nat -> St -> Prop)
    (body : nat -> St -> res St) n a s e :
  I a s ->
  (forall i s0 s1, (a <= i < a + n)%nat -> I i s0 -> body i s0 = Ok s1 ->
                   I (S i) s1) ->
  for_each body (seq a n) s = Err e ->
  exists i s0, (a <= i < a + n)%nat /\ I i s0 /\ body i s0 = Err e.
Proof.
  revert a s. induction n as [|n IH]; intros a s Ha Hstep; cbn [seq for_each];
    [done|].
  destruct (body a s) as [s1|e1] eqn:Hbody; cbn [bind].
  - intros Hrun.
    destruct (IH (S a) s1) as (i & s0 & Hi & HI & Hb); [| |done|].
    + apply (Hstep a s); [lia|done|done].
    + intros i s0 s2 Hi. apply Hstep. lia.
    + exists i, s0. split; [lia|done].
  - intros [= ->]. exists a, s. split; [lia|done].
Qed.

Lemma verify_pair_err (t : mbr_table) i il ir j u e :
  verify_pair t i il ir j u = Err e ->
  j <> i /\ partition_type (t !!! j) <> 0 /\
  ((il >= block_offset (t !!! j) /\
    il < wrap32 (block_offset (t !!! j) + block_count (t !!! j))) \/
   (ir > block_offset (t !!! j) /\
    ir <= wrap32 (block_offset (t !!! j) + block_count (t !!! j)))) /\
  e = Overlap i il ir j (block_offset (t !!! j))
        (wrap32 (block_offset (t !!! j) + block_count (t !!! j))).
Proof.
  unfold verify_pair. destruct (decide (j = i)); [done|].
  case_decide as Hskip; [done|]. case_decide as Hcond; [|done].
  intros [= <-]. split; [done|]. split; [tauto|]. done.
Qed.

(** A failing turn of the outer loop. *)
Lemma verify_slot_err (t : mbr_table) i ex e :
  verify_slot t i ex = Err e ->
  (e = InvalidPartitionType /\
   (partition_type (t !!! i) > 255 \/ partition_type (t !!! i) < 0)) \/
  (e = ExpandNotLast /\ ex = true /\ partition_type (t !!! i) <> 0) \/
  (exists j, (j < MBR_MAX_PRIMARY_PARTITIONS)%nat /\ j <> i /\
     partition_type (t !!! i) <> 0 /\ partition_type (t !!! j) <> 0 /\
     e = Overlap i (block_offset (t !!! i))
           (wrap32 (block_offset (t !!! i) + block_count (t !!! i)))
           j (block_offset (t !!! j))
           (wrap32 (block_offset (t !!! j) + block_count (t !!! j)))).
Proof.
  unfold verify_slot. case_decide as Hty.
  { intros [= <-]. left. done. }
  case_decide as Hz; [done|]. case_decide as Hempty; [done|].
  destruct ex.
  { intros [= <-]. right. left. done. }
  destruct (for_each _ _ _) as [[]|e1] eqn:Hloop; cbn [bind]; [done|].
  intros [= ->]. right. right.
  destruct (for_each_seq_err (fun _ _ => True) _ _ _ _ _ I
              (fun _ _ _ _ _ _ => I) Hloop) as (j & u & Hj & _ & Hpair).
  apply verify_pair_err in Hpair as (Hji & Htj & _ & ->).
  exists j. split; [lia|]. done.
Qed.

(** The failing turn of [mbr_verify], and what [expanding] stands for
    when it is entered. *)
Lemma mbr_verify_err_slot (t : mbr_table) e :
  mbr_verify t = Err e ->
  exists i ex, (i < MBR_MAX_PRIMARY_PARTITIONS)%nat /\
    verify_slot t i ex = Err e /\
    (ex = true -> exists k, (k < i)%nat /\ expand_flag (t !!! k) = true /\
                            partition_type (t !!! k) <> 0).
Proof.
  unfold mbr_verify.
  destruct (for_each _ _ _) as [ex|e1] eqn:Hloop; cbn [bind]; [done|].
  intros [= ->].
  destruct (for_each_seq_err
              (fun i ex => ex = true ->
                 exists k, (k < i)%nat /\ expand_flag (t !!! k) = true /\
                           partition_type (t !!! k) <> 0)
              (verify_slot t) MBR_MAX_PRIMARY_PARTITIONS 0 false e)
    as (i & ex & Hi & Hinv & Hslot); [intros [=]| |exact Hloop|].
  - intros i ex ex' _ Hinv Hturn Hex'.
    destruct ex.
    + destruct (Hinv eq_refl) as (k & Hk & Hrest). exists k. split; [lia|done].
    + exists i. split; [lia|]. revert Hturn. unfold verify_slot.
      repeat case_decide; try congruence.
      destruct (for_each (verify_pair _ _ _ _) _ _); cbn [bind];
        [|intros [=]].
      destruct (expand_flag (t !!! i)); [by split|intros [=]; congruence].
  - exists i, ex. split; [lia|done].
Qed.

(** X6. Each error of [mbr_verify] names its cause: [InvalidPartitionType]
    comes with a slot whose type is outside 0..255, [ExpandNotLast] with a
    used slot behind a used slot that has [expand_flag], and every other
    error is an [Overlap] that carries the indices and the ranges, as the
    code computes them, of two different used slots. *)
Theorem mbr_verify_error_sound (t : mbr_table) (e : error) :
  mbr_verify t = Err e ->
  (e = InvalidPartitionType /\
   exists i, (i < MBR_MAX_PRIMARY_PARTITIONS)%nat /\
     (partition_type (t !!! i) > 255 \/ partition_type (t !!! i) < 0)) \/
  (e = ExpandNotLast /\
   exists k i, (k < i < MBR_MAX_PRIMARY_PARTITIONS)%nat /\
     expand_flag (t !!! k) = true /\
     partition_type (t !!! k) <> 0 /\ partition_type (t !!! i) <> 0) \/
  (exists i j, (i < MBR_MAX_PRIMARY_PARTITIONS)%nat /\
     (j < MBR_MAX_PRIMARY_PARTITIONS)%nat /\ i <> j /\
     partition_type (t !!! i) <> 0 /\ partition_type (t !!! j) <> 0 /\
     e = Overlap i (block_offset (t !!! i))
           (wrap32 (block_offset (t !!! i) + block_count (t !!! i)))
           j (block_offset (t !!! j))
           (wrap32 (block_offset (t !!! j) + block_count (t !!! j)))).
Proof.
  intros Hrun.
  destruct (mbr_verify_err_slot t e Hrun) as (i & ex & Hi & Hslot & Hinv).
  destruct (verify_slot_err t i ex e Hslot)
    as [[-> Hty]|[(-> & -> & Hty)|(j & Hj & Hji & Hti & Htj & ->)]].
  - left. split; [done|]. by exists i.
  - right. left. split; [done|].
    destruct (Hinv eq_refl) as (k & Hk & Hex & Htk).
    exists k, i. split; [lia|done].
  - right. right. exists i, j. split; [done|]. split; [done|].
    split; [congruence|done].
Qed.

Lemma mbr_verify_error_sound_witness :
  exists k i, (k < i < MBR_MAX_PRIMARY_PARTITIONS)%nat /\
    expand_flag (expand_first_table !!! k) = true /\
    partition_type (expand_first_table !!! k) <> 0 /\
    partition_type (expand_first_table !!! i) <> 0.
Proof.
  destruct (mbr_verify_error_sound expand_first_table ExpandNotLast)
    as [[Hno _]|[[_ Hex]|(i & j & _ & _ & _ & _ & _ & Hno)]].
  - vm_compute. reflexivity.
  - discriminate Hno.
  - exact Hex.
  - discriminate Hno.
Defined.

(** ** mbr_decode: what it reads, and what it gives *)

Lemma land_128 x : Z.land x 0x80 <> 0 <-> Z.testbit x 7 = true.
Proof. apply (land_bit_test x 7). lia. Qed.

Lemma read_partition_same (a b : list Z) at_ p :
  Z.testbit (a !!! at_) 7 = Z.testbit (b !!! at_) 7 ->
  a !!! (at_ + 4)%nat = b !!! (at_ + 4)%nat ->
  (forall m, (8 <= m < 16)%nat -> a !!! (at_ + m)%nat = b !!! (at_ + m)%nat) ->
  read_partition a at_ p = read_partition b at_ p.
Proof.
  intros Hboot Hty Hrest. unfold read_partition.
  rewrite Hty, !Hrest by lia.
  assert (Hb : (if decide (Z.land (a !!! at_) 128 <> 0) then true else false)
               = (if decide (Z.land (b !!! at_) 128 <> 0) then true else false)).
  { destruct (decide (Z.land (a !!! at_) 128 <> 0)) as [Ha|Ha];
      destruct (decide (Z.land (b !!! at_) 128 <> 0)) as [Hb|Hb]; try done;
      rewrite land_128 in Ha, Hb; congruence. }
  by rewrite Hb.
Qed.

Lemma read_partitions_same (a b : list Z) l (t : mbr_table) :
  (forall i, i ∈ l ->
     Z.testbit (a !!! (446 + i * 16)%nat) 7
       = Z.testbit (b !!! (446 + i * 16)%nat) 7 /\
     a !!! (446 + i * 16 + 4)%nat = b !!! (446 + i * 16 + 4)%nat /\
     forall m, (8 <= m < 16)%nat ->
       a !!! (446 + i * 16 + m)%nat = b !!! (446 + i * 16 + m)%nat) ->
  read_partitions a l t = read_partitions b l t.
Proof.
  revert t. induction l as [|i l IH]; intros t Hsame; cbn [read_partitions];
    [done|].
  destruct (Hsame i) as (Hboot & Hty & Hrest); [by left|].
  rewrite (read_partition_same a b (446 + i * 16) (t !!! i)) by done.
  destruct (read_partition b _ _) as [[[]|e] p]; [|done].
  apply IH. intros j Hj. apply Hsame. by right.
Qed.

(** X7. [mbr_decode] looks at the trailer and, of each of the four
    entries, at bit 7 of the first byte, at the type byte and at the two
    32-bit fields: two records that agree there decode alike, whatever
    their bootstrap area, signature and CHS bytes hold and whatever table
    the caller passes. *)
Theorem mbr_decode_reads (a b : list Z) (ta tb : mbr_table) :
  same_entries a b -> mbr_decode a ta = mbr_decode b tb.
Proof.
  intros (H510 & H511 & Hentries). unfold mbr_decode.
  rewrite H510, H511. case_decide; [done|].
  apply read_partitions_same. intros i Hi. apply Hentries.
  apply elem_of_seq in Hi. lia.
Qed.

Lemma mbr_decode_reads_witness :
  mbr_decode far_record_plain zero_table
  = mbr_decode far_record_code adjacent_table.
Proof.
  apply mbr_decode_reads.
  split; [vm_compute; reflexivity|]. split; [vm_compute; reflexivity|].
  intros i Hi. unfold MBR_MAX_PRIMARY_PARTITIONS in Hi.
  destruct i as [|[|[|[|i]]]]; [| | | |lia];
    (split; [vm_compute; reflexivity|]; split; [vm_compute; reflexivity|];
     intros m Hm;
     do 16 (destruct m as [|m]; [try lia; vm_compute; reflexivity|]); lia).
Defined.

(** The value the shifts and ors of [read_partition] give on bytes. *)
Lemma read_le32_value (l : list Z) a :
  Forall is_byte l ->
  wrap32 (Z.lor (Z.lor (Z.lor (l !!! a)
    (Z.shiftl (l !!! (a + 1)%nat) 8))
    (Z.shiftl (l !!! (a + 2)%nat) 16))
    (Z.shiftl (l !!! (a + 3)%nat) 24)) = le32_value l a.
Proof.
  intros Hl. unfold le32_value.
  pose proof (is_byte_lookup l a Hl) as H0.
  pose proof (is_byte_lookup l (a + 1) Hl) as H1.
  pose proof (is_byte_lookup l (a + 2) Hl) as H2.
  pose proof (is_byte_lookup l (a + 3) Hl) as H3.
  unfold is_byte in *.
  generalize dependent (l !!! a). generalize dependent (l !!! (a + 1)%nat).
  generalize dependent (l !!! (a + 2)%nat).
  generalize dependent (l !!! (a + 3)%nat).
  intros b3 H3 b2 H2 b1 H1 b0 H0.
  set (v := b0 + 2 ^ 8 * b1 + 2 ^ 16 * b2 + 2 ^ 24 * b3).
  assert (Hv : is_u32 v) by (unfold is_u32, v; lia).
  assert (D1 : v / 2 ^ 8 = b1 + 2 ^ 8 * b2 + 2 ^ 16 * b3).
  { symmetry. apply (Z.div_unique_pos v (2 ^ 8) _ b0); unfold v; lia. }
  assert (D2 : v / 2 ^ 16 = b2 + 2 ^ 8 * b3).
  { symmetry. apply (Z.div_unique_pos v (2 ^ 16) _ (b0 + 2 ^ 8 * b1));
      unfold v; lia. }
  assert (D3 : v / 2 ^ 24 = b3).
  { symmetry.
    apply (Z.div_unique_pos v (2 ^ 24) _ (b0 + 2 ^ 8 * b1 + 2 ^ 16 * b2));
      unfold v; lia. }
  assert (M0 : v mod 256 = b0).
  { symmetry.
    apply (Z.mod_unique_pos v 256 (b1 + 2 ^ 8 * b2 + 2 ^ 16 * b3));
      unfold v; lia. }
  assert (M1 : v / 2 ^ 8 mod 256 = b1).
  { rewrite D1. symmetry. apply (Z.mod_unique_pos _ 256 (b2 + 2 ^ 8 * b3)); lia. }
  assert (M2 : v / 2 ^ 16 mod 256 = b2).
  { rewrite D2. symmetry. apply (Z.mod_unique_pos _ 256 b3); lia. }
  assert (M3 : v / 2 ^ 24 mod 256 = b3).
  { rewrite D3. apply Z.mod_small. lia. }
  pose proof (le32_read_back v Hv) as Hback.
  by rewrite M0, M1, M2, M3 in Hback.
Qed.

Lemma read_partition_fields (input : list Z) at_ p :
  Forall is_byte input ->
  let q := (read_partition input at_ p).2 in
  partition_type q = input !!! (at_ + 4)%nat /\
  block_offset q = le32_value input (at_ + 8) /\
  block_count q = le32_value input (at_ + 12) /\
  (boot_flag q = true <-> 128 <= input !!! at_) /\
  expand_flag q = expand_flag p.
Proof.
  intros Hl q. subst q. unfold read_partition.
  cbn [snd partition_type block_offset block_count boot_flag expand_flag].
  split; [done|].
  pose proof (read_le32_value input (at_ + 8) Hl) as H8.
  pose proof (read_le32_value input (at_ + 12) Hl) as H12.
  replace (at_ + 8 + 1)%nat with (at_ + 9)%nat in H8 by lia.
  replace (at_ + 8 + 2)%nat with (at_ + 10)%nat in H8 by lia.
  replace (at_ + 8 + 3)%nat with (at_ + 11)%nat in H8 by lia.
  replace (at_ + 12 + 1)%nat with (at_ + 13)%nat in H12 by lia.
  replace (at_ + 12 + 2)%nat with (at_ + 14)%nat in H12 by lia.
  replace (at_ + 12 + 3)%nat with (at_ + 15)%nat in H12 by lia.
  split; [exact H8|]. split; [exact H12|]. split; [|done].
  pose proof (is_byte_lookup input at_ Hl) as Hb. unfold is_byte in Hb.
  assert (Hbit : Z.testbit (input !!! at_) 7 = true <-> 128 <= input !!! at_).
  { generalize dependent (input !!! at_). intros b Hb.
    rewrite Z.testbit_true by lia. change (2 ^ 7) with 128.
    split.
    - intros Hodd. destruct (decide (128 <= b)) as [|Hlt]; [done|].
      rewrite Z.div_small in Hodd by lia. done.
    - intros Hge. replace (b / 128) with 1; [done|].
      apply (Z.div_unique_pos b 128 1 (b - 128)); lia. }
  rewrite <- Hbit, <- land_128. case_decide; split; try done.
Qed.

Lemma le32_value_u32 (l : list Z) a : Forall is_byte l -> is_u32 (le32_value l a).
Proof.
  intros Hl. unfold le32_value, is_u32.
  pose proof (is_byte_lookup l a Hl) as H0.
  pose proof (is_byte_lookup l (a + 1) Hl) as H1.
  pose proof (is_byte_lookup l (a + 2) Hl) as H2.
  pose proof (is_byte_lookup l (a + 3) Hl) as H3.
  unfold is_byte in *. lia.
Qed.

(** X8. On a record of bytes that holds the trailer, [mbr_decode] gives a
    table of four slots; slot [i] has the type byte of entry [i] as its
    type, the two little-endian numbers at offsets 8 and 12 as its block
    offset and count, the boot flag set when the first byte is 128 or
    more, and no [expand_flag]. *)
Theorem mbr_decode_fields (input : list Z) (t0 t' : mbr_table) :
  Forall is_byte input ->
  mbr_decode input t0 = (Ok tt, t') ->
  table_ok t' /\
  forall i, (i < MBR_MAX_PRIMARY_PARTITIONS)%nat ->
    partition_type (t' !!! i) = input !!! (446 + i * 16 + 4)%nat /\
    0 <= partition_type (t' !!! i) <= 255 /\
    block_offset (t' !!! i) = le32_value input (446 + i * 16 + 8) /\
    block_count (t' !!! i) = le32_value input (446 + i * 16 + 12) /\
    (boot_flag (t' !!! i) = true <-> 128 <= input !!! (446 + i * 16)%nat) /\
    expand_flag (t' !!! i) = false.
Proof.
  intros Hl Hrun.
  assert (Htrailer : input !!! 510%nat = 0x55 /\ input !!! 511%nat = 0xaa).
  { revert Hrun. unfold mbr_decode. case_decide as Hbad; [done|].
    intros _. split.
    - destruct (decide (input !!! 510%nat = 0x55)); [done|]. tauto.
    - destruct (decide (input !!! 511%nat = 0xaa)); [done|]. tauto. }
  destruct Htrailer as [H55 Haa].
  destruct (mbr_decode_ok input t0 H55 Haa) as (t1 & Hrun1 & Hlen & Hslots & _).
  rewrite Hrun in Hrun1. injection Hrun1 as <-.
  assert (Hfields : forall i, (i < MBR_MAX_PRIMARY_PARTITIONS)%nat ->
    partition_type (t' !!! i) = input !!! (446 + i * 16 + 4)%nat /\
    0 <= partition_type (t' !!! i) <= 255 /\
    block_offset (t' !!! i) = le32_value input (446 + i * 16 + 8) /\
    block_count (t' !!! i) = le32_value input (446 + i * 16 + 12) /\
    (boot_flag (t' !!! i) = true <-> 128 <= input !!! (446 + i * 16)%nat) /\
    expand_flag (t' !!! i) = false).
  { intros i Hi. rewrite (Hslots i Hi).
    destruct (read_partition_fields input (446 + i * 16) zero_partition Hl)
      as (Hty & Hoff & Hcnt & Hboot & Hex).
    split; [done|]. split.
    - rewrite Hty.
      pose proof (is_byte_lookup input (446 + i * 16 + 4) Hl) as Hb.
      unfold is_byte in Hb. lia.
    - done. }
  split; [|done].
  split; [done|]. apply Forall_lookup_2. intros i p Hp.
  assert (Hi : (i < MBR_MAX_PRIMARY_PARTITIONS)%nat).
  { rewrite <- Hlen. by eapply lookup_lt_Some. }
  destruct (Hfields i Hi) as (_ & Hty & Hoff & Hcnt & _).
  rewrite (list_lookup_total_correct _ _ _ Hp) in Hty, Hoff, Hcnt.
  split; [lia|]. rewrite Hoff, Hcnt. split; by apply le32_value_u32.
Qed.

Lemma mbr_decode_fields_witness :
  table_ok (mbr_decode far_record_code zero_table).2 /\
  block_offset ((mbr_decode far_record_code zero_table).2 !!! 0%nat)
  = le32_value far_record_code 454.
Proof.
  destruct (mbr_decode_fields far_record_code zero_table
              (mbr_decode far_record_code zero_table).2) as [Hok Hslots].
  - unfold is_byte. refine (bool_decide_unpack _ _). vm_compute. exact I.
  - vm_compute. reflexivity.
  - split; [exact Hok|]. by destruct (Hslots 0%nat) as (_ & _ & Hoff & _);
      [unfold MBR_MAX_PRIMARY_PARTITIONS; lia|].
Defined.

(** X9. A table that [mbr_decode] gave for a record of bytes can be
    refused by [mbr_verify] for overlapping partitions only: its types
    are bytes and no slot has [expand_flag]. *)
Theorem mbr_verify_decoded (input : list Z) (t0 t' : mbr_table) (e : error) :
  Forall is_byte input ->
  mbr_decode input t0 = (Ok tt, t') ->
  mbr_verify t' = Err e ->
  exists i j, i <> j /\
    e = Overlap i (block_offset (t' !!! i))
          (wrap32 (block_offset (t' !!! i) + block_count (t' !!! i)))
          j (block_offset (t' !!! j))
          (wrap32 (block_offset (t' !!! j) + block_count (t' !!! j))).
Proof.
  intros Hl Hrun Hver.
  assert (Hshape : forall i, 0 <= partition_type (t' !!! i) <= 255 /\
                             expand_flag (t' !!! i) = false).
  { revert Hrun. unfold mbr_decode. case_decide as Hbad; [done|]. intros Hrun.
    destruct (mbr_decode_ok input t0) as (t1 & Hrun1 & _ & Hlow & Hhigh).
    { destruct (decide (input !!! 510%nat = 0x55)); [done|]. tauto. }
    { destruct (decide (input !!! 511%nat = 0xaa)); [done|]. tauto. }
    unfold mbr_decode in Hrun1. rewrite decide_False in Hrun1 by done.
    rewrite Hrun in Hrun1. injection Hrun1 as <-.
    intros i. destruct (decide (i < MBR_MAX_PRIMARY_PARTITIONS)%nat) as [Hi|Hi].
    - rewrite (Hlow i Hi).
      destruct (read_partition_fields input (446 + i * 16) zero_partition Hl)
        as (Hty & _ & _ & _ & Hex).
      rewrite Hty, Hex.
      pose proof (is_byte_lookup input (446 + i * 16 + 4) Hl) as Hb.
      unfold is_byte in Hb. split; [lia|done].
    - rewrite Hhigh by lia. simpl. split; [lia|done]. }
  destruct (mbr_verify_err_slot t' e Hver) as (i & ex & Hi & Hslot & Hinv).
  destruct (verify_slot_err t' i ex e Hslot)
    as [[_ Hty]|[(_ & -> & _)|(j & _ & Hji & _ & _ & ->)]].
  - destruct (Hshape i) as [Hrange _]. lia.
  - destruct (Hinv eq_refl) as (k & _ & Hex & _).
    destruct (Hshape k) as [_ Hno]. congruence.
  - exists i, j. split; [congruence|done].
Qed.

Lemma mbr_verify_decoded_witness :
  exists i j, i <> j /\
    Overlap 1 50 100 0 1 101
    = Overlap i
        (block_offset ((mbr_decode overlapping_record zero_table).2 !!! i))
        (wrap32 (block_offset ((mbr_decode overlapping_record zero_table).2 !!! i)
                 + block_count ((mbr_decode overlapping_record zero_table).2 !!! i)))
        j
        (block_offset ((mbr_decode overlapping_record zero_table).2 !!! j))
        (wrap32 (block_offset ((mbr_decode overlapping_record zero_table).2 !!! j)
                 + block_count ((mbr_decode overlapping_record zero_table).2 !!! j))).
Proof.
  apply (mbr_verify_decoded overlapping_record zero_table).
  - unfold is_byte. refine (bool_decide_unpack _ _). vm_compute. exact I.
  - vm_compute. reflexivity.
  - vm_compute. reflexivity.
Defined.

(** ** mbr_cfg_to_partitions *)

Lemma digit_in_nonneg base c d : digit_in base c = Some d -> 0 <= d.
Proof.
  unfold digit_in. destruct (digit_value c) as [d'|] eqn:Hv; [|done].
  case_decide; [|done]. intros [= <-].
  unfold digit_value in Hv. repeat case_decide; try done;
    injection Hv as <-; lia.
Qed.

Lemma scan_digits_nonneg base s acc any :
  0 <= base -> 0 <= acc -> 0 <= (scan_digits base s acc any).1.1.
Proof.
  intros Hb. revert acc any. induction s as [|c s IH]; intros acc any Hacc;
    cbn [scan_digits]; [done|].
  destruct (digit_in base c) as [d|] eqn:Hd; [|done].
  apply IH. pose proof (digit_in_nonneg _ _ _ Hd). nia.
Qed.

(** [strtoul] returns an [unsigned long]. *)
Lemma strtoul_range nptr : 0 <= (strtoul nptr).1 <= ULONG_MAX.
Proof.
  unfold strtoul.
  match goal with |- context [let '(_, _) := ?M in _] =>
    destruct M as [negative s1]
  end.
  match goal with |- context [let '(_, _) := ?M in _] =>
    destruct M as [base s0] eqn:Hbase
  end.
  assert (Hb : 0 <= base).
  { revert Hbase. repeat case_match; intros [= <- <-]; lia. }
  pose proof (scan_digits_nonneg base s0 0 false Hb (Z.le_refl 0)) as Hacc.
  destruct (scan_digits base s0 0 false) as [[acc any] rest].
  cbn [fst] in Hacc. unfold ULONG_MAX.
  destruct any; [|simpl; lia].
  case_decide; [simpl; lia|].
  destruct negative; cbn [fst]; [|lia].
  pose proof (Z.mod_pos_bound (- acc) (2 ^ 64)). lia.
Qed.

(** One turn of the loop, when it passes. *)
Lemma cfg_to_partition_ok sec (t : mbr_table) found seen t' found' :
  length t = MBR_MAX_PRIMARY_PARTITIONS -> mask_of found seen ->
  cfg_to_partition sec (t, found) = Ok (t', found') ->
  section_ok sec /\ (partition_index sec ∉ seen) /\
  found' = Z.lor found (Z.shiftl 1 (partition_index sec)) /\
  length t' = MBR_MAX_PRIMARY_PARTITIONS /\
  slot_holds sec (t' !!! Z.to_nat (partition_index sec)) /\
  forall i, i <> Z.to_nat (partition_index sec) -> t' !!! i = t !!! i.
Proof.
  intros Hlen Hmask. unfold cfg_to_partition. fold (partition_index sec).
  case_decide as Hrange; [done|]. case_decide as Hdup; [done|].
  case_decide as Hty; [done|].
  destruct (cfg_block_offset sec) as [[|c text]|] eqn:Hoff; [done| |done].
  destruct (strtoul (String c text)) as [v endptr] eqn:Hst.
  case_decide as Hv; [done|]. case_decide as Hend; [done|].
  assert (Hix : (Z.to_nat (partition_index sec) < length t)%nat).
  { rewrite Hlen. unfold MBR_MAX_PRIMARY_PARTITIONS. lia. }
  rewrite list_lookup_total_alter_eq by (rewrite !length_alter; done).
  cbn [block_count set_block_count].
  case_decide as Hcnt; [done|]. intros [= <- <-].
  pose proof (strtoul_range (String c text)) as Hv0. rewrite Hst in Hv0.
  cbn [fst] in Hv0. unfold UINT32_MAX in Hv.
  assert (Hend' : endptr = EmptyString).
  { destruct (decide (endptr = EmptyString)); [done|]. by destruct Hend. }
  split; [|split; [|split; [done|split; [|split]]]].
  - split; [lia|]. split; [lia|]. split; [|lia].
    exists (String c text). rewrite Hst. cbn [fst snd]. unfold UINT32_MAX.
    split; [done|]. split; [done|]. split; [lia|done].
  - intros Hin. apply Hmask in Hin; [|lia].
    apply land_bit_test in Hin; [|lia]. done.
  - by rewrite !length_alter.
  - unfold slot_holds.
    rewrite !list_lookup_total_alter_eq by (rewrite ?length_alter; done).
    cbn. split; [done|]. split; [|done].
    exists (String c text). rewrite Hst. cbn [fst]. split; [done|].
    apply wrap32_small. unfold is_u32. lia.
  - intros i Hi. by rewrite !list_lookup_total_alter_ne by done.
Qed.

Lemma cfg_to_partition_passes sec (t : mbr_table) found seen :
  length t = MBR_MAX_PRIMARY_PARTITIONS -> mask_of found seen ->
  section_ok sec -> partition_index sec ∉ seen ->
  is_ok (cfg_to_partition sec (t, found)).
Proof.
  intros Hlen Hmask (Hrange & Hty & (text & Hoff & Hne & Hv & Hend) & Hcnt) Hnew.
  unfold cfg_to_partition. fold (partition_index sec).
  rewrite decide_False by lia.
  rewrite decide_False.
  2: { intros Hdup. apply land_bit_test in Hdup; [|lia].
       apply Hnew. apply Hmask; [lia|done]. }
  rewrite decide_False by lia. rewrite Hoff.
  destruct text as [|c text]; [done|].
  destruct (strtoul (String c text)) as [v endptr] eqn:Hst.
  cbn [fst snd] in Hv, Hend.
  rewrite decide_False by lia. rewrite decide_False by (by rewrite Hend; intros []).
  rewrite list_lookup_total_alter_eq.
  2: { rewrite !length_alter, Hlen. unfold MBR_MAX_PRIMARY_PARTITIONS. lia. }
  cbn [block_count set_block_count].
  rewrite decide_False by lia. by eexists.
Qed.

(** The whole loop, when it passes. *)
Lemma partition_loop_ok secs (t : mbr_table) found seen t' found' :
  length t = MBR_MAX_PRIMARY_PARTITIONS -> mask_of found seen ->
  while_secs cfg_to_partition secs (t, found) = Ok (t', found') ->
  Forall section_ok secs /\
  NoDup (map partition_index secs) /\
  (forall ix, ix ∈ map partition_index secs -> ix ∉ seen) /\
  length t' = MBR_MAX_PRIMARY_PARTITIONS /\
  mask_of found' (rev (map partition_index secs) ++ seen) /\
  (forall sec, sec ∈ secs ->
     slot_holds sec (t' !!! Z.to_nat (partition_index sec))) /\
  (forall i, Z.of_nat i ∉ map partition_index secs -> t' !!! i = t !!! i).
Proof.
  revert t found seen.
  induction secs as [|sec secs IH]; intros t found seen Hlen Hmask Hrun.
  - simpl in Hrun. injection Hrun as <- <-. simpl.
    split; [constructor|]. split; [constructor|]. split.
    { intros ix Hix. by apply elem_of_nil in Hix. }
    split; [done|]. split; [done|]. split; [|done].
    intros sec Hsec. by apply elem_of_nil in Hsec.
  - cbn [while_secs] in Hrun.
    destruct (cfg_to_partition sec (t, found)) as [[t1 found1]|] eqn:Hstep;
      [|done].
    cbn [bind] in Hrun.
    destruct (cfg_to_partition_ok _ _ _ _ _ _ Hlen Hmask Hstep)
      as (Hok & Hnew & -> & Hlen1 & Hslot & Hframe).
    destruct Hok as (Hrange & Hrest).
    destruct (IH t1 _ (partition_index sec :: seen) Hlen1
                (mask_of_add _ _ _ (proj1 Hrange) Hmask) Hrun)
      as (Hall & Hnd & Hfresh & Hlen' & Hmask' & Hslots & Hframe').
    assert (Hhead : partition_index sec ∉ map partition_index secs).
    { intros Hin. apply (Hfresh _ Hin). by left. }
    cbn [map rev]. split; [by constructor|]. split; [by constructor|].
    split.
    { intros ix Hix Hseen. apply elem_of_cons in Hix as [->|Hix]; [done|].
      apply (Hfresh _ Hix). by right. }
    split; [done|]. split.
    { by rewrite <- app_assoc. }
    split.
    + intros sec' Hsec'. apply elem_of_cons in Hsec' as [->|Hsec'].
      * rewrite Hframe'; [done|]. rewrite Z2Nat.id by lia. done.
      * by apply Hslots.
    + intros i Hi. rewrite Hframe'.
      * apply Hframe. intros ->. apply Hi. rewrite Z2Nat.id by lia. by left.
      * intros Hin. apply Hi. by right.
Qed.

Lemma partition_loop_passes secs (t : mbr_table) found seen :
  length t = MBR_MAX_PRIMARY_PARTITIONS -> mask_of found seen ->
  Forall section_ok secs -> NoDup (map partition_index secs) ->
  (forall ix, ix ∈ map partition_index secs -> ix ∉ seen) ->
  is_ok (while_secs cfg_to_partition secs (t, found)).
Proof.
  revert t found seen.
  induction secs as [|sec secs IH]; intros t found seen Hlen Hmask Hall Hnd Hfresh.
  - by eexists.
  - apply Forall_cons in Hall as [Hok Hall]. cbn [map] in Hnd.
    apply NoDup_cons in Hnd as [Hhead Hnd].
    destruct (cfg_to_partition_passes sec t found seen Hlen Hmask Hok)
      as [[t1 found1] Hstep]; [apply Hfresh; by left|].
    cbn [while_secs]. rewrite Hstep. cbn [bind].
    destruct (cfg_to_partition_ok _ _ _ _ _ _ Hlen Hmask Hstep)
      as (_ & _ & -> & Hlen1 & _).
    apply (IH t1 _ (partition_index sec :: seen)); [done| |done|done|].
    + apply mask_of_add; [|done]. destruct Hok as [? _]. lia.
    + intros ix Hix Hseen. apply elem_of_cons in Hseen as [->|Hseen]; [done|].
      apply (Hfresh ix); [by right|done].
Qed.

(** X10. [mbr_cfg_to_partitions] succeeds exactly when every partition
    section passes its checks (a title that reads as 0..3, a type in
    0..255, a block offset that is present, not empty, a number through
    to its end and below [2^32 - 1], a block count below [2^31 - 1] as a
    [uint32_t]) and no two sections name the same slot. *)
Theorem mbr_cfg_to_partitions_accepts (cfg : cfg_t) :
  is_ok (mbr_cfg_to_partitions cfg) <->
  Forall section_ok (cfg_partition_secs cfg) /\
  NoDup (map partition_index (cfg_partition_secs cfg)).
Proof.
  unfold mbr_cfg_to_partitions. split.
  - intros [[t found] Hrun].
    destruct (partition_loop_ok _ zero_table _ [] _ _ eq_refl mask_of_empty Hrun)
      as (Hall & Hnd & _). done.
  - intros [Hall Hnd].
    apply (partition_loop_passes _ zero_table _ []); [done|apply mask_of_empty|done|done|].
    intros ix _ Hin. by apply elem_of_nil in Hin.
Qed.

(** X11. The table [mbr_cfg_to_partitions] gives has four slots; the slot
    a section names holds the section's type, its block offset as
    [strtoul] reads it, its block count as a [uint32_t] and its two
    flags, within the bounds [mbr_verify] and the record need; a slot no
    section names is all zero; and [found] is zero exactly when there is
    no section. *)
Theorem mbr_cfg_to_partitions_table (cfg : cfg_t) (t : mbr_table) (found : Z) :
  mbr_cfg_to_partitions cfg = Ok (t, found) ->
  table_ok t /\
  (forall sec, sec ∈ cfg_partition_secs cfg ->
     slot_holds sec (t !!! Z.to_nat (partition_index sec)) /\
     0 <= partition_type (t !!! Z.to_nat (partition_index sec)) <= 255 /\
     block_offset (t !!! Z.to_nat (partition_index sec)) < 2 ^ 32 - 1 /\
     block_count (t !!! Z.to_nat (partition_index sec)) < 2 ^ 31 - 1) /\
  (forall i, Z.of_nat i ∉ map partition_index (cfg_partition_secs cfg) ->
     t !!! i = zero_partition) /\
  (found = 0 <-> cfg_partition_secs cfg = []).
Proof.
  unfold mbr_cfg_to_partitions. intros Hrun.
  destruct (partition_loop_ok _ zero_table _ [] _ _ eq_refl mask_of_empty Hrun)
    as (Hall & Hnd & _ & Hlen & Hmask & Hslots & Hframe).
  assert (Hbounds : forall sec, sec ∈ cfg_partition_secs cfg ->
     slot_holds sec (t !!! Z.to_nat (partition_index sec)) /\
     0 <= partition_type (t !!! Z.to_nat (partition_index sec)) <= 255 /\
     0 <= block_offset (t !!! Z.to_nat (partition_index sec)) < 2 ^ 32 - 1 /\
     0 <= block_count (t !!! Z.to_nat (partition_index sec)) < 2 ^ 31 - 1).
  { intros sec Hsec. pose proof (Hslots sec Hsec) as Hslot.
    split; [done|].
    destruct Hslot as (-> & (text & Hoff & ->) & -> & _).
    rewrite Forall_forall in Hall.
    destruct (Hall sec Hsec) as (_ & Hty & (text' & Hoff' & _ & Hv & _) & Hcnt).
    rewrite Hoff in Hoff'. injection Hoff' as <-.
    pose proof (strtoul_range text) as Hv0.
    pose proof (wrap32_range (cfg_block_count sec)) as Hc0.
    unfold UINT32_MAX in Hv. unfold INT32_MAX in Hcnt. unfold is_u32 in Hc0.
    lia. }
  split; [|split; [|split]].
  - split; [done|]. apply Forall_lookup_2. intros i p Hp.
    rewrite <- (list_lookup_total_correct _ _ _ Hp).
    destruct (decide (Z.of_nat i ∈ map partition_index (cfg_partition_secs cfg)))
      as [Hin|Hout].
    + apply list_elem_of_fmap in Hin as (sec & Hi & Hsec).
      destruct (Hbounds sec Hsec) as (_ & Hty & Hoff & Hcnt).
      rewrite <- Hi, Nat2Z.id in Hty, Hoff, Hcnt.
      unfold partition_ok, is_u32. lia.
    + rewrite (Hframe i Hout), zero_table_lookup.
      unfold partition_ok, is_u32. simpl. lia.
  - intros sec Hsec. destruct (Hbounds sec Hsec) as (? & ? & ? & ?).
    split; [done|]. split; [done|]. lia.
  - intros i Hi. rewrite (Hframe i Hi). apply zero_table_lookup.
  - rewrite app_nil_r in Hmask. split.
    + intros ->. destruct (cfg_partition_secs cfg) as [|sec secs]; [done|].
      exfalso. apply Forall_cons in Hall as [(Hrange & _) _].
      assert (Hbit : Z.testbit 0 (partition_index sec) = true).
      { apply Hmask; [lia|]. cbn [map rev]. apply elem_of_app. right. by left. }
      by rewrite Z.bits_0 in Hbit.
    + intros Hnil. rewrite Hnil in Hrun. simpl in Hrun. congruence.
Qed.

Lemma mbr_cfg_to_partitions_table_witness :
  exists t found,
    mbr_cfg_to_partitions two_partitions_cfg = Ok (t, found) /\ table_ok t /\
    block_offset (t !!! 1%nat) = 2048 /\ t !!! 2%nat = zero_partition /\
    found <> 0.
Proof.
  destruct (mbr_cfg_to_partitions two_partitions_cfg) as [[t found]|] eqn:Hrun;
    [|by vm_compute in Hrun].
  destruct (mbr_cfg_to_partitions_table two_partitions_cfg t found Hrun)
    as (Hok & Hslots & Hzero & Hfound).
  exists t, found. split; [done|]. split; [done|]. split; [|split].
  - destruct (Hslots (partition_section "1" 0x83 "0x800" 2048))
      as ((_ & (text & Htext & Hoff) & _) & _).
    { left. }
    injection Htext as <-. exact Hoff.
  - apply (Hzero 2%nat). vm_compute.
    intros Hin. repeat (apply elem_of_cons in Hin as [Hin|Hin]; [done|]).
    by apply elem_of_nil in Hin.
  - intros H0. apply Hfound in H0. discriminate H0.
Defined.

(** ** mbr_cfg_to_osip: the header it gives *)

Lemma cfg_to_osii_step sec osip found largest st :
  cfg_to_osii sec (osip, found, largest) = Ok st ->
  st = (set_descriptor osip (Z.to_nat (osii_index sec)) (osii_of_section sec),
        Z.lor found (Z.shiftl 1 (osii_index sec)),
        Z.max (osii_index sec) largest).
Proof.
  unfold cfg_to_osii. fold (osii_index sec).
  case_decide; [done|]. case_decide; [done|]. intros [= <-].
  f_equal. destruct (decide (osii_index sec > largest)); lia.
Qed.

(** The descriptors after the loop over the osii sections. *)
Lemma osii_loop_descriptors secs osip found largest seen osip' found' largest' :
  mask_of found seen -> -1 <= largest -> length (descriptors osip) = 16%nat ->
  while_secs cfg_to_osii secs (osip, found, largest)
    = Ok (osip', found', largest') ->
  length (descriptors osip') = 16%nat /\
  minor osip' = minor osip /\ major osip' = major osip /\
  num_pointers osip' = num_pointers osip /\
  (forall sec, sec ∈ secs ->
     descriptors osip' !!! Z.to_nat (osii_index sec) = osii_of_section sec) /\
  (forall i, Z.of_nat i ∉ map osii_index secs ->
     descriptors osip' !!! i = descriptors osip !!! i).
Proof.
  revert osip found largest seen.
  induction secs as [|sec secs IH];
    intros osip found largest seen Hmask Hl Hlen Hrun.
  - simpl in Hrun. injection Hrun as <- <- <-.
    do 4 (split; [done|]). split; [|done].
    intros sec Hsec. by apply elem_of_nil in Hsec.
  - cbn [while_secs] in Hrun.
    destruct (cfg_to_osii sec (osip, found, largest)) as [st|] eqn:Hstep; [|done].
    cbn [bind] in Hrun.
    destruct (cfg_to_osii_ok _ _ _ _ _ _ Hmask Hstep) as (Hrange & Hnew & _).
    unfold index_in_range in Hrange.
    rewrite (cfg_to_osii_step _ _ _ _ _ Hstep) in Hrun.
    assert (Hmask1 : mask_of (Z.lor found (Z.shiftl 1 (osii_index sec)))
                       (osii_index sec :: seen)).
    { apply mask_of_add; [lia|done]. }
    assert (Hl1 : -1 <= Z.max (osii_index sec) largest) by lia.
    assert (Hlen1 : length (descriptors
              (set_descriptor osip (Z.to_nat (osii_index sec))
                 (osii_of_section sec))) = 16%nat).
    { cbn [descriptors set_descriptor]. by rewrite length_insert. }
    destruct (osii_loop_ok _ _ _ _ _ _ _ _ Hmask1 Hl1 Hrun)
      as (_ & _ & Hfresh & _).
    destruct (IH _ _ _ _ Hmask1 Hl1 Hlen1 Hrun)
      as (Hlen' & Hminor & Hmajor & Hptr & Hslots & Hframe).
    assert (Hhead : osii_index sec ∉ map osii_index secs).
    { intros Hin. apply (Hfresh _ Hin). by left. }
    split; [done|]. do 3 (split; [done|]). split.
    + intros sec' Hsec'. apply elem_of_cons in Hsec' as [->|Hsec'].
      * rewrite Hframe by (by rewrite Z2Nat.id by lia).
        cbn [descriptors set_descriptor].
        apply list_lookup_total_insert_eq. rewrite Hlen. lia.
      * by apply Hslots.
    + intros i Hi. cbn [map] in Hi. rewrite Hframe.
      * cbn [descriptors set_descriptor].
        apply list_lookup_total_insert_ne. intros <-.
        apply Hi. rewrite Z2Nat.id by lia. by left.
      * intros Hin. apply Hi. by right.
Qed.

(** X12. With [include-osip] true, a successful [mbr_cfg_to_osip] gives a
    header that has [include_osip] set, the three header numbers as
    bytes, sixteen descriptors, the descriptor a section names holding
    the section's values in the widths of its fields, and every other
    descriptor zero. *)
Theorem mbr_cfg_to_osip_header (cfg : cfg_t) (osip : osip_header) :
  cfg_include_osip cfg = true ->
  mbr_cfg_to_osip cfg = Ok osip ->
  include_osip osip = true /\
  minor osip = wrap8 (cfg_osip_minor cfg) /\
  major osip = wrap8 (cfg_osip_major cfg) /\
  num_pointers osip = wrap8 (cfg_osip_num_pointers cfg) /\
  length (descriptors osip) = 16%nat /\
  (forall sec, sec ∈ cfg_osii_secs cfg ->
     (Z.to_nat (osii_index sec) < Z.to_nat (num_images osip))%nat /\
     descriptors osip !!! Z.to_nat (osii_index sec) = osii_of_section sec) /\
  (forall i, Z.of_nat i ∉ osii_indices cfg ->
     descriptors osip !!! i = zero_osii).
Proof.
  intros Hinc Hrun.
  destruct (mbr_cfg_to_osip_ok cfg osip Hinc Hrun) as (Hall & _ & Himages & _).
  revert Hrun. unfold mbr_cfg_to_osip. rewrite Hinc. cbn [negb].
  destruct (while_secs _ _ _) as [[[osip1 found1] largest1]|] eqn:Hloop; [|done].
  cbn [bind]. case_decide; [done|]. intros [= <-].
  destruct (osii_loop_ok _ _ _ _ [] _ _ _ mask_of_empty (Z.le_refl _) Hloop)
    as (_ & _ & _ & _ & Hinc1).
  pose proof (fun Hl => osii_loop_descriptors _ _ _ _ [] _ _ _ mask_of_empty
                          (Z.le_refl (-1)) Hl Hloop) as Hd.
  destruct (Hd eq_refl) as (Hlen & Hminor & Hmajor & Hptr & Hslots & Hframe).
  clear Hd.
  cbn [include_osip minor major num_pointers descriptors set_num_images] in *.
  do 5 (split; [done|]). split.
  - intros sec Hsec. split; [|by apply Hslots].
    assert (Hin : osii_index sec ∈ osii_indices cfg).
    { unfold osii_indices. apply list_elem_of_fmap. by exists sec. }
    rewrite Forall_forall in Hall. pose proof (Hall _ Hin) as Hrange.
    unfold index_in_range in Hrange.
    assert (Hle : osii_index sec <= max_index (osii_indices cfg)).
    { clear -Hin. induction (osii_indices cfg) as [|ix l IH]; simpl.
      - by apply elem_of_nil in Hin.
      - apply elem_of_cons in Hin as [->|Hin]; [lia|]. specialize (IH Hin). lia. }
    lia.
  - intros i Hi. rewrite (Hframe i Hi).
    change (descriptors zero_osip) with (replicate 16 zero_osii).
    destruct (decide (i < 16)%nat).
    + by apply lookup_total_replicate_2.
    + rewrite list_lookup_total_alt, lookup_ge_None_2; [done|].
      rewrite length_replicate. lia.
Qed.

Lemma mbr_cfg_to_osip_header_witness :
  descriptors two_images_osip !!! 3%nat = osii_of_section (osii_section "3") /\
  descriptors two_images_osip !!! 2%nat = zero_osii.
Proof.
  destruct (mbr_cfg_to_osip_header
              (osip_cfg true [osii_section "3"; osii_section "1"])
              two_images_osip)
    as (_ & _ & _ & _ & _ & Hslots & Hzero).
  - reflexivity.
  - vm_compute. reflexivity.
  - split.
    + destruct (Hslots (osii_section "3")) as [_ Hd]; [by left|]. exact Hd.
    + apply (Hzero 2%nat). vm_compute.
      intros Hin. repeat (apply elem_of_cons in Hin as [Hin|Hin]; [done|]).
      by apply elem_of_nil in Hin.
Defined.

(** X13. With [include-osip] true and osii indices in range and
    distinct, [mbr_cfg_to_osip] succeeds when there is a section and
    fails for want of one when there is none. *)
Theorem mbr_cfg_to_osip_accepts (cfg : cfg_t) :
  cfg_include_osip cfg = true ->
  Forall index_in_range (osii_indices cfg) -> NoDup (osii_indices cfg) ->
  (cfg_osii_secs cfg <> [] -> is_ok (mbr_cfg_to_osip cfg)) /\
  (cfg_osii_secs cfg = [] -> mbr_cfg_to_osip cfg = Err NoOsii).
Proof.
  intros Hinc Hall Hnd. unfold mbr_cfg_to_osip. rewrite Hinc. cbn [negb].
  split.
  - intros Hne.
    match goal with |- context [while_secs cfg_to_osii _ (?o, 0, -1)] =>
      destruct (osii_loop_passes (cfg_osii_secs cfg) o 0 (-1) [] mask_of_empty)
        as (o1 & f1 & -> & _)
    end; [lia|done|done| |].
    { intros ix _ Hin. by apply elem_of_nil in Hin. }
    cbn [bind]. pose proof (max_index_range _ Hall) as Hr.
    fold (osii_indices cfg).
    assert (Hpos : 0 <= max_index (osii_indices cfg)).
    { unfold osii_indices in *. destruct (cfg_osii_secs cfg) as [|sec secs];
        [done|].
      apply Forall_cons in Hall as [Hrange _]. unfold index_in_range in Hrange.
      simpl. lia. }
    replace (Z.max (max_index (osii_indices cfg)) (-1))
      with (max_index (osii_indices cfg)) by lia.
    cbn [num_images set_num_images].
    rewrite wrap8_small by (unfold is_byte; lia).
    rewrite decide_False by lia. by eexists.
  - intros ->. reflexivity.
Qed.

Lemma mbr_cfg_to_osip_accepts_witness :
  is_ok (mbr_cfg_to_osip (osip_cfg true [osii_section "3"; osii_section "1"])) /\
  mbr_cfg_to_osip (osip_cfg true []) = Err NoOsii.
Proof.
  split.
  - apply (mbr_cfg_to_osip_accepts
             (osip_cfg true [osii_section "3"; osii_section "1"])).
    + reflexivity.
    + vm_compute. repeat constructor; discriminate.
    + vm_compute. repeat constructor; intros Hin;
        repeat (apply elem_of_cons in Hin as [Hin|Hin]; [done|]);
        by apply elem_of_nil in Hin.
    + discriminate.
  - apply (mbr_cfg_to_osip_accepts (osip_cfg true [])).
    + reflexivity.
    + constructor.
    + constructor.
    + reflexivity.
Defined.

(** ** mbr_verify_cfg and mbr_create_cfg *)

(** The three ways [mbr_create] ends. *)
Lemma mbr_create_cases (t : mbr_table) bootstrap osip signature nb
    (output : list Z) :
  (is_Some bootstrap /\ include_osip osip = true /\
   mbr_create t bootstrap osip signature nb output
     = (Err BootstrapAndOsip, output)) \/
  (~ (is_Some bootstrap /\ include_osip osip = true) /\
   exists e, mbr_verify t = Err e /\
     mbr_create t bootstrap osip signature nb output = (Err e, output)) \/
  (~ (is_Some bootstrap /\ include_osip osip = true) /\
   mbr_verify t = Ok tt /\
   (mbr_create t bootstrap osip signature nb output).1 = Ok tt).
Proof.
  unfold mbr_create. case_decide as Hboth.
  { left. tauto. }
  right. destruct (mbr_verify t) as [[]|e] eqn:Hver.
  2:{ left. split; [done|]. by exists e. }
  right. split; [done|]. split; [done|].
  set (out0 := match bootstrap with
               | Some code => memcpy output 0 code 0 440
               | None => memset output 0 0 440 end).
  assert (exists out1,
    (if include_osip osip then write_osip osip out0 else (Ok tt, out0))
      = (Ok tt, out1)) as (out1 & ->).
  { destruct (include_osip osip); [|by eexists].
    destruct (write_osip_ok osip out0) as (o & -> & _). by eexists. }
  match goal with |- context [create_partitions t nb ?l ?o] =>
    pose proof (create_partitions_ok t nb l o) as Hok;
    destruct (create_partitions t nb l o) as [r out2]
  end.
  simpl in Hok. by subst r.
Qed.

(** [mbr_create_cfg] once the two projections passed. *)
Lemma mbr_create_cfg_projected cfg nb (output : list Z) t found osip :
  mbr_cfg_to_partitions cfg = Ok (t, found) ->
  mbr_cfg_to_osip cfg = Ok osip ->
  mbr_create_cfg cfg nb output =
    match cfg_bootstrap_code cfg with
    | None => mbr_create t None osip (signature_of cfg) nb output
    | Some hex =>
        match hex_to_bytes hex 440 with
        | Ok code => mbr_create t (Some code) osip (signature_of cfg) nb output
        | Err e => (Err e, output)
        end
    end.
Proof.
  intros Hparts Hosip. unfold mbr_create_cfg, signature_of.
  rewrite Hparts, Hosip.
  destruct (cfg_bootstrap_code cfg) as [hex|]; [|done].
  by destruct (hex_to_bytes hex 440).
Qed.

(** [found] is zero for no section only. *)
Lemma mbr_cfg_to_partitions_found cfg t found :
  mbr_cfg_to_partitions cfg = Ok (t, found) ->
  found = 0 <-> cfg_partition_secs cfg = [].
Proof.
  unfold mbr_cfg_to_partitions. intros Hrun.
  destruct (partition_loop_ok _ zero_table _ [] _ _ eq_refl mask_of_empty Hrun)
    as (Hall & _ & _ & _ & Hmask & _).
  rewrite app_nil_r in Hmask. split.
  - intros ->. destruct (cfg_partition_secs cfg) as [|sec secs]; [done|].
    exfalso. apply Forall_cons in Hall as [(Hrange & _) _].
    assert (Hbit : Z.testbit 0 (partition_index sec) = true).
    { apply Hmask; [lia|]. cbn [map rev]. apply elem_of_app. right. by left. }
    by rewrite Z.bits_0 in Hbit.
  - intros Hnil. rewrite Hnil in Hrun. simpl in Hrun. congruence.
Qed.

(** X14. For a configuration whose bootstrap code, if any, has 880
    characters and decodes, [mbr_verify_cfg] accepts exactly when there
    is a partition section and [mbr_create_cfg] succeeds on a 512-byte
    buffer, whatever the number of blocks of the medium. *)
Theorem mbr_verify_cfg_iff_create_cfg (cfg : cfg_t) (num_blocks : Z)
    (output : list Z) :
  bootstrap_decodes cfg -> length output = 512%nat ->
  mbr_verify_cfg cfg = Ok tt <->
  cfg_partition_secs cfg <> [] /\
  (mbr_create_cfg cfg num_blocks output).1 = Ok tt.
Proof.
  intros Hboot Hlen. unfold bootstrap_decodes in Hboot.
  assert (Hsize : match cfg_bootstrap_code cfg with
                  | Some s => bool_decide (String.length s <> (440 * 2)%nat)
                  | None => false
                  end = false).
  { destruct (cfg_bootstrap_code cfg) as [hex|]; [|done].
    destruct Hboot as [Hl _]. by apply bool_decide_eq_false_2; intros []. }
  unfold mbr_verify_cfg. rewrite Hsize. split.
  - destruct (mbr_cfg_to_osip cfg) as [osip|] eqn:Hosip; [|done]. cbn [bind].
    case_decide as Hboth; [done|].
    destruct (mbr_cfg_to_partitions cfg) as [[t found]|] eqn:Hparts; [|done].
    cbn [bind]. case_decide as Hfound; [done|]. intros Hver.
    split.
    { intros Hnil. apply Hfound.
      by apply (mbr_cfg_to_partitions_found cfg t found Hparts). }
    rewrite (mbr_create_cfg_projected cfg num_blocks output t found osip)
      by done.
    destruct (cfg_bootstrap_code cfg) as [hex|].
    + destruct Hboot as [_ [code Hcode]]. rewrite Hcode.
      destruct (mbr_create_spec t (Some code) osip (signature_of cfg)
                  num_blocks output Hlen Hver) as (out' & -> & _).
      { intros [_ Hinc]. apply Hboth. by split; [|eexists]. }
      done.
    + destruct (mbr_create_spec t None osip (signature_of cfg)
                  num_blocks output Hlen Hver) as (out' & -> & _).
      { intros [[? [=]] _]. }
      done.
  - intros [Hsecs Hrun].
    destruct (mbr_cfg_to_partitions cfg) as [[t found]|] eqn:Hparts.
    2:{ unfold mbr_create_cfg in Hrun. by rewrite Hparts in Hrun. }
    destruct (mbr_cfg_to_osip cfg) as [osip|] eqn:Hosip.
    2:{ unfold mbr_create_cfg in Hrun. by rewrite Hparts, Hosip in Hrun. }
    rewrite (mbr_create_cfg_projected cfg num_blocks output t found osip)
      in Hrun by done.
    cbn [bind].
    assert (Hfound : found <> 0).
    { intros H0. apply Hsecs.
      by apply (mbr_cfg_to_partitions_found cfg t found Hparts). }
    assert (Hgood : ~ (include_osip osip = true /\
                       is_Some (cfg_bootstrap_code cfg)) /\
                    mbr_verify t = Ok tt).
    { destruct (cfg_bootstrap_code cfg) as [hex|].
      - destruct Hboot as [_ [code Hcode]]. rewrite Hcode in Hrun.
        destruct (mbr_create_cases t (Some code) osip (signature_of cfg)
                    num_blocks output)
          as [(_ & _ & Hc)|[(_ & e & _ & Hc)|(Hboth & Hver & _)]];
          [by rewrite Hc in Hrun|by rewrite Hc in Hrun|].
        split; [|done]. intros [Hinc _]. apply Hboth. by split; [eexists|].
      - destruct (mbr_create_cases t None osip (signature_of cfg)
                    num_blocks output)
          as [(_ & _ & Hc)|[(_ & e & _ & Hc)|(Hboth & Hver & _)]];
          [by rewrite Hc in Hrun|by rewrite Hc in Hrun|].
        split; [|done]. intros [_ [? [=]]]. }
    destruct Hgood as [Hboth Hver].
    rewrite decide_False by done. by rewrite decide_False by done.
Qed.

Lemma mbr_verify_cfg_iff_create_cfg_witness :
  mbr_verify_cfg two_partitions_cfg = Ok tt <->
  cfg_partition_secs two_partitions_cfg <> [] /\
  (mbr_create_cfg two_partitions_cfg 0 zero_buffer).1 = Ok tt.
Proof.
  apply (mbr_verify_cfg_iff_create_cfg two_partitions_cfg 0 zero_buffer).
  - exact I.
  - reflexivity.
Defined.

(** The header says what the configuration says about including it. *)
Lemma mbr_cfg_to_osip_include cfg osip :
  mbr_cfg_to_osip cfg = Ok osip -> include_osip osip = cfg_include_osip cfg.
Proof.
  unfold mbr_cfg_to_osip. destruct (cfg_include_osip cfg); cbn [negb].
  - destruct (while_secs _ _ _) as [[[osip1 found1] largest1]|] eqn:Hloop;
      [|done].
    cbn [bind]. case_decide; [done|]. intros [= <-].
    destruct (osii_loop_ok _ _ _ _ [] _ _ _ mask_of_empty (Z.le_refl _) Hloop)
      as (_ & _ & _ & _ & Hinc).
    exact Hinc.
  - by intros [= <-].
Qed.

(** X15. When [mbr_create_cfg] fails the output buffer is as the caller
    gave it, and the error is that of the partition projection, or else
    that of the OSIP projection, or else that of decoding the bootstrap
    code, or else that of [mbr_create] on the projected table. *)
Theorem mbr_create_cfg_failure (cfg : cfg_t) (num_blocks : Z)
    (output out' : list Z) (e : error) :
  mbr_create_cfg cfg num_blocks output = (Err e, out') ->
  out' = output /\
  (mbr_cfg_to_partitions cfg = Err e \/
   (is_ok (mbr_cfg_to_partitions cfg) /\ mbr_cfg_to_osip cfg = Err e) \/
   (is_ok (mbr_cfg_to_partitions cfg) /\ is_ok (mbr_cfg_to_osip cfg) /\
    ((exists hex, cfg_bootstrap_code cfg = Some hex /\
                  hex_to_bytes hex 440 = Err e) \/
     (is_Some (cfg_bootstrap_code cfg) /\ cfg_include_osip cfg = true /\
      e = BootstrapAndOsip) \/
     (exists t found, mbr_cfg_to_partitions cfg = Ok (t, found) /\
                      mbr_verify t = Err e)))).
Proof.
  intros Hrun.
  destruct (mbr_cfg_to_partitions cfg) as [[t found]|e1] eqn:Hparts.
  2:{ unfold mbr_create_cfg in Hrun. rewrite Hparts in Hrun.
      injection Hrun as <- <-. split; [done|]. by left. }
  destruct (mbr_cfg_to_osip cfg) as [osip|e1] eqn:Hosip.
  2:{ unfold mbr_create_cfg in Hrun. rewrite Hparts, Hosip in Hrun.
      injection Hrun as <- <-. split; [done|]. right. left.
      split; [by eexists|done]. }
  rewrite (mbr_create_cfg_projected cfg num_blocks output t found osip)
    in Hrun by done.
  pose proof (mbr_cfg_to_osip_include cfg osip Hosip) as Hinc.
  assert (Hcreate : forall bootstrap,
    (is_Some bootstrap <-> is_Some (cfg_bootstrap_code cfg)) ->
    mbr_create t bootstrap osip (signature_of cfg) num_blocks output
      = (Err e, out') ->
    out' = output /\
    ((is_Some (cfg_bootstrap_code cfg) /\ cfg_include_osip cfg = true /\
      e = BootstrapAndOsip) \/ mbr_verify t = Err e)).
  { intros bootstrap Hsome Hc.
    destruct (mbr_create_cases t bootstrap osip (signature_of cfg)
                num_blocks output)
      as [(Hb & Hi & Hc')|[(_ & e' & Hver & Hc')|(_ & _ & Hc')]];
      rewrite Hc in Hc'.
    - injection Hc' as -> ->. split; [done|]. left.
      split; [by apply Hsome|]. split; [congruence|done].
    - injection Hc' as -> ->. split; [done|]. by right.
    - done. }
  assert (Hwrap : out' = output /\
    ((exists hex, cfg_bootstrap_code cfg = Some hex /\
                  hex_to_bytes hex 440 = Err e) \/
     (is_Some (cfg_bootstrap_code cfg) /\ cfg_include_osip cfg = true /\
      e = BootstrapAndOsip) \/
     (exists t found, mbr_cfg_to_partitions cfg = Ok (t, found) /\
                      mbr_verify t = Err e))).
  { destruct (cfg_bootstrap_code cfg) as [hex|] eqn:Hhex.
    - destruct (hex_to_bytes hex 440) as [code|e1] eqn:Hcode.
      + destruct (Hcreate (Some code)) as [-> Hwhy]; [|done|].
        { split; intros _; by eexists. }
        split; [done|]. right. destruct Hwhy as [Hwhy|Hwhy]; [by left|].
        right. by exists t, found.
      + injection Hrun as <- <-. split; [done|]. left. by exists hex.
    - destruct (Hcreate None) as [-> Hwhy]; [|done|].
      { split; intros [? [=]]. }
      split; [done|]. right. destruct Hwhy as [Hwhy|Hwhy]; [by left|].
      right. by exists t, found. }
  destruct Hwrap as [-> Hwhy]. split; [done|]. right. right.
  split; [by eexists|]. split; [by eexists|].
  by rewrite Hparts in Hwhy.
Qed.

Lemma mbr_create_cfg_failure_witness :
  (mbr_create_cfg clashing_cfg 0 ones_buffer).2 = ones_buffer.
Proof.
  destruct (mbr_create_cfg clashing_cfg 0 ones_buffer) as [r out'] eqn:Hrun.
  destruct r as [[]|e]; [by vm_compute in Hrun|].
  by destruct (mbr_create_cfg_failure clashing_cfg 0 ones_buffer out' e Hrun)
    as [-> _].
Defined.

Lemma mbr_create_signature (t : mbr_table) bootstrap osip signature nb
    (output out' : list Z) :
  length output = 512%nat ->
  mbr_create t bootstrap osip signature nb output = (Ok tt, out') ->
  bytes_at out' 440 4 = le32 signature.
Proof.
  intros Hlen Hrun.
  destruct (mbr_create_stages _ _ _ _ _ _ _ Hrun)
    as (_ & _ & out1 & out2 & Hout1 & Hparts & ->).
  assert (Hl1 : length out1 = 512%nat).
  { subst out1. destruct (include_osip osip).
    - destruct (write_osip_ok osip
                  match bootstrap with
                  | Some code => memcpy output 0 code 0 440
                  | None => memset output 0 0 440
                  end) as (o & -> & Hl). cbn [snd].
      rewrite Hl. destruct bootstrap; len.
    - destruct bootstrap; len. }
  assert (Hl2 : length out2 = 512%nat).
  { destruct (create_partitions_spec t nb (seq 0 MBR_MAX_PRIMARY_PARTITIONS)
                (store8 (store8 (copy_le32 out1 440 signature) 444 0) 445 0))
      as (o & Ho & Hl & _).
    - apply NoDup_seq.
    - intros i Hi. apply elem_of_seq in Hi.
      unfold MBR_MAX_PRIMARY_PARTITIONS in Hi.
      rewrite !length_store8, length_copy_le32, Hl1. lia.
    - rewrite Hparts in Ho. injection Ho as <-. rewrite Hl. len. }
  apply (bytes_at_eq _ (le32 signature)); [simpl; len|].
  intros m Hm. simpl in Hm.
  rewrite (mbr_create_low_cell t nb
             (store8 (store8 (copy_le32 out1 440 signature) 444 0) 445 0)
             out2 (440 + m)); [|len|lia|exact Hparts].
  skip_writes. apply copy_le32_inside; lia.
Qed.

(** X16. The record [mbr_create_cfg] makes on a 512-byte buffer decodes,
    and carries the signature of the configuration in bytes 440-443.
    In the decoded table the slot a section names has the section's type
    and block offset, its block count unless the section is to expand,
    and its boot flag unless its type is 0; a slot no section names has
    type 0. *)
Theorem cfg_record_roundtrip (cfg : cfg_t) (num_blocks : Z)
    (output record : list Z) (t0 : mbr_table) :
  length output = 512%nat ->
  mbr_create_cfg cfg num_blocks output = (Ok tt, record) ->
  bytes_at record 440 4 = le32 (signature_of cfg) /\
  exists t',
    mbr_decode record t0 = (Ok tt, t') /\
    (forall sec, sec ∈ cfg_partition_secs cfg ->
       partition_type (t' !!! Z.to_nat (partition_index sec))
         = to_int (cfg_type sec) /\
       (exists text, cfg_block_offset sec = Some text /\
          block_offset (t' !!! Z.to_nat (partition_index sec))
            = (strtoul text).1) /\
       (cfg_expand sec = false ->
          block_count (t' !!! Z.to_nat (partition_index sec))
            = wrap32 (cfg_block_count sec)) /\
       (to_int (cfg_type sec) <> 0 ->
          boot_flag (t' !!! Z.to_nat (partition_index sec)) = cfg_boot sec)) /\
    (forall i, (i < MBR_MAX_PRIMARY_PARTITIONS)%nat ->
       Z.of_nat i ∉ map partition_index (cfg_partition_secs cfg) ->
       partition_type (t' !!! i) = 0).
Proof.
  intros Hlen Hrun.
  destruct (mbr_cfg_to_partitions cfg) as [[t found]|e1] eqn:Hparts.
  2:{ unfold mbr_create_cfg in Hrun. by rewrite Hparts in Hrun. }
  destruct (mbr_cfg_to_osip cfg) as [osip|e1] eqn:Hosip.
  2:{ unfold mbr_create_cfg in Hrun. by rewrite Hparts, Hosip in Hrun. }
  rewrite (mbr_create_cfg_projected cfg num_blocks output t found osip)
    in Hrun by done.
  assert (exists bootstrap,
    mbr_create t bootstrap osip (signature_of cfg) num_blocks output
      = (Ok tt, record)) as [bootstrap Hcreate].
  { destruct (cfg_bootstrap_code cfg) as [hex|]; [|by eexists].
    destruct (hex_to_bytes hex 440) as [code|]; [by eexists|done]. }
  clear Hrun. split; [by eapply mbr_create_signature|].
  destruct (mbr_create_stages _ _ _ _ _ _ _ Hcreate) as (Hboth & Hver & _).
  destruct (mbr_create_spec t bootstrap osip (signature_of cfg) num_blocks
              output Hlen Hver Hboth)
    as (record' & Hrun' & _ & H55 & Haa & Hfields).
  rewrite Hcreate in Hrun'. injection Hrun' as <-.
  destruct (mbr_decode_ok record t0 H55 Haa) as (t' & Hdec & _ & Hin & _).
  exists t'. split; [done|].
  unfold mbr_cfg_to_partitions in Hparts.
  destruct (partition_loop_ok _ zero_table _ [] _ _ eq_refl mask_of_empty Hparts)
    as (Hall & _ & _ & Hlen4 & _ & Hslots & Hframe).
  assert (Hok : table_ok t).
  { split; [done|]. apply Forall_lookup_2. intros i p Hp.
    rewrite <- (list_lookup_total_correct _ _ _ Hp).
    destruct (decide (Z.of_nat i ∈ map partition_index (cfg_partition_secs cfg)))
      as [Hi|Hout].
    - apply list_elem_of_fmap in Hi as (sec & Hi & Hsec).
      destruct (Hslots sec Hsec) as (Hty & (text & Hoff & Hv) & Hcnt & _).
      rewrite <- Hi, Nat2Z.id in Hty, Hv, Hcnt.
      rewrite Forall_forall in Hall.
      destruct (Hall sec Hsec) as (_ & Hty' & (text' & Hoff' & _ & Hv' & _) & _).
      rewrite Hoff in Hoff'. injection Hoff' as <-.
      pose proof (strtoul_range text) as Hv0. unfold UINT32_MAX in Hv'.
      unfold partition_ok, is_u32. rewrite Hty, Hv, Hcnt.
      pose proof (wrap32_range (cfg_block_count sec)) as Hc0.
      unfold is_u32 in Hc0. lia.
    - rewrite (Hframe i Hout), zero_table_lookup.
      unfold partition_ok, is_u32. simpl. lia. }
  assert (Hread : forall i, (i < MBR_MAX_PRIMARY_PARTITIONS)%nat ->
    partition_type (t' !!! i) = partition_type (t !!! i) /\
    block_offset (t' !!! i) = block_offset (t !!! i) /\
    block_count (t' !!! i) = effective_block_count (t !!! i) num_blocks /\
    boot_flag (t' !!! i) = (if decide (partition_type (t !!! i) = 0) then false
                            else boot_flag (t !!! i))).
  { intros i Hi. rewrite Hin by done.
    apply (read_entry (t !!! i) num_blocks record (446 + i * 16) zero_partition).
    - by apply table_ok_lookup.
    - by apply mbr_verify_types.
    - by apply Hfields. }
  split.
  - intros sec Hsec.
    rewrite Forall_forall in Hall. destruct (Hall sec Hsec) as ((Hr0 & Hr1) & _).
    destruct (Hread (Z.to_nat (partition_index sec)))
      as (Hty & Hoff & Hcnt & Hboot).
    { unfold MBR_MAX_PRIMARY_PARTITIONS. lia. }
    destruct (Hslots sec Hsec) as (Hty' & (text & Htext & Hv) & Hcnt' & Hb & Hex).
    rewrite Hty, Hoff, Hcnt, Hboot, Hty', Hv.
    split; [done|]. split; [by exists text|]. split.
    + intros Hno. unfold effective_block_count.
      rewrite decide_False; [done|]. intros [Hyes _]. congruence.
    + intros Hnz. by rewrite decide_False.
  - intros i Hi Hout.
    destruct (Hread i Hi) as (-> & _). rewrite (Hframe i Hout).
    by rewrite zero_table_lookup.
Qed.

Lemma cfg_record_roundtrip_witness :
  bytes_at (mbr_create_cfg two_partitions_cfg 0 zero_buffer).2 440 4
  = le32 (signature_of two_partitions_cfg).
Proof.
  destruct (cfg_record_roundtrip two_partitions_cfg 0 zero_buffer
              (mbr_create_cfg two_partitions_cfg 0 zero_buffer).2 zero_table)
    as [Hsig _].
  - reflexivity.
  - vm_compute. reflexivity.
  - exact Hsig.
Defined.

(** ** What mbr_create reads of the caller's buffer *)

Ltac same_len :=
  repeat first
    [ rewrite length_store8 | rewrite length_memset | rewrite length_memcpy
    | rewrite length_copy_le16 | rewrite length_copy_le32
    | rewrite length_lba_to_chs ];
  assumption.

(** A cell is the same in two buffers of one length after a write when it
    is the cell written or was the same before. *)
Lemma store8_same (a b : list Z) i v k :
  length a = length b -> (k = i \/ a !!! k = b !!! k) ->
  store8 a i v !!! k = store8 b i v !!! k.
Proof.
  intros Hlen Hk. destruct (decide (i = k)) as [->|Hne].
  - destruct (decide (k < length a)%nat) as [Hin|Hout].
    + rewrite !store8_eq by lia. done.
    + unfold store8. rewrite !list_insert_ge by lia.
      rewrite !list_lookup_total_alt, !lookup_ge_None_2 by lia. done.
  - rewrite !store8_ne by done. destruct Hk as [->|Hk]; done.
Qed.

Lemma memset_same n (a b : list Z) start c k :
  length a = length b ->
  ((start <= k < start + n)%nat \/ a !!! k = b !!! k) ->
  memset a start c n !!! k = memset b start c n !!! k.
Proof.
  revert a b start. induction n as [|n IH]; intros a b start Hlen Hk;
    cbn [memset].
  - destruct Hk as [Hk|Hk]; [lia|done].
  - apply IH; [same_len|].
    destruct (decide (S start <= k < S start + n)%nat); [by left|right].
    apply store8_same; [done|]. destruct Hk as [Hk|Hk]; [left; lia|by right].
Qed.

Lemma memcpy_same n (a b : list Z) start src from k :
  length a = length b ->
  ((start <= k < start + n)%nat \/ a !!! k = b !!! k) ->
  memcpy a start src from n !!! k = memcpy b start src from n !!! k.
Proof.
  revert a b start from. induction n as [|n IH]; intros a b start from Hlen Hk;
    cbn [memcpy].
  - destruct Hk as [Hk|Hk]; [lia|done].
  - apply IH; [same_len|].
    destruct (decide (S start <= k < S start + n)%nat); [by left|right].
    apply store8_same; [done|]. destruct Hk as [Hk|Hk]; [left; lia|by right].
Qed.

Lemma copy_le16_same (a b : list Z) at_ v k :
  length a = length b ->
  ((at_ <= k < at_ + 2)%nat \/ a !!! k = b !!! k) ->
  copy_le16 a at_ v !!! k = copy_le16 b at_ v !!! k.
Proof.
  intros Hlen Hk. unfold copy_le16.
  apply store8_same; [same_len|].
  destruct (decide (k = at_ + 1)%nat); [by left|right].
  apply store8_same; [done|]. destruct Hk as [Hk|Hk]; [left; lia|by right].
Qed.

Lemma copy_le32_same (a b : list Z) at_ v k :
  length a = length b ->
  ((at_ <= k < at_ + 4)%nat \/ a !!! k = b !!! k) ->
  copy_le32 a at_ v !!! k = copy_le32 b at_ v !!! k.
Proof.
  intros Hlen Hk. unfold copy_le32.
  apply store8_same; [same_len|].
  destruct (decide (k = at_ + 3)%nat); [by left|right].
  apply store8_same; [same_len|].
  destruct (decide (k = at_ + 2)%nat); [by left|right].
  apply store8_same; [same_len|].
  destruct (decide (k = at_ + 1)%nat); [by left|right].
  apply store8_same; [done|]. destruct Hk as [Hk|Hk]; [left; lia|by right].
Qed.

(** [lba_to_chs] may leave its three cells alone, so they have to be the
    same before. *)
Lemma lba_to_chs_same lba (a b : list Z) at_ k :
  length a = length b -> a !!! k = b !!! k ->
  lba_to_chs lba a at_ !!! k = lba_to_chs lba b at_ !!! k.
Proof.
  intros Hlen Hk. unfold lba_to_chs. case_decide; [|done].
  apply store8_same; [same_len|]. right.
  apply store8_same; [same_len|]. right.
  apply store8_same; [done|]. by right.
Qed.

Lemma create_partition_same p (a b : list Z) at_ nb k :
  length a = length b ->
  ((k = at_ \/ k = at_ + 4 \/ at_ + 8 <= k < at_ + 16)%nat \/ a !!! k = b !!! k) ->
  (create_partition p a at_ nb).2 !!! k = (create_partition p b at_ nb).2 !!! k.
Proof.
  intros Hlen Hk. unfold create_partition. cbn [snd].
  assert (Hlen' : forall x y : list Z, length x = length y ->
            length (lba_to_chs (block_offset p) x (at_ + 1))
            = length (lba_to_chs (block_offset p) y (at_ + 1))).
  { intros x y Hxy. by rewrite !length_lba_to_chs. }
  apply copy_le32_same.
  { case_decide; same_len. }
  destruct (decide (at_ + 12 <= k < at_ + 12 + 4)%nat); [by left|right].
  apply copy_le32_same.
  { case_decide; same_len. }
  destruct (decide (at_ + 8 <= k < at_ + 8 + 4)%nat); [by left|right].
  case_decide.
  - apply lba_to_chs_same; [same_len|].
    apply store8_same; [same_len|].
    destruct (decide (k = at_ + 4)%nat); [by left|right].
    apply lba_to_chs_same; [same_len|].
    apply store8_same; [done|].
    destruct (decide (k = at_)); [by left|right].
    destruct Hk as [Hk|Hk]; [lia|done].
  - apply memset_same; [done|].
    destruct (decide (at_ <= k < at_ + 8)%nat); [by left|right].
    destruct Hk as [Hk|Hk]; [lia|done].
Qed.

Lemma create_partitions_same (t : mbr_table) nb l (a b : list Z) k :
  length a = length b ->
  ((exists i, i ∈ l /\
      (k = 446 + i * 16 \/ k = 446 + i * 16 + 4 \/
       446 + i * 16 + 8 <= k < 446 + i * 16 + 16)%nat) \/
   a !!! k = b !!! k) ->
  (create_partitions t nb l a).2 !!! k = (create_partitions t nb l b).2 !!! k.
Proof.
  revert a b. induction l as [|i l IH]; intros a b Hlen Hk.
  - destruct Hk as [(i & Hi & _)|Hk]; [by apply elem_of_nil in Hi|done].
  - assert (Hfold : forall x,
      create_partitions t nb (i :: l) x
      = create_partitions t nb l
          (create_partition (t !!! i) x (446 + i * 16) nb).2) by reflexivity.
    rewrite !Hfold.
    pose proof (create_partition_same (t !!! i) a b (446 + i * 16) nb k Hlen)
      as Hstep.
    apply IH; [by rewrite !length_create_partition|].
    destruct Hk as [(j & Hj & Hcell)|Hk].
    + apply elem_of_cons in Hj as [->|Hj].
      * right. apply Hstep. by left.
      * left. by exists j.
    + right. apply Hstep. by right.
Qed.

Ltac split_cell :=
  match goal with
  | |- ?P \/ _ => destruct (decide P); [by left|right]
  end.

(** The descriptor loop keeps a cell the same in two buffers. *)
Lemma write_osii_loop_same osip l (a b : list Z) cur :
  length a = length b ->
  exists a' b' cur',
    for_each (write_osii osip) l (a, cur) = Ok (a', cur') /\
    for_each (write_osii osip) l (b, cur) = Ok (b', cur') /\
    length a' = length b' /\
    forall k, a !!! k = b !!! k -> a' !!! k = b' !!! k.
Proof.
  revert a b cur. induction l as [|i l IH]; intros a b cur Hlen.
  - exists a, b, cur. done.
  - cbn [for_each]. unfold write_osii at 1 3. cbn [bind].
    match goal with
    | |- context [for_each _ l (?oa, ?c) = _ /\ for_each _ l (?ob, _) = _ /\ _] =>
        destruct (IH oa ob c) as (a' & b' & cur' & Hra & Hrb & Hlen' & Hsame)
    end.
    { same_len. }
    exists a', b', cur'. split; [done|]. split; [done|]. split; [done|].
    intros k Hk. apply Hsame.
    apply memset_same; [same_len|right].
    apply store8_same; [same_len|right].
    apply copy_le32_same; [same_len|right].
    apply copy_le32_same; [same_len|right].
    apply copy_le32_same; [same_len|right].
    apply copy_le32_same; [same_len|right].
    apply copy_le16_same; [same_len|right].
    apply copy_le16_same; [done|by right].
Qed.

Lemma osip_checksum_same (a b : list Z) header_size :
  1 <= header_size ->
  (forall j, (j < Z.to_nat header_size)%nat -> a !!! j = b !!! j) ->
  osip_checksum a header_size = osip_checksum b header_size.
Proof.
  intros Hhs Hsame. unfold osip_checksum.
  rewrite (Hsame 0%nat) by lia.
  assert (Hcells : forall j, j ∈ seq 1 (Z.to_nat header_size - 1) ->
            a !!! j = b !!! j).
  { intros j Hj. apply elem_of_seq in Hj. apply Hsame. lia. }
  generalize (b !!! 0%nat). revert Hcells.
  generalize (seq 1 (Z.to_nat header_size - 1)).
  intros l. induction l as [|j l IH]; intros Hcells sum; cbn [fold_left]; [done|].
  rewrite (Hcells j) by (by left). apply IH. intros j' Hj'. apply Hcells.
  by right.
Qed.

(** [write_osip] on two buffers that agree below the header size. *)
Lemma write_osip_same osip (a b : list Z) k :
  length a = length b ->
  0 <= num_images osip -> 32 + 24 * num_images osip < 2 ^ 16 ->
  (forall j, Z.of_nat j < 32 + 24 * num_images osip -> a !!! j = b !!! j) ->
  a !!! k = b !!! k ->
  (write_osip osip a).2 !!! k = (write_osip osip b).2 !!! k.
Proof.
  intros Hlen Hn H16 Hlow Hk. unfold write_osip.
  assert (Hhs : wrap16 (32 + 24 * num_images osip) = 32 + 24 * num_images osip).
  { apply Z.mod_small. lia. }
  rewrite Hhs.
  set (pa := memset (copy_le16 (store8 (store8 (store8 (store8 (store8
    (store8 (store8 (store8 (store8 (store8 a 0 36) 1 79) 2 83) 3 36) 4 0)
    5 (minor osip)) 6 (major osip)) 7 0) 8 (num_pointers osip))
    9 (num_images osip)) 10 (32 + 24 * num_images osip)) 12 0 20).
  set (pb := memset (copy_le16 (store8 (store8 (store8 (store8 (store8
    (store8 (store8 (store8 (store8 (store8 b 0 36) 1 79) 2 83) 3 36) 4 0)
    5 (minor osip)) 6 (major osip)) 7 0) 8 (num_pointers osip))
    9 (num_images osip)) 10 (32 + 24 * num_images osip)) 12 0 20).
  assert (Hpre : forall j, a !!! j = b !!! j -> pa !!! j = pb !!! j).
  { intros j Hj. subst pa pb.
    apply memset_same; [same_len|right].
    apply copy_le16_same; [same_len|right].
    do 9 (apply store8_same; [same_len|right]).
    apply store8_same; [done|by right]. }
  assert (Hlp : length pa = length pb) by (subst pa pb; same_len).
  destruct (write_osii_loop_same osip (seq 0 (Z.to_nat (num_images osip)))
              pa pb 32 Hlp) as (a' & b' & cur' & -> & -> & Hlen' & Hsame).
  cbn [snd].
  rewrite (osip_checksum_same a' b') ; [| lia |].
  - apply store8_same; [done|right]. apply Hsame. by apply Hpre.
  - intros j Hj. apply Hsame. apply Hpre. apply Hlow. lia.
Qed.

Lemma create_partitions_length (t : mbr_table) nb l (out : list Z) :
  length (create_partitions t nb l out).2 = length out.
Proof.
  revert out. induction l as [|i l IH]; intros out; [done|].
  change (create_partitions t nb (i :: l) out)
    with (create_partitions t nb l
            (create_partition (t !!! i) out (446 + i * 16) nb).2).
  by rewrite IH, length_create_partition.
Qed.

Lemma lookup_total_ext (a b : list Z) :
  length a = length b -> (forall k, a !!! k = b !!! k) -> a = b.
Proof.
  intros Hlen Hall. apply list_eq. intros k.
  destruct (decide (k < length a)%nat) as [Hk|Hk].
  - rewrite (list_lookup_lookup_total_lt a) by done.
    rewrite (list_lookup_lookup_total_lt b) by lia. by rewrite Hall.
  - rewrite !lookup_ge_None_2 by lia. done.
Qed.

(** X17. Of the caller's buffer, [mbr_create] keeps nothing but the CHS
    cells of the four entries (and those only where a block address has
    no CHS form): on two 512-byte buffers that agree in these 24 cells it
    returns the same result and, on success, the same record. An OSIP
    header, if asked for, is to end within the first 440 bytes. *)
Theorem mbr_create_reads_chs_cells (t : mbr_table) bootstrap osip signature
    num_blocks (a b : list Z) :
  length a = 512%nat -> length b = 512%nat ->
  (include_osip osip = true ->
     0 <= num_images osip /\ 32 + 24 * num_images osip <= 440) ->
  (forall k, chs_cell k -> a !!! k = b !!! k) ->
  (mbr_create t bootstrap osip signature num_blocks a).1
  = (mbr_create t bootstrap osip signature num_blocks b).1 /\
  ((mbr_create t bootstrap osip signature num_blocks a).1 = Ok tt ->
   (mbr_create t bootstrap osip signature num_blocks a).2
   = (mbr_create t bootstrap osip signature num_blocks b).2).
Proof.
  intros Hla Hlb Hosip Hchs.
  destruct (mbr_create_cases t bootstrap osip signature num_blocks a)
    as [(Hb & Hi & Hca)|[(Hnb & e & Hver & Hca)|(Hnb & Hver & Hca)]];
    destruct (mbr_create_cases t bootstrap osip signature num_blocks b)
    as [(Hb' & Hi' & Hcb)|[(Hnb' & e' & Hver' & Hcb)|(Hnb' & Hver' & Hcb)]];
    try tauto; try congruence.
  - rewrite Hca, Hcb. done.
  - rewrite Hca, Hcb. cbn [fst]. split; [congruence|]. intros [=].
  - split; [congruence|]. intros _.
    destruct (mbr_create t bootstrap osip signature num_blocks a)
      as [ra oa] eqn:Hruna.
    destruct (mbr_create t bootstrap osip signature num_blocks b)
      as [rb ob] eqn:Hrunb.
    cbn [fst snd] in *. subst ra rb.
    destruct (mbr_create_stages _ _ _ _ _ _ _ Hruna)
      as (_ & _ & a1 & a2 & Ha1 & Hpa & ->).
    destruct (mbr_create_stages _ _ _ _ _ _ _ Hrunb)
      as (_ & _ & b1 & b2 & Hb1 & Hpb & ->).
    assert (Hout : forall k, (512 <= k)%nat -> a !!! k = b !!! k).
    { intros k Hk.
      rewrite !list_lookup_total_alt, !lookup_ge_None_2 by lia. done. }
    assert (Hl0 : forall x y : list Z, length x = length y ->
      length match bootstrap with
             | Some code => memcpy x 0 code 0 440
             | None => memset x 0 0 440
             end
      = length match bootstrap with
               | Some code => memcpy y 0 code 0 440
               | None => memset y 0 0 440
               end).
    { intros x y Hxy. destruct bootstrap; same_len. }
    assert (H0 : forall k, ((k < 440)%nat \/ a !!! k = b !!! k) ->
      match bootstrap with
      | Some code => memcpy a 0 code 0 440
      | None => memset a 0 0 440
      end !!! k
      = match bootstrap with
        | Some code => memcpy b 0 code 0 440
        | None => memset b 0 0 440
        end !!! k).
    { intros k Hk. destruct bootstrap.
      - apply memcpy_same; [congruence|]. destruct Hk; [left; lia|by right].
      - apply memset_same; [congruence|]. destruct Hk; [left; lia|by right]. }
    assert (Hl1 : length a1 = length b1).
    { subst a1 b1. destruct (include_osip osip); [|apply Hl0; congruence].
      destruct (write_osip_ok osip
                  match bootstrap with
                  | Some code => memcpy a 0 code 0 440
                  | None => memset a 0 0 440
                  end) as (oa & Hoa & Hloa).
      destruct (write_osip_ok osip
                  match bootstrap with
                  | Some code => memcpy b 0 code 0 440
                  | None => memset b 0 0 440
                  end) as (ob & Hob & Hlob).
      rewrite Hoa, Hob. cbn [snd]. rewrite Hloa, Hlob.
      apply Hl0. congruence. }
    assert (H1 : forall k, ((k < 440)%nat \/ a !!! k = b !!! k) ->
                           a1 !!! k = b1 !!! k).
    { intros k Hk. subst a1 b1.
      destruct (include_osip osip); [|by apply H0].
      destruct Hosip as [Hn Hfit]; [done|].
      apply write_osip_same; [apply Hl0; congruence|done|lia| |by apply H0].
      intros j Hj. apply H0. left. lia. }
    assert (Ha2 : a2 = (create_partitions t num_blocks
                          (seq 0 MBR_MAX_PRIMARY_PARTITIONS)
                          (store8 (store8 (copy_le32 a1 440 signature) 444 0)
                             445 0)).2) by (by rewrite Hpa).
    assert (Hb2 : b2 = (create_partitions t num_blocks
                          (seq 0 MBR_MAX_PRIMARY_PARTITIONS)
                          (store8 (store8 (copy_le32 b1 440 signature) 444 0)
                             445 0)).2) by (by rewrite Hpb).
    assert (Hl2 : length a2 = length b2).
    { rewrite Ha2, Hb2.
      pose proof (create_partitions_length t num_blocks
                    (seq 0 MBR_MAX_PRIMARY_PARTITIONS)) as Hl.
      rewrite !Hl. same_len. }
    apply lookup_total_ext; [same_len|].
    intros k.
    apply store8_same; [same_len|]. split_cell.
    apply store8_same; [done|]. split_cell.
    rewrite Ha2, Hb2. apply create_partitions_same; [same_len|].
    destruct (decide (446 <= k < 510)%nat) as [Hentry|Hother].
    + destruct (decide (chs_cell k)) as [Hc|Hnc].
      * right.
        do 2 (apply store8_same; [same_len|right]).
        apply copy_le32_same; [done|right]. apply H1. right. by apply Hchs.
      * left. exists ((k - 446) / 16)%nat.
        pose proof (Nat.div_mod (k - 446) 16) as Hdm.
        pose proof (Nat.mod_upper_bound (k - 446) 16) as Hm.
        assert (Hq : ((k - 446) / 16 < 4)%nat).
        { apply Nat.Div0.div_lt_upper_bound; lia. }
        unfold chs_cell in Hnc. split.
        { apply elem_of_seq. unfold MBR_MAX_PRIMARY_PARTITIONS. lia. }
        lia.
    + right.
      apply store8_same; [same_len|]. split_cell.
      apply store8_same; [same_len|]. split_cell.
      apply copy_le32_same; [done|]. split_cell.
      apply H1. destruct (decide (k < 440)%nat); [by left|right].
      apply Hout. lia.
Qed.

Lemma mbr_create_reads_chs_cells_witness :
  (mbr_create far_table None zero_osip 0 0 ones_buffer).2
  = (mbr_create far_table None zero_osip 0 0 chs_ones_buffer).2.
Proof.
  destruct (mbr_create_reads_chs_cells far_table None zero_osip 0 0
              ones_buffer chs_ones_buffer) as [_ Hsame].
  - reflexivity.
  - reflexivity.
  - intros [=].
  - intros k Hk.
    assert (Hall : Forall (fun k => chs_cell k ->
                     ones_buffer !!! k = chs_ones_buffer !!! k) (seq 446 64)).
    { refine (bool_decide_unpack _ _). vm_compute. exact I. }
    rewrite Forall_forall in Hall. apply Hall; [|done].
    apply elem_of_seq. destruct Hk as [Hk _]. lia.
  - apply Hsame. vm_compute. reflexivity.
Defined.

(** ** fwup_sign: the copy loop, the payload and the files *)

Lemma string_length_append (s t : string) :
  String.length (s +:+ t) = (String.length s + String.length t)%nat.
Proof. induction s as [|c s IH]; simpl; [done|]. by rewrite IH. Qed.

Lemma temp_name_differs (s : string) : s +:+ ".tmp" <> s.
Proof.
  intros Heq. apply (f_equal String.length) in Heq.
  rewrite string_length_append in Heq. simpl in Heq. lia.
Qed.

Section resign_more.
Variable crypto_sign : list Z -> list Z -> list Z.
Variable faults : io_faults.

(** What the copy loop has written when it ends well. *)
Lemma copy_data_written fuel path size_left rest written w :
  size_left <= Z.of_nat fuel ->
  copy_data faults fuel path size_left rest written = Ok w ->
  w = written ++ take (Z.to_nat size_left) rest /\
  size_left <= Z.of_nat (length rest).
Proof.
  revert size_left rest written.
  induction fuel as [|fuel IH]; intros size_left rest written Hfuel;
    cbn [copy_data]; case_decide as Hleft; try lia.
  - intros [= <-]. replace (Z.to_nat size_left) with 0%nat by lia.
    rewrite take_0, app_nil_r. split; [done|lia].
  - set (to_read := if decide (4096 > size_left) then size_left else 4096).
    assert (Hread : 0 < to_read <= size_left).
    { subst to_read. case_decide; lia. }
    case_decide as Hlen; [done|].
    destruct (write_data_fails faults path _); [done|].
    intros Hrun. apply IH in Hrun as [-> Hrest]; [|lia].
    rewrite length_take, length_drop in *.
    assert (Hfull : (Z.to_nat to_read <= length rest)%nat).
    { destruct (decide (Z.to_nat to_read <= length rest)%nat); [done|].
      exfalso. lia. }
    rewrite Nat.min_l in * by done. split; [|lia].
    rewrite <- app_assoc, take_take_drop. do 2 f_equal. lia.
  - intros [= <-]. replace (Z.to_nat size_left) with 0%nat by lia.
    rewrite take_0, app_nil_r. split; [done|lia].
Qed.

(** Without write faults the loop ends well when the data is all there. *)
Lemma copy_data_passes fuel path size_left rest written :
  (forall chunk, write_data_fails faults path chunk = false) ->
  size_left <= Z.of_nat fuel -> size_left <= Z.of_nat (length rest) ->
  copy_data faults fuel path size_left rest written
  = Ok (written ++ take (Z.to_nat size_left) rest).
Proof.
  intros Hnofault. revert size_left rest written.
  induction fuel as [|fuel IH]; intros size_left rest written Hfuel Hrest;
    cbn [copy_data]; case_decide as Hleft; try lia.
  - replace (Z.to_nat size_left) with 0%nat by lia.
    by rewrite take_0, app_nil_r.
  - set (to_read := if decide (4096 > size_left) then size_left else 4096).
    assert (Hread : 0 < to_read <= size_left).
    { subst to_read. case_decide; lia. }
    rewrite length_take, Nat.min_l by lia.
    rewrite decide_False by lia. rewrite Hnofault.
    rewrite IH by (rewrite ?length_drop; lia).
    rewrite <- app_assoc, take_take_drop. do 3 f_equal. lia.
  - replace (Z.to_nat size_left) with 0%nat by lia.
    by rewrite take_0, app_nil_r.
Qed.

(** The loop stops at the end of the data with a read error. *)
Lemma copy_data_short fuel path size_left rest written :
  (forall chunk, write_data_fails faults path chunk = false) ->
  size_left <= Z.of_nat fuel -> Z.of_nat (length rest) < size_left ->
  copy_data faults fuel path size_left rest written = Err (ReadData path).
Proof.
  intros Hnofault. revert size_left rest written.
  induction fuel as [|fuel IH]; intros size_left rest written Hfuel Hrest;
    cbn [copy_data]; case_decide as Hleft; try lia.
  set (to_read := if decide (4096 > size_left) then size_left else 4096).
  assert (Hread : 0 < to_read <= size_left).
  { subst to_read. case_decide; lia. }
  rewrite length_take.
  case_decide as Hlen; [done|].
  rewrite Hnofault. apply IH; [lia|].
  rewrite length_drop. lia.
Qed.

(** The writes of the loop are of 4096 bytes, but for the last one, which
    is of what is left: the loop ends well as soon as writes of these two
    sizes do. *)
Lemma copy_data_chunked fuel path size_left rest written r :
  (forall chunk, length chunk = 4096%nat \/ length chunk = Z.to_nat r ->
                 write_data_fails faults path chunk = false) ->
  size_left <= 0 \/ size_left mod 4096 = r ->
  size_left <= Z.of_nat fuel -> size_left <= Z.of_nat (length rest) ->
  copy_data faults fuel path size_left rest written
  = Ok (written ++ take (Z.to_nat size_left) rest).
Proof.
  intros Hnofault. revert size_left rest written.
  induction fuel as [|fuel IH]; intros size_left rest written Hmod Hfuel Hrest;
    cbn [copy_data]; case_decide as Hleft; try lia.
  - replace (Z.to_nat size_left) with 0%nat by lia.
    by rewrite take_0, app_nil_r.
  - destruct Hmod as [Hmod|Hmod]; [lia|].
    set (to_read := if decide (4096 > size_left) then size_left else 4096).
    assert (Hread : 0 < to_read <= size_left).
    { subst to_read. case_decide; lia. }
    assert (Hchunk : length (take (Z.to_nat to_read) rest) = Z.to_nat to_read).
    { rewrite length_take. lia. }
    rewrite Hchunk. rewrite decide_False by lia.
    rewrite Hnofault.
    2:{ rewrite Hchunk. subst to_read. case_decide as Hsmall.
        - right. rewrite <- Hmod. by rewrite Z.mod_small by lia.
        - left. reflexivity. }
    rewrite IH.
    + rewrite <- app_assoc, take_take_drop. do 3 f_equal. lia.
    + subst to_read. case_decide as Hsmall; [left; lia|right].
      rewrite <- Hmod.
      replace (size_left - Z.of_nat (Z.to_nat 4096))
        with (size_left + (-1) * 4096) by lia.
      apply Z.mod_add. lia.
    + lia.
    + rewrite length_drop. lia.
  - replace (Z.to_nat size_left) with 0%nat by lia.
    by rewrite take_0, app_nil_r.
Qed.

(** A failing write of the first chunk ends the loop. *)
Lemma copy_data_first_write fuel path size_left rest written :
  0 < size_left -> rest <> [] ->
  write_data_fails faults path
    (take (Z.to_nat (Z.min size_left 4096)) rest) = true ->
  copy_data faults (S fuel) path size_left rest written = Err (WriteData path).
Proof.
  intros Hleft Hrest Hfail. cbn [copy_data].
  rewrite decide_True by lia.
  assert (Hread : (if decide (4096 > size_left) then size_left else 4096)
                  = Z.min size_left 4096).
  { case_decide; lia. }
  rewrite Hread. rewrite decide_False.
  - by rewrite Hfail.
  - rewrite length_take. destruct rest; [done|]. cbn [length]. lia.
Qed.

(** A stale signature changes nothing. *)
Lemma sign_loop_skips_signatures signing_key l st :
  while_secs (sign_entry crypto_sign faults signing_key) l st
  = while_secs (sign_entry crypto_sign faults signing_key)
      (filter not_signature l) st.
Proof.
  revert st. induction l as [|e l IH]; intros st; [done|].
  destruct (decide (not_signature e)) as [Hn|Hs].
  - rewrite filter_cons_True by done. cbn [while_secs].
    destruct (sign_entry _ _ _ e st); cbn [bind]; [apply IH|done].
  - rewrite filter_cons_False by done. cbn [while_secs].
    assert (Hstep : sign_entry crypto_sign faults signing_key e st = Ok st).
    { unfold sign_entry. destruct st as [configtxt out].
      rewrite decide_True; [done|].
      unfold not_signature in Hs.
      destruct (decide (pathname e = "meta.conf.ed25519")); [done|].
      by destruct Hs. }
    rewrite Hstep. cbn [bind]. apply IH.
Qed.

(** The loop once [meta.conf] has been seen. *)
Lemma sign_loop_payload signing_key l text out st' :
  while_secs (sign_entry crypto_sign faults signing_key) l (Some text, out)
    = Ok st' ->
  st' = (Some text, out ++ map normalized (filter is_payload l)) /\
  Forall (fun e => pathname e <> "meta.conf") l /\
  Forall (fun e => is_payload e ->
            archive_entry_size e <= Z.of_nat (length (data e))) l.
Proof.
  revert out. induction l as [|e l IH]; intros out.
  - cbn. intros [= <-]. rewrite app_nil_r. done.
  - cbn [while_secs].
    destruct (sign_entry _ _ _ e (Some text, out)) as [st1|] eqn:Hstep;
      [|done].
    cbn [bind]. intros Hrun. revert Hstep. unfold sign_entry.
    case_decide as Hsig.
    { intros [= <-]. apply IH in Hrun as (-> & Hmeta & Hsize).
      rewrite filter_cons_False by (intros [H _]; done).
      split; [done|]. split.
      - constructor; [by rewrite Hsig|done].
      - constructor; [by intros [H _]|done]. }
    case_decide as Hmeta; [done|].
    rewrite bool_decide_eq_true_2 by (by eexists). cbn [negb].
    destruct (write_header_fails faults _); [done|].
    destruct (copy_data _ _ _ _ _ _) as [written|] eqn:Hcopy; [|done].
    cbn [bind]. intros [= <-].
    apply copy_data_written in Hcopy as [-> Hsize]; [|lia].
    apply IH in Hrun as (-> & Hmeta' & Hsize').
    rewrite filter_cons_True by done. cbn [map].
    rewrite <- app_assoc. cbn [app]. split; [done|]. split.
    + by constructor.
    + constructor; [done|done].
Qed.

(** The loop from its start: either nothing but signatures was met, or
    [meta.conf] came first among the other entries. *)
Lemma sign_loop_shape signing_key l st' :
  while_secs (sign_entry crypto_sign faults signing_key) l (None, []) = Ok st' ->
  (st' = (None, []) /\ Forall (fun e => pathname e = "meta.conf.ed25519") l) \/
  exists sigs meta rest text len head,
    l = sigs ++ meta :: rest /\
    Forall (fun e => pathname e = "meta.conf.ed25519") sigs /\
    pathname meta = "meta.conf" /\
    archive_read_all_data meta 50000 = Ok (text, len) /\
    10 <= len < 50000 /\
    fwfile_add_meta_conf_str crypto_sign faults text len [] signing_key
      = Ok head /\
    Forall (fun e => pathname e <> "meta.conf") rest /\
    Forall (fun e => is_payload e ->
              archive_entry_size e <= Z.of_nat (length (data e))) rest /\
    st' = (Some text, head ++ map normalized (filter is_payload rest)).
Proof.
  induction l as [|e l IH].
  - cbn. intros [= <-]. left. done.
  - cbn [while_secs].
    destruct (sign_entry _ _ _ e (None, [])) as [st1|] eqn:Hstep; [|done].
    cbn [bind]. intros Hrun. revert Hstep. unfold sign_entry.
    case_decide as Hsig.
    { intros [= <-].
      destruct (IH Hrun) as [[-> Hall]|
        (sigs & meta & rest & text & len & head & -> & Hsigs & Hrest)].
      - left. split; [done|]. by constructor.
      - right. exists (e :: sigs), meta, rest, text, len, head.
        split; [done|]. split; [by constructor|done]. }
    case_decide as Hmeta; [|done].
    destruct (archive_read_all_data e 50000) as [[text len]|] eqn:Hread;
      [|done].
    case_decide as Hlen; [done|].
    destruct (fwfile_add_meta_conf_str _ _ _ _ _ _) as [head|] eqn:Hadd;
      [|done].
    cbn [bind]. intros [= <-].
    apply sign_loop_payload in Hrun as (-> & Hnometa & Hsizes).
    right. exists [], e, l, text, len, head.
    split; [done|]. split; [constructor|]. split; [done|]. split; [done|].
    split; [lia|]. done.
Qed.
End resign_more.

(** X18. The copy loop of [fwup_sign], when it ends well, has written
    exactly the first [size] bytes of the entry's data, and it ends well
    only if the data is that long. It writes 4096 bytes at a time and
    what is left at the end: when the data is that long it ends well as
    soon as the writes of 4096 bytes and of [size mod 4096] bytes do not
    fail, and a failing write of the first [min size 4096] bytes gives
    the write error. When no write fails and the data is shorter than
    [size], it ends with the read error. *)
Theorem copy_data_exact (faults : io_faults) (path : string) (n : Z)
    (content : list Z) :
  (forall w, copy_data faults (Z.to_nat n) path n content [] = Ok w ->
     w = take (Z.to_nat n) content /\ n <= Z.of_nat (length content)) /\
  ((forall chunk,
      length chunk = 4096%nat \/ length chunk = Z.to_nat (n mod 4096) ->
      write_data_fails faults path chunk = false) ->
   n <= Z.of_nat (length content) ->
   copy_data faults (Z.to_nat n) path n content []
   = Ok (take (Z.to_nat n) content)) /\
  (0 < n -> content <> [] ->
   write_data_fails faults path (take (Z.to_nat (Z.min n 4096)) content)
     = true ->
   copy_data faults (Z.to_nat n) path n content [] = Err (WriteData path)) /\
  ((forall chunk, write_data_fails faults path chunk = false) ->
   (n <= Z.of_nat (length content) ->
      copy_data faults (Z.to_nat n) path n content []
      = Ok (take (Z.to_nat n) content)) /\
   (Z.of_nat (length content) < n ->
      copy_data faults (Z.to_nat n) path n content [] = Err (ReadData path))).
Proof.
  split; [|split; [|split]].
  - intros w Hrun. apply copy_data_written in Hrun; [done|lia].
  - intros Hnofault Hlen.
    rewrite (copy_data_chunked faults (Z.to_nat n) path n content []
               (n mod 4096)); [done|done|by right|lia|done].
  - intros Hpos Hne Hfail.
    destruct (Z.to_nat n) as [|fuel] eqn:Hfuel; [lia|].
    by apply copy_data_first_write.
  - intros Hnofault. split.
    + intros Hlen.
      rewrite (copy_data_passes faults (Z.to_nat n) path n content [])
        by (done || lia).
      done.
    + intros Hshort. apply copy_data_short; [done|lia|done].
Qed.

Lemma copy_data_exact_witness :
  copy_data picky_faults (Z.to_nat 5000) "data/rootfs.img" 5000 long_data []
  = Ok (take (Z.to_nat 5000) long_data) /\
  copy_data no_faults (Z.to_nat 5001) "data/rootfs.img" 5001 long_data []
  = Err (ReadData "data/rootfs.img").
Proof.
  split.
  - apply (proj1 (proj2 (copy_data_exact picky_faults "data/rootfs.img" 5000
                           long_data))).
    + intros chunk Hchunk.
      change (Z.to_nat (5000 mod 4096)) with 904%nat in Hchunk.
      cbn [write_data_fails picky_faults].
      by rewrite bool_decide_eq_true_2.
    + vm_compute. discriminate.
  - apply (proj2 (proj2 (proj2 (proj2 (copy_data_exact no_faults
                           "data/rootfs.img" 5001 long_data)))
                    (fun _ => eq_refl))).
    vm_compute. reflexivity.
Defined.

(** X19. Signature entries of the input play no part in [fwup_sign]: the
    loop over the entries gives the same archive, or the same error, on
    the input with its [meta.conf.ed25519] entries taken out. *)
Theorem sign_entries_ignores_signatures
    (crypto_sign : list Z -> list Z -> list Z) (faults : io_faults)
    (key : list Z) (entries : list archive_entry) :
  sign_entries crypto_sign faults key entries
  = sign_entries crypto_sign faults key (filter not_signature entries).
Proof.
  unfold sign_entries. by rewrite sign_loop_skips_signatures.
Qed.

(** X20. When the loop over the entries ends well, the input is some
    signature entries, then [meta.conf] with a text of 10 to 49999
    bytes, then entries none of which is [meta.conf]; and the archive
    written is what adding that text gave, followed, in the order of the
    input, by one entry for each entry that is not a signature: same
    name and size, a regular file of mode 0644, holding the first [size]
    bytes of the data, which are all there. *)
Theorem sign_entries_payload (crypto_sign : list Z -> list Z -> list Z)
    (faults : io_faults) (key : list Z) (entries out : list archive_entry) :
  sign_entries crypto_sign faults key entries = Ok out ->
  exists sigs meta rest text len head,
    entries = sigs ++ meta :: rest /\
    Forall (fun e => pathname e = "meta.conf.ed25519") sigs /\
    pathname meta = "meta.conf" /\
    archive_read_all_data meta 50000 = Ok (text, len) /\
    10 <= len < 50000 /\
    fwfile_add_meta_conf_str crypto_sign faults text len [] key = Ok head /\
    Forall (fun e => pathname e <> "meta.conf") rest /\
    Forall (fun e => is_payload e ->
              archive_entry_size e <= Z.of_nat (length (data e))) rest /\
    out = head ++ map normalized (filter is_payload rest).
Proof.
  unfold sign_entries.
  destruct (while_secs _ _ _) as [[configtxt out1]|] eqn:Hloop; [|done].
  cbn [bind].
  destruct (sign_loop_shape _ _ _ _ _ Hloop) as [[[= -> ->] _]|
    (sigs & meta & rest & text & len & head & Hshape)].
  - done.
  - destruct Hshape
      as (-> & Hsigs & Hmeta & Hread & Hlen & Hadd & Hrest & Hsizes & [= -> ->]).
    rewrite bool_decide_eq_true_2 by (by eexists). cbn [negb].
    intros [= <-]. exists sigs, meta, rest, text, len, head. done.
Qed.

Lemma sign_entries_payload_witness :
  exists sigs meta rest text len head,
    good_archive = sigs ++ meta :: rest /\
    Forall (fun e => pathname e = "meta.conf.ed25519") sigs /\
    pathname meta = "meta.conf" /\
    archive_read_all_data meta 50000 = Ok (text, len) /\
    10 <= len < 50000 /\
    fwfile_add_meta_conf_str toy_sign no_faults text len [] [1; 2; 3]
      = Ok head /\
    Forall (fun e => pathname e <> "meta.conf") rest /\
    Forall (fun e => is_payload e ->
              archive_entry_size e <= Z.of_nat (length (data e))) rest /\
    match sign_entries toy_sign no_faults [1; 2; 3] good_archive with
    | Ok out => out
    | Err _ => []
    end = head ++ map normalized (filter is_payload rest).
Proof.
  apply (sign_entries_payload toy_sign no_faults [1; 2; 3] good_archive).
  vm_compute. reflexivity.
Defined.

(** X21. [fwup_sign] touches two paths only, the temporary file
    [input.tmp] and the output: every other file is as it was, the input
    too unless it is the output; a failed call leaves the output as it
    was; once the arguments are checked and the name of the temporary
    file is made, no file is left at that name, whatever the outcome,
    unless it is the output of a successful call; and a successful call
    leaves at the output the archive that the loop over the input's
    entries gave. *)
Theorem fwup_sign_files (crypto_sign : list Z -> list Z -> list Z)
    (faults : io_faults) (fs fs' : gmap string (list archive_entry))
    (input output : string) (key : list Z) (r : res unit) :
  fwup_sign crypto_sign faults fs (Some input) (Some output) (Some key)
    = (r, fs') ->
  (forall p, p <> input +:+ ".tmp" -> p <> output -> fs' !! p = fs !! p) /\
  (output <> input -> fs' !! input = fs !! input) /\
  (is_err r -> output <> input +:+ ".tmp" -> fs' !! output = fs !! output) /\
  (zip_setup_fails faults = false -> malloc_fails faults = false ->
   fs' !! (input +:+ ".tmp") = None \/
   (r = Ok tt /\ output = input +:+ ".tmp")) /\
  (r = Ok tt ->
   exists entries out,
     fs !! input = Some entries /\
     sign_entries crypto_sign faults key entries = Ok out /\
     fs' !! output = Some out).
Proof.
  intros Hrun.
  assert (Hframe : forall p, p <> input +:+ ".tmp" ->
            (p <> output \/ is_err r) -> fs' !! p = fs !! p).
  { intros p Htemp Hout. destruct r as [[]|e].
    - apply fwup_sign_success in Hrun
        as (i & o & k & ents & out & [= <-] & [= <-] & _ & _ & _ & ->).
      destruct Hout as [Hout|[e [=]]].
      rewrite lookup_insert_ne by done. by rewrite lookup_delete_ne.
    - apply fwup_sign_error in Hrun as [->|(i & [= <-] & ->)]; [done|].
      by rewrite lookup_delete_ne. }
  split; [|split; [|split; [|split]]].
  - intros p Htemp Hout. apply Hframe; [done|by left].
  - intros Hne. apply Hframe; [|by left].
    intros Heq. by apply (temp_name_differs input).
  - intros Herr Hne. apply Hframe; [done|by right].
  - intros Hzip Hmalloc. revert Hrun. unfold fwup_sign.
    rewrite Hzip, Hmalloc.
    destruct (fs !! input) as [entries|].
    2:{ intros [= <- <-]. left. apply lookup_delete_eq. }
    destruct (write_open_fails faults _).
    { intros [= <- <-]. left. apply lookup_delete_eq. }
    destruct (sign_entries _ _ _ _) as [out|].
    2:{ intros [= <- <-]. left. apply lookup_delete_eq. }
    destruct (rename_fails faults _ _).
    { intros [= <- <-]. left. apply lookup_delete_eq. }
    intros [= <- <-].
    destruct (decide (output = input +:+ ".tmp")) as [Heq|Hne];
      [by right|left].
    rewrite lookup_insert_ne by done. apply lookup_delete_eq.
  - intros ->.
    apply fwup_sign_success in Hrun
      as (i & o & k & ents & out & [= <-] & [= <-] & [= <-] & Hin & Hsign & ->).
    exists ents, out. split; [done|]. split; [done|].
    apply lookup_insert_eq.
Qed.

Lemma fwup_sign_files_witness :
  (fwup_sign toy_sign no_faults busy_fs (Some "fw.fw") (Some "signed.fw")
     (Some [1; 2; 3])).2 !! "other.fw" = busy_fs !! "other.fw" /\
  (fwup_sign toy_sign no_faults busy_fs (Some "fw.fw") (Some "signed.fw")
     (Some [1; 2; 3])).2 !! "fw.fw" = busy_fs !! "fw.fw".
Proof.
  destruct (fwup_sign_files toy_sign no_faults busy_fs
              (fwup_sign toy_sign no_faults busy_fs (Some "fw.fw")
                 (Some "signed.fw") (Some [1; 2; 3])).2
              "fw.fw" "signed.fw" [1; 2; 3]
              (fwup_sign toy_sign no_faults busy_fs (Some "fw.fw")
                 (Some "signed.fw") (Some [1; 2; 3])).1)
    as (Hframe & Hinput & _).
  - by destruct (fwup_sign toy_sign no_faults busy_fs (Some "fw.fw")
                   (Some "signed.fw") (Some [1; 2; 3])).
  - split.
    + apply Hframe; discriminate.
    + apply Hinput. discriminate.
Defined.
